(** * QueueCTL: job records, worker transitions and control operations

    A shallow embedding of [queuectl/models.py], [queuectl/worker.py] and the
    commands of [queuectl/cli.py] that read and write jobs and the
    configuration.

    Python values are modelled as follows.
    - [int] is [Z].
    - [str] is a list of Unicode code points ([list Z]); [py "text"] turns an
      ASCII literal into such a list.
    - [Optional[str]] is [option].
    - A naive [datetime] is the number of microseconds since
      0001-01-01T00:00:00; the interpreter's range checks are written out.
    - Mutation of a [Job] object is a functional update of a record; a call
      that may raise returns the object as mutated so far together with the
      exception.
    - The interpreter is CPython 3.11 with its default settings: conversions
      between [int] and [str] are limited to 4300 digits, and standard output
      is a UTF-8 stream with strict error handling. *)

From Stdlib Require Import ZArith QArith Lia List Ascii String Bool.
From stdpp Require Import base option list gmap.

Open Scope Z_scope.

(** ** Python strings *)

Abbreviation str := (list Z).

Definition py (s : string) : str :=
  map (fun a => Z.of_N (N_of_ascii a)) (list_ascii_of_string s).
Arguments py : simpl never.

(** [str.isspace] for one character: the code points CPython treats as
    whitespace, which are the ones [str.strip()] removes. *)
Definition is_space (c : Z) : bool :=
  ((9 <=? c) && (c <=? 13)) || ((28 <=? c) && (c <=? 32))
  || (c =? 133) || (c =? 160) || (c =? 5760)
  || ((8192 <=? c) && (c <=? 8202))
  || (c =? 8232) || (c =? 8233) || (c =? 8239) || (c =? 8287) || (c =? 12288).

Fixpoint lstrip (s : str) : str :=
  match s with
  | c :: s' => if is_space c then lstrip s' else s
  | [] => []
  end.

Definition rstrip (s : str) : str := rev (lstrip (rev s)).

(** [s.strip()] *)
Definition strip (s : str) : str := rstrip (lstrip s).

(** Decimal digits of a non-negative integer, most significant first.  The
    fuel is the number of digits still allowed. *)
Fixpoint digits_fuel (fuel : nat) (n : Z) (acc : str) : str :=
  match fuel with
  | O => acc
  | S fuel' =>
      let acc' := (48 + n mod 10) :: acc in
      if n <? 10 then acc' else digits_fuel fuel' (n / 10) acc'
  end.

Definition digits (n : Z) : str := digits_fuel (S (Z.to_nat (Z.log2 n))) n [].

(** The decimal text of an [int]: what [str(n)] returns whenever it returns.
    The conversion itself, with the interpreter's limit on the number of
    digits, is [format_int] below. *)
Definition str_of_int (n : Z) : str :=
  if n <? 0 then 45 :: digits (- n) else digits n.

(** [n] printed in at least [w] digits, as [%0wd] does. *)
Definition zero_pad (w : nat) (n : Z) : str :=
  let d := digits n in repeat 48 (w - length d) ++ d.

(** Lexicographic comparison of strings by code point, as Python's [<=]. *)
Fixpoint str_leb (a b : str) : bool :=
  match a, b with
  | [], _ => true
  | _ :: _, [] => false
  | x :: a', y :: b' => (x <? y) || ((x =? y) && str_leb a' b')
  end.

Definition str_ltb (a b : str) : bool := negb (str_leb b a).

(** ** Exceptions *)

(** The exceptions of the command line, by kind: the commands report every
    one of them with exit status 1 and never look at its text.
    [DigitLimitError] is the [ValueError] with which the interpreter refuses
    to convert an integer of more than 4300 digits from or to text. *)
Inductive exn :=
  | TypeError
  | JSONDecodeError
  | OSError
  | DigitLimitError
  | UnicodeEncodeError.

(** The exception of date arithmetic, with its text. *)
Inductive arith_exn :=
  | OverflowError (msg : str).

(** [str(e)] *)
Definition exn_str (e : arith_exn) : str :=
  match e with
  | OverflowError msg => msg
  end.

(** ** datetime and timedelta *)

Abbreviation datetime := Z (only parsing).

Definition US_PER_SECOND : Z := 1000000.
Definition US_PER_DAY : Z := 86400 * US_PER_SECOND.

(** [datetime.max], i.e. 9999-12-31T23:59:59.999999. *)
Definition DATETIME_MAX : Z := 315537897599999999.

Definition valid_datetime (t : Z) : Prop := 0 <= t <= DATETIME_MAX.

(** [timedelta(seconds=n)] for an [int] [n], in microseconds.  The
    constructor refuses more than 999999999 days in either direction. *)
Definition timedelta_seconds (n : Z) : arith_exn + Z :=
  let days := n / 86400 in
  if (-999999999 <=? days) && (days <=? 999999999) then inr (n * US_PER_SECOND)
  else if (-2147483648 <=? days) && (days <=? 2147483647) then
    inl (OverflowError
           (py "days=" ++ str_of_int days ++ py "; must have magnitude <= 999999999"))
  else inl (OverflowError (py "Python int too large to convert to C int")).

(** [t + delta] *)
Definition datetime_add (t delta : Z) : arith_exn + Z :=
  let r := t + delta in
  if (0 <=? r) && (r <=? DATETIME_MAX) then inr r
  else inl (OverflowError (py "date value out of range")).

(** Year, month and day of the proleptic Gregorian date that lies [days]
    days after 0001-01-01. *)
Definition civil_of_days (days : Z) : Z * Z * Z :=
  let z := days + 306 in
  let era := z / 146097 in
  let doe := z mod 146097 in
  let yoe := (doe - doe / 1460 + doe / 36524 - doe / 146096) / 365 in
  let doy := doe - (365 * yoe + yoe / 4 - yoe / 100) in
  let mp := (5 * doy + 2) / 153 in
  let d := doy - (153 * mp + 2) / 5 + 1 in
  let m := if mp <? 10 then mp + 3 else mp - 9 in
  let y := yoe + era * 400 + (if m <=? 2 then 1 else 0) in
  (y, m, d).

(** [t.isoformat()] *)
Definition isoformat (t : Z) : str :=
  let '(y, m, d) := civil_of_days (t / US_PER_DAY) in
  let tod := t mod US_PER_DAY in
  let us := tod mod US_PER_SECOND in
  let secs := tod / US_PER_SECOND in
  zero_pad 4 y ++ py "-" ++ zero_pad 2 m ++ py "-" ++ zero_pad 2 d ++ py "T"
  ++ zero_pad 2 (secs / 3600) ++ py ":" ++ zero_pad 2 (secs / 60 mod 60)
  ++ py ":" ++ zero_pad 2 (secs mod 60)
  ++ (if us =? 0 then [] else py "." ++ zero_pad 6 us).

(** [t.isoformat() + "Z"], the form in which the program stores timestamps. *)
Definition iso_z (t : Z) : str := isoformat t ++ py "Z".
Arguments iso_z : simpl never.

(** ** Results of calls that may raise *)

(** [Ok a]: the call returns [a].  [Raise e]: it raises [e].  [Untyped]: the
    input leaves the typed fragment modelled here (a JSON value whose type is
    not the one the dataclass annotates, or JSON syntax other than objects,
    strings, integers and [null]); nothing is stated about such inputs. *)
Inductive result (A : Type) :=
  | Ok (a : A)
  | Raise (e : exn)
  | Untyped.
Arguments Ok {A} a.
Arguments Raise {A} e.
Arguments Untyped {A}.

#[global] Instance result_ret : MRet result := fun A a => Ok a.
#[global] Instance result_bind : MBind result := fun A B f r =>
  match r with
  | Ok a => f a
  | Raise e => Raise e
  | Untyped => Untyped
  end.

(** ** Conversions between [int] and [str]

    CPython refuses to convert an [int] of more than 4300 decimal digits to
    text and a literal of more than 4300 digits to an [int]
    ([sys.int_max_str_digits] at its default); the conversion then raises
    [ValueError]. *)

Definition MAX_STR_DIGITS : nat := 4300.

Definition within_digit_limit (n : Z) : bool :=
  (length (digits (Z.abs n)) <=? MAX_STR_DIGITS)%nat.

(** [str(n)], as an f-string and [json.dumps] call it. *)
Definition format_int (n : Z) : result str :=
  if within_digit_limit n then Ok (str_of_int n) else Raise DigitLimitError.

(** ** Standard output

    [print] and [click.echo] write to [sys.stdout], under a UTF-8 locale a
    UTF-8 text stream with strict error handling: text with a surrogate code
    point cannot be encoded and the call raises [UnicodeEncodeError].  Messages for standard error
    ([err=True]) are written with [backslashreplace]; they never fail and are
    left out of the model. *)

Definition is_surrogate (c : Z) : bool := (55296 <=? c) && (c <=? 57343).

Definition encodable (text : str) : bool :=
  forallb (fun c => negb (is_surrogate c)) text.

Definition echo (text : str) : result unit :=
  if encodable text then Ok tt else Raise UnicodeEncodeError.

(** ** models.py *)

Module JobState.
Definition PENDING : str := py "pending".
Definition PROCESSING : str := py "processing".
Definition COMPLETED : str := py "completed".
Definition FAILED : str := py "failed".
Definition DEAD : str := py "dead".
End JobState.

(** The dataclass [Job], after [__init__] and [__post_init__] have run: the
    two creation timestamps are then always strings. *)
Record Job := mkJob {
  id : str;
  command : str;
  state : str;
  attempts : Z;
  max_retries : Z;
  created_at : str;
  updated_at : str;
  next_retry_at : option str;
  error_message : option str
}.

(** Attribute assignments [job.x = v]. *)
Definition set_state (v : str) (j : Job) : Job :=
  mkJob (id j) (command j) v (attempts j) (max_retries j) (created_at j)
        (updated_at j) (next_retry_at j) (error_message j).
Definition set_attempts (v : Z) (j : Job) : Job :=
  mkJob (id j) (command j) (state j) v (max_retries j) (created_at j)
        (updated_at j) (next_retry_at j) (error_message j).
Definition set_updated_at (v : str) (j : Job) : Job :=
  mkJob (id j) (command j) (state j) (attempts j) (max_retries j) (created_at j)
        v (next_retry_at j) (error_message j).
Definition set_next_retry_at (v : option str) (j : Job) : Job :=
  mkJob (id j) (command j) (state j) (attempts j) (max_retries j) (created_at j)
        (updated_at j) v (error_message j).
Definition set_error_message (v : option str) (j : Job) : Job :=
  mkJob (id j) (command j) (state j) (attempts j) (max_retries j) (created_at j)
        (updated_at j) (next_retry_at j) v.

Module Config.
(** The dataclass [Config] with its defaults.  [worker_poll_interval] is a
    float in the source and is only ever slept on; it is kept as a
    rational. *)
Record t := mk {
  max_retries : Z;
  backoff_base : Z;
  worker_poll_interval : Q;
  job_timeout : Z
}.
Definition default : t := mk 3 2 1%Q 300.
End Config.

(** [Job(...)]: the generated [__init__] with its defaults, followed by
    [__post_init__], which fills the timestamps from [datetime.utcnow()]. *)
Definition Job_init (now : datetime) (id command : str) (state : option str)
    (attempts max_retries : option Z) (created_at updated_at : option str)
    (next_retry_at error_message : option str) : Job :=
  let now_s := iso_z now in
  mkJob id command
        (default JobState.PENDING state)
        (default 0 attempts)
        (default 3 max_retries)
        (default now_s created_at)
        (default now_s updated_at)
        next_retry_at error_message.

(** JSON values of the typed fragment. *)
Inductive jvalue :=
  | JNull
  | JInt (n : Z)
  | JStr (s : str).

(** A Python [dict] with string keys, in insertion order. *)
Abbreviation dict := (list (str * jvalue)).

Fixpoint dict_get (k : str) (d : dict) : option jvalue :=
  match d with
  | [] => None
  | (k', v) :: d' => if bool_decide (k' = k) then Some v else dict_get k d'
  end.

(** [d[k] = v]: an existing key keeps its position. *)
Fixpoint dict_set (k : str) (v : jvalue) (d : dict) : dict :=
  match d with
  | [] => [(k, v)]
  | (k', v') :: d' =>
      if bool_decide (k' = k) then (k, v) :: d' else (k', v') :: dict_set k v d'
  end.

Definition jopt (o : option str) : jvalue :=
  match o with
  | Some s => JStr s
  | None => JNull
  end.

(** [Job.to_dict]: [asdict(self)], the fields in declaration order. *)
Definition to_dict (j : Job) : dict :=
  [ (py "id", JStr (id j));
    (py "command", JStr (command j));
    (py "state", JStr (state j));
    (py "attempts", JInt (attempts j));
    (py "max_retries", JInt (max_retries j));
    (py "created_at", JStr (created_at j));
    (py "updated_at", JStr (updated_at j));
    (py "next_retry_at", jopt (next_retry_at j));
    (py "error_message", jopt (error_message j)) ].

Definition field_names : list str :=
  map py ["id"; "command"; "state"; "attempts"; "max_retries"; "created_at";
          "updated_at"; "next_retry_at"; "error_message"]%string.

(** Reading a keyword argument at the type its field annotates.  [None] is an
    ill-typed value; an absent key selects the default. *)
Definition kw_str (k : string) (d : dict) : option (option str) :=
  match dict_get (py k) d with
  | None => Some None
  | Some (JStr s) => Some (Some s)
  | Some _ => None
  end.

Definition kw_int (k : string) (d : dict) : option (option Z) :=
  match dict_get (py k) d with
  | None => Some None
  | Some (JInt n) => Some (Some n)
  | Some _ => None
  end.

(** For the [Optional[str]] fields and the two timestamps, [null] is the same
    as leaving the argument out. *)
Definition kw_opt_str (k : string) (d : dict) : option (option str) :=
  match dict_get (py k) d with
  | None | Some JNull => Some None
  | Some (JStr s) => Some (Some s)
  | Some (JInt _) => None
  end.

(** [Job.from_dict]: the constructor applied to the entries of [data] as
    keyword arguments.  A key that is no field, or a missing [id] or
    [command], is a [TypeError]. *)
Definition from_dict (now : datetime) (data : dict) : result Job :=
  if negb (forallb (fun kv => bool_decide (kv.1 ∈ field_names)) data) then Raise TypeError
  else
    match dict_get (py "id") data, dict_get (py "command") data with
    | None, _ | _, None => Raise TypeError
    | Some vid, Some vcmd =>
        match vid, vcmd, kw_str "state" data, kw_int "attempts" data,
              kw_int "max_retries" data, kw_opt_str "created_at" data,
              kw_opt_str "updated_at" data, kw_opt_str "next_retry_at" data,
              kw_opt_str "error_message" data with
        | JStr i, JStr c, Some st, Some att, Some mr, Some ca, Some ua, Some nr, Some em =>
            Ok (Job_init now i c st att mr ca ua nr em)
        | _, _, _, _, _, _, _, _, _ => Untyped
        end
    end.

(** ** The [json] module

    [json.dumps(d, indent=2)] and [json.loads] on the typed fragment: objects
    whose values are strings, integers or [null].  The encoder is given as
    the text it writes ([object_text]) and the one condition under which it
    raises instead, an integer beyond the digit limit. *)

Definition hex_digit (d : Z) : Z := if d <? 10 then 48 + d else 87 + d.

(** [format(n, "04x")] for [0 <= n < 0x10000] *)
Definition hex4 (n : Z) : str :=
  [hex_digit (n / 4096 mod 16); hex_digit (n / 256 mod 16);
   hex_digit (n / 16 mod 16); hex_digit (n mod 16)].

Definition u_escape (n : Z) : str := 92 :: 117 :: hex4 n.

(** One character under [ensure_ascii=True]: the short escapes, printable
    ASCII as it is, [\uXXXX] for the rest of the basic plane and a surrogate
    pair above it.  The library writes the pair with shifts and masks; on code
    points these are the quotient and remainder by 1024. *)
Definition encode_char (c : Z) : str :=
  if c =? 34 then [92; 34]
  else if c =? 92 then [92; 92]
  else if c =? 10 then [92; 110]
  else if c =? 13 then [92; 114]
  else if c =? 9 then [92; 116]
  else if c =? 12 then [92; 102]
  else if c =? 8 then [92; 98]
  else if (32 <=? c) && (c <=? 126) then [c]
  else if c <? 65536 then u_escape c
  else u_escape (55296 + (c - 65536) / 1024) ++ u_escape (56320 + (c - 65536) mod 1024).

Definition encode_chars (s : str) : str := flat_map encode_char s.

Definition encode_string (s : str) : str := 34 :: encode_chars s ++ [34].

Definition value_text (v : jvalue) : str :=
  match v with
  | JNull => py "null"
  | JInt n => str_of_int n
  | JStr s => encode_string s
  end.

Definition member_text (kv : str * jvalue) : str :=
  encode_string kv.1 ++ py ": " ++ value_text kv.2.

Fixpoint members_text (d : dict) : str :=
  match d with
  | [] => []
  | [kv] => member_text kv
  | kv :: d' => member_text kv ++ [44; 10; 32; 32] ++ members_text d'
  end.

(** The text [json.dumps(d, indent=2)] writes. *)
Definition object_text (d : dict) : str :=
  match d with
  | [] => py "{}"
  | _ => [123; 10; 32; 32] ++ members_text d ++ [10; 125]
  end.

(** The values the encoder can write: every string, and the integers whose
    [__repr__] returns. *)
Definition value_prints (v : jvalue) : bool :=
  match v with
  | JInt n => within_digit_limit n
  | _ => true
  end.

(** [json.dumps(d, indent=2)] *)
Definition dumps_indent2 (d : dict) : result str :=
  if forallb (fun kv => value_prints kv.2) d then Ok (object_text d)
  else Raise DigitLimitError.

Definition is_ws (c : Z) : bool := (c =? 32) || (c =? 9) || (c =? 10) || (c =? 13).

Fixpoint skip_ws (s : str) : str :=
  match s with
  | c :: s' => if is_ws c then skip_ws s' else s
  | [] => []
  end.

Definition is_digit (c : Z) : bool := (48 <=? c) && (c <=? 57).

Definition hex_val (c : Z) : option Z :=
  if (48 <=? c) && (c <=? 57) then Some (c - 48)
  else if (97 <=? c) && (c <=? 102) then Some (c - 87)
  else if (65 <=? c) && (c <=? 70) then Some (c - 55)
  else None.

(** The four hexadecimal digits after [\u]. *)
Definition decode_uXXXX (s : str) : option (Z * str) :=
  match s with
  | a :: b :: c :: d :: rest =>
      match hex_val a, hex_val b, hex_val c, hex_val d with
      | Some a, Some b, Some c, Some d => Some (a * 4096 + b * 256 + c * 16 + d, rest)
      | _, _, _, _ => None
      end
  | _ => None
  end.

(** The one-letter escapes of the decoder. *)
Definition BACKSLASH (e : Z) : option Z :=
  if e =? 34 then Some 34
  else if e =? 92 then Some 92
  else if e =? 47 then Some 47
  else if e =? 98 then Some 8
  else if e =? 102 then Some 12
  else if e =? 110 then Some 10
  else if e =? 114 then Some 13
  else if e =? 116 then Some 9
  else None.

Definition is_high_surrogate (u : Z) : bool := (55296 <=? u) && (u <=? 56319).
Definition is_low_surrogate (u : Z) : bool := (56320 <=? u) && (u <=? 57343).

(** [s[end:end + 2] == "\\u"] *)
Definition starts_with_u (s : str) : bool :=
  match s with
  | a :: b :: _ => (a =? 92) && (b =? 117)
  | _ => false
  end.

(** [scanstring] in strict mode, entered after the opening quote.  Returns the
    decoded string and the text after the closing quote.  An escaped high
    surrogate directly followed by an escaped low surrogate is decoded as the
    one character they encode. *)
Fixpoint scanstring_fuel (fuel : nat) (s : str) (acc : str) : result (str * str) :=
  match fuel with
  | O => Raise JSONDecodeError
  | S fuel' =>
      match s with
      | [] => Raise JSONDecodeError
      | c :: s1 =>
          if c =? 34 then Ok (rev acc, s1)
          else if c =? 92 then
            match s1 with
            | [] => Raise JSONDecodeError
            | e :: s2 =>
                if e =? 117 then
                  match decode_uXXXX s2 with
                  | None => Raise JSONDecodeError
                  | Some (uni, s3) =>
                      if is_high_surrogate uni && starts_with_u s3 then
                        match decode_uXXXX (skipn 2 s3) with
                        | None => Raise JSONDecodeError
                        | Some (uni2, s5) =>
                            if is_low_surrogate uni2 then
                              scanstring_fuel fuel' s5
                                (65536 + ((uni - 55296) * 1024 + (uni2 - 56320)) :: acc)
                            else scanstring_fuel fuel' s3 (uni :: acc)
                        end
                      else scanstring_fuel fuel' s3 (uni :: acc)
                  end
                else
                  match BACKSLASH e with
                  | Some c' => scanstring_fuel fuel' s2 (c' :: acc)
                  | None => Raise JSONDecodeError
                  end
            end
          else if c <? 32 then Raise JSONDecodeError
          else scanstring_fuel fuel' s1 (c :: acc)
      end
  end.

Definition scanstring (s : str) : result (str * str) :=
  scanstring_fuel (length s) s [].

Fixpoint scan_digits (s : str) (acc : Z) : Z * str :=
  match s with
  | c :: s' => if is_digit c then scan_digits s' (acc * 10 + (c - 48)) else (acc, s)
  | [] => (acc, [])
  end.

(** [int(integer)] on the digits the scanner has matched.  They have no
    leading zero, so their number is the number of digits of the value. *)
Definition int_of_literal (n : Z) : result Z :=
  if within_digit_limit n then Ok n else Raise DigitLimitError.

(** The integer part of a number, [0|[1-9][0-9]*], at a digit.  A following
    fraction or exponent makes the number a float, which is not modelled. *)
Definition scan_int (s : str) : result (Z * str) :=
  '(n, r) ← match s with
            | c :: s' =>
                if c =? 48 then Ok (0, s')
                else if is_digit c then Ok (scan_digits s 0)
                else Raise JSONDecodeError
            | [] => Raise JSONDecodeError
            end;
  match r with
  | c :: _ =>
      if (c =? 46) || (c =? 101) || (c =? 69) then Untyped
      else n' ← int_of_literal n; Ok (n', r)
  | [] => n' ← int_of_literal n; Ok (n', r)
  end.

(** One JSON value of the fragment.  Arrays, nested objects, booleans and the
    non-finite float names are outside it. *)
Definition scan_value (s : str) : result (jvalue * str) :=
  match s with
  | [] => Raise JSONDecodeError
  | c :: s' =>
      if c =? 34 then '(v, r) ← scanstring s'; Ok (JStr v, r)
      else if c =? 110 then
        match s' with
        | 117 :: 108 :: 108 :: r => Ok (JNull, r)
        | _ => Raise JSONDecodeError
        end
      else if c =? 45 then
        match s' with
        | d :: _ =>
            if is_digit d then '(n, r) ← scan_int s'; Ok (JInt (- n), r)
            else if d =? 73 then Untyped
            else Raise JSONDecodeError
        | [] => Raise JSONDecodeError
        end
      else if is_digit c then '(n, r) ← scan_int s; Ok (JInt n, r)
      else if (c =? 123) || (c =? 91) || (c =? 116) || (c =? 102) || (c =? 78) || (c =? 73)
      then Untyped
      else Raise JSONDecodeError
  end.

(** The members of an object, entered after the opening quote of a key. *)
Fixpoint scan_members (fuel : nat) (s : str) (acc : dict) : result (dict * str) :=
  match fuel with
  | O => Raise JSONDecodeError
  | S fuel' =>
      '(key, s1) ← scanstring s;
      match skip_ws s1 with
      | 58 :: s2 =>
          '(v, s3) ← scan_value (skip_ws s2);
          let acc' := dict_set key v acc in
          match skip_ws s3 with
          | 125 :: s4 => Ok (acc', s4)
          | 44 :: s4 =>
              match skip_ws s4 with
              | 34 :: s5 => scan_members fuel' s5 acc'
              | _ => Raise JSONDecodeError
              end
          | _ => Raise JSONDecodeError
          end
      | _ => Raise JSONDecodeError
      end
  end.

(** [JSONObject], entered after the opening brace. *)
Definition JSONObject (s : str) : result (dict * str) :=
  match skip_ws s with
  | 125 :: r => Ok ([], r)
  | 34 :: r => scan_members (length r) r []
  | _ => Raise JSONDecodeError
  end.

Inductive jdoc :=
  | DValue (v : jvalue)
  | DObject (d : dict).

(** [json.loads]: one value, surrounded by optional whitespace, and nothing
    after it. *)
Definition loads (s : str) : result jdoc :=
  match skip_ws s with
  | 123 :: r =>
      '(d, r') ← JSONObject r;
      match skip_ws r' with
      | [] => Ok (DObject d)
      | _ => Raise JSONDecodeError
      end
  | r =>
      '(v, r') ← scan_value r;
      match skip_ws r' with
      | [] => Ok (DValue v)
      | _ => Raise JSONDecodeError
      end
  end.

(** [Job.to_json] *)
Definition to_json (j : Job) : result str := dumps_indent2 (to_dict j).

(** [Job.from_json].  Keyword expansion of anything but a mapping is a
    [TypeError]. *)
Definition from_json (now : datetime) (json_str : str) : result Job :=
  data ← loads json_str;
  match data with
  | DObject d => from_dict now d
  | DValue _ => Raise TypeError
  end.

Definition sample_job : Job :=
  mkJob (py "j1") (py "echo hi") JobState.FAILED 1 3
        (py "2024-01-01T00:00:00Z") (py "2024-01-01T00:00:05.250000Z")
        (Some (py "2024-01-01T00:00:07.250000Z")) (Some ([115; 104; 58; 32; 34; 233; 34; 10; 128512])).

(** ** The store

    [queuectl/storage.py] is not part of the sources at hand.  Its operations
    are modelled from the specification's description of the Store: a mapping
    from job id to job record with a lease, plus the singleton configuration.
    Every operation is one transaction; storage failures are not modelled, so
    [save_job] always reports success. *)

(** Modelled from the spec: a stored record, the [Job] attributes together
    with [lease_owner] and [lease_expires_at], which the [Job] class of
    [models.py] does not carry. *)
Record Row := mkRow {
  row_job : Job;
  lease_owner : option str;
  lease_expires_at : option Z
}.

(** Modelled from the spec: the store is a durable mapping from job id to job
    record plus a singleton configuration record. *)
Record Storage := mkStorage {
  jobs : gmap str Row;
  config : Config.t
}.

(** Modelled from the spec: the configuration is created with its defaults
    when the store is first opened. *)
Definition empty_storage : Storage := mkStorage ∅ Config.default.

(** Modelled from the spec: [get_config()] reads the configuration. *)
Definition get_config (s : Storage) : Config.t := config s.

(** Modelled from the spec: [put_config(c)] replaces the configuration. *)
Definition save_config (c : Config.t) (s : Storage) : Storage := mkStorage (jobs s) c.

(** Modelled from the spec: [get(id)] is read-only and returns the job
    attributes of the record, if there is one. *)
Definition get_job (job_id : str) (s : Storage) : option Job :=
  row_job <$> jobs s !! job_id.

(** Modelled from the spec: [put(job)] is an upsert of the job attributes;
    [updated_at] is updated on every persistence write; the lease of an
    existing record is left as it is.  The result reports success. *)
Definition save_job (now : datetime) (job : Job) (s : Storage) : bool * Storage :=
  let job' := set_updated_at (iso_z now) job in
  let row :=
    match jobs s !! id job with
    | Some old => mkRow job' (lease_owner old) (lease_expires_at old)
    | None => mkRow job' None None
    end in
  (true, mkStorage (<[id job := row]> (jobs s)) (config s)).

(** Modelled from the spec: [release(id)] clears [lease_owner] and
    [lease_expires_at] without changing [state]; it is idempotent. *)
Definition release_job (job_id : str) (s : Storage) : Storage :=
  mkStorage (alter (fun r => mkRow (row_job r) None None) job_id (jobs s)) (config s).

(** Modelled from the spec: [delete(id)] removes the record. *)
Definition delete_job (job_id : str) (s : Storage) : Storage :=
  mkStorage (delete job_id (jobs s)) (config s).

(** Modelled from the spec: a lease is live at [now] when [lease_owner] is set
    and [lease_expires_at] is later than [now]. *)
Definition lease_live (now : datetime) (r : Row) : bool :=
  match lease_owner r, lease_expires_at r with
  | Some _, Some e => now <? e
  | _, _ => false
  end.

(** Modelled from the spec: steps 1 and 2 of the selection policy of
    [acquire_next].  A job is considered when its state is [pending], or
    [failed] with [next_retry_at <= now]; a job left in [processing] by a
    worker that died is reclaimable once its lease is over (specification
    4.1 step 2, section 5 and scenario S5), so it is considered too.  Every
    job is excluded while its lease is live: the lease is all that keeps a
    [processing] job from being handed out again.  Timestamps are compared
    in their stored ISO-8601 text form. *)
Definition eligible (now : datetime) (r : Row) : bool :=
  let j := row_job r in
  (bool_decide (state j = JobState.PENDING)
   || (bool_decide (state j = JobState.FAILED)
       && match next_retry_at j with
          | Some t => str_leb t (iso_z now)
          | None => false
          end)
   || bool_decide (state j = JobState.PROCESSING))
  && negb (lease_live now r).

(** Modelled from the spec: step 3, the smallest [created_at] first and ties
    broken by [id]. *)
Definition before (a b : Row) : bool :=
  str_ltb (created_at (row_job a)) (created_at (row_job b))
  || (bool_decide (created_at (row_job a) = created_at (row_job b))
      && str_leb (id (row_job a)) (id (row_job b))).

Fixpoint first_row (rows : list Row) : option Row :=
  match rows with
  | [] => None
  | r :: rows' =>
      match first_row rows' with
      | Some r' => Some (if before r r' then r else r')
      | None => Some r
      end
  end.

Definition select_next (now : datetime) (s : Storage) : option Row :=
  first_row (filter (fun r => eligible now r = true) (map snd (map_to_list (jobs s)))).

Section Acquire.

(** Modelled from the spec: the grace period added to the job timeout when a
    lease is granted, in seconds. *)
Variable grace : Z.

(** Modelled from the spec: [acquire_next(worker_id, now)] selects one job and
    marks it leased in the same transaction (step 4): [state] becomes
    [processing], [lease_owner] the worker, [lease_expires_at] is
    [now + job_timeout + grace], and [updated_at] is bumped.  It returns the
    job as leased, or nothing when no job is eligible.  The specification
    requires the store to run the call as one serializable write transaction
    and to serialize all mutating operations, so the call is one function on
    the store and calls of concurrent workers are calls in some order. *)
Definition acquire_next (worker_id : str) (now : datetime) (s : Storage)
    : option Job * Storage :=
  match select_next now s with
  | None => (None, s)
  | Some r =>
      let job := set_updated_at (iso_z now) (set_state JobState.PROCESSING (row_job r)) in
      let expires := now + (Config.job_timeout (config s) + grace) * US_PER_SECOND in
      (Some job,
       mkStorage (<[id job := mkRow job (Some worker_id) (Some expires)]> (jobs s))
                 (config s))
  end.

End Acquire.

(** ** worker.py *)

(** What [subprocess.run] did: it returned a completed process, it raised
    [TimeoutExpired], or it raised some other exception, of which only the
    text [str(e)] matters. *)
Inductive run_result :=
  | Completed (returncode : Z) (stdout stderr : str)
  | TimeoutExpired
  | RunException (msg : str).

(** The outcome of a method that mutates the job it is given: it returns, or
    it raises after some of the assignments have been made.  [Float] marks the
    one computation that leaves integer arithmetic, a power with a negative
    exponent; the model stops there. *)
Inductive mutation :=
  | Returned (job : Job)
  | Raised (e : arith_exn) (job : Job)
  | Float.

(** The delay computed on the retry path, [backoff_base ** attempts], for a
    non-negative exponent. *)
Definition backoff_delay (attempts base : Z) : Z := base ^ attempts.

(** [Worker._handle_job_failure].  [now] is the value of [datetime.utcnow()]
    on the retry path. *)
Definition _handle_job_failure (config : Config.t) (now : datetime)
    (job : Job) (error_message : str) : mutation :=
  let job := set_error_message (Some error_message) job in
  if attempts job >=? max_retries job then
    let job := set_state JobState.DEAD job in
    Returned (set_next_retry_at None job)
  else
    let job := set_state JobState.FAILED job in
    if attempts job <? 0 then Float
    else
      let backoff_seconds := backoff_delay (attempts job) (Config.backoff_base config) in
      match timedelta_seconds backoff_seconds with
      | inl e => Raised e job
      | inr delta =>
          match datetime_add now delta with
          | inl e => Raised e job
          | inr next_retry => Returned (set_next_retry_at (Some (iso_z next_retry)) job)
          end
      end.

(** The message of a failed run, as [_execute_job] builds it.  The two
    numbers are printed within the digit limit: a return code is a machine
    integer, and [subprocess.run] raises [TimeoutExpired] only for a timeout
    that it could convert to a float. *)
Definition failure_message (config : Config.t) (run : run_result) : str :=
  match run with
  | Completed returncode _ stderr =>
      match stderr with
      | _ :: _ => strip stderr
      | [] => py "Exit code: " ++ str_of_int returncode
      end
  | TimeoutExpired =>
      py "Job timed out after " ++ str_of_int (Config.job_timeout config) ++ py " seconds"
  | RunException msg => msg
  end.

(** The [try] statement of [Worker._execute_job] without its [finally]
    clause: the increment of [attempts], then the branch for what the
    subprocess did.  The failure handler called in the [try] body is itself
    covered by [except Exception], which calls it again with the text of the
    exception, at the later time [now']; a handler called from an [except]
    clause is not covered.  The progress lines printed during the attempt are
    left out: each follows the assignments of its branch and shows the id,
    which the announcement has printed before, the counters, the delay and
    the message of the run. *)
Definition attempt (config : Config.t) (now now' : datetime) (run : run_result)
    (job : Job) : mutation :=
  let job := set_attempts (attempts job + 1) job in
  match run with
  | Completed returncode _ _ =>
      if returncode =? 0 then
        let job := set_state JobState.COMPLETED job in
        Returned (set_error_message None job)
      else
        match _handle_job_failure config now job (failure_message config run) with
        | Raised e job => _handle_job_failure config now' job (exn_str e)
        | m => m
        end
  | TimeoutExpired => _handle_job_failure config now job (failure_message config run)
  | RunException _ => _handle_job_failure config now job (failure_message config run)
  end.

(** The [finally] clause: save the job and release its lock, two calls of
    the store one after the other. *)
Definition persist (now : datetime) (job : Job) (s : Storage) : Storage :=
  release_job (id job) (save_job now job s).2.

(** The line [_execute_job] prints before it enters the [try] statement. *)
Definition announcement (worker_id : str) (job : Job) : str :=
  py "[Worker " ++ worker_id ++ py "] Executing job " ++ id job ++ py ": " ++ command job.

(** How [_execute_job] ends: it returns; or it re-raises the exception of
    the failure handler, after the [finally] clause has run; or the
    announcement cannot be printed and it raises before the [try] statement
    is entered, without having touched the store. *)
Inductive execution :=
  | Finished (s : Storage)
  | Reraised (e : arith_exn) (s : Storage)
  | NotStarted.

(** [Worker._execute_job] run without interruption.  [None] is the [Float]
    case. *)
Definition _execute_job (worker_id : str) (config : Config.t)
    (now now' now_save : datetime) (run : run_result) (job : Job) (s : Storage)
    : option execution :=
  match echo (announcement worker_id job) with
  | Ok _ =>
      match attempt config now now' run job with
      | Returned job => Some (Finished (persist now_save job s))
      | Raised e job => Some (Reraised e (persist now_save job s))
      | Float => None
      end
  | _ => Some NotStarted
  end.

(** The record written by the [finally] clause. *)
Definition persisted (m : mutation) : option Job :=
  match m with
  | Returned job | Raised _ job => Some job
  | Float => None
  end.

(** ** cli.py

    Commands return the exit status and the store.  Of what they print, the
    model keeps what can fail: the lines written to standard output that
    contain strings or integers of a job.  An exception that leaves a command
    is reported by [main] with exit status 1. *)

(** What [enqueue] parses: its argument, or for an argument of the form
    [@path] the content of that file, read by [fs].  [Untyped] stands for an
    input outside the typed fragment. *)
Definition enqueue_input (fs : str -> option str) (job_json : str) : result jdoc :=
  text ← match job_json with
         | 64 :: file_path =>
             match fs file_path with
             | Some t => Ok t
             | None => Raise OSError
             end
         | _ => Ok job_json
         end;
  loads text.

(** The [try] body of [enqueue] up to the construction of the job.  Anything
    but an object fails at the membership test or the item assignment. *)
Definition enqueue_job (fs : str -> option str) (now : datetime) (job_json : str)
    (s : Storage) : result Job :=
  data ← enqueue_input fs job_json;
  match data with
  | DValue _ => Raise TypeError
  | DObject job_data =>
      let config := get_config s in
      let job_data :=
        match dict_get (py "max_retries") job_data with
        | None => dict_set (py "max_retries") (JInt (Config.max_retries config)) job_data
        | Some _ => job_data
        end in
      from_dict now job_data
  end.

(** The three lines [enqueue] prints once the job is saved. *)
Definition enqueue_confirmation (job : Job) : result unit :=
  _ ← echo (10003 :: py " Job '" ++ id job ++ py "' enqueued successfully");
  _ ← echo (py "  Command: " ++ command job);
  mr ← format_int (max_retries job);
  echo (py "  Max retries: " ++ mr).

(** The [enqueue] command.  Every exception is reported with exit status 1;
    so is an id that already exists, before anything is written.  The
    confirmation is printed inside the [try] statement, after the job has
    been saved: when it cannot be printed the command exits with status 1
    and the job stays in the store. *)
Definition enqueue (fs : str -> option str) (now now_save : datetime) (job_json : str)
    (s : Storage) : option (Z * Storage) :=
  match enqueue_job fs now job_json s with
  | Untyped => None
  | Raise _ => Some (1, s)
  | Ok job =>
      match get_job (id job) s with
      | Some _ => Some (1, s)
      | None =>
          let '(ok, s') := save_job now_save job s in
          if ok then
            match enqueue_confirmation job with
            | Ok _ => Some (0, s')
            | _ => Some (1, s')
            end
          else Some (1, s')
      end
  end.

(** The [dlq retry] command.  Its confirmation shows only the id given on the
    command line, which is taken to be text the terminal accepts. *)
Definition dlq_retry (now_save : datetime) (job_id : str) (reset_attempts : bool)
    (s : Storage) : Z * Storage :=
  match get_job job_id s with
  | None => (1, s)
  | Some job =>
      if negb (bool_decide (state job = JobState.DEAD)) then (1, s)
      else
        let job := set_state JobState.PENDING job in
        let job := set_error_message None job in
        let job := set_next_retry_at None job in
        let job := if reset_attempts then set_attempts 0 job else job in
        let '(ok, s') := save_job now_save job s in
        if ok then (0, s') else (1, s')
  end.

(** ** The system: a store shared by workers and the command line

    One event is one call of the store together with the local steps of the
    process that lead to it; the events of different processes interleave in
    any order.  A worker that has acquired a job holds the job object and the
    configuration it loaded before polling.  Its attempt ends with two calls
    of the store, [save_job] and [release_job]; when [_execute_job] raises,
    [Worker.start] releases the job once more before the worker stops.  A
    worker can be killed between any two of its calls. *)

Inductive event :=
  | EvEnqueue (now now_save : datetime) (job_json : str)
  | EvAcquire (worker_id : str) (now : datetime)
  | EvFinish (worker_id : str) (now now' now_save : datetime) (run : run_result)
  | EvRelease (worker_id : str)
  | EvKill (worker_id : str)
  | EvDlqRetry (now_save : datetime) (job_id : str) (reset_attempts : bool)
  | EvDelete (job_id : str)
  | EvConfigSet (c : Config.t).

(** Where a busy worker stands: it holds an acquired job ([current_job]) and
    has not saved it yet; it has saved the job in the [finally] clause of
    [_execute_job], which is about to release it and then returns or
    re-raises; or [_execute_job] has raised and the [finally] clause of
    [Worker.start] is about to release the job. *)
Inductive worker_phase :=
  | Holding (config : Config.t) (job : Job)
  | Saved (job_id : str) (raised : bool)
  | Stopping (job_id : str).

Record system := mkSystem {
  storage : Storage;
  inflight : gmap str worker_phase
}.

Definition initial : system := mkSystem empty_storage ∅.

Section System.

Variable grace : Z.
Variable fs : str -> option str.

(** One step.  [EvAcquire] is one iteration of the loop of [Worker.start] by
    an idle worker.  [EvFinish] is [_execute_job] up to and including
    [save_job]; when the announcement cannot be printed it is the release
    with which [Worker.start] then stops.  [EvRelease] is the next
    [release_job] of a worker that has saved its job.  The other events are
    commands, [EvDelete] one deletion of [clear] or [dlq clear] and
    [EvConfigSet] a change of the configuration.  An event that does not
    apply to the state of its worker changes nothing.  [None] only where a
    command or an attempt leaves the modelled fragment. *)
Definition step (e : event) (st : system) : option system :=
  match e with
  | EvEnqueue now now_save job_json =>
      r ← enqueue fs now now_save job_json (storage st);
      Some (mkSystem r.2 (inflight st))
  | EvAcquire worker_id now =>
      match inflight st !! worker_id with
      | Some _ => Some st
      | None =>
          let config := get_config (storage st) in
          match acquire_next grace worker_id now (storage st) with
          | (Some job, s') =>
              Some (mkSystem s' (<[worker_id := Holding config job]> (inflight st)))
          | (None, s') => Some (mkSystem s' (inflight st))
          end
      end
  | EvFinish worker_id now now' now_save run =>
      match inflight st !! worker_id with
      | Some (Holding config job) =>
          match echo (announcement worker_id job) with
          | Ok _ =>
              match attempt config now now' run job with
              | Returned job' =>
                  Some (mkSystem (save_job now_save job' (storage st)).2
                          (<[worker_id := Saved (id job') false]> (inflight st)))
              | Raised _ job' =>
                  Some (mkSystem (save_job now_save job' (storage st)).2
                          (<[worker_id := Saved (id job') true]> (inflight st)))
              | Float => None
              end
          | _ =>
              Some (mkSystem (release_job (id job) (storage st))
                      (delete worker_id (inflight st)))
          end
      | _ => Some st
      end
  | EvRelease worker_id =>
      match inflight st !! worker_id with
      | Some (Saved job_id raised) =>
          Some (mkSystem (release_job job_id (storage st))
                  (if raised then <[worker_id := Stopping job_id]> (inflight st)
                   else delete worker_id (inflight st)))
      | Some (Stopping job_id) =>
          Some (mkSystem (release_job job_id (storage st))
                  (delete worker_id (inflight st)))
      | _ => Some st
      end
  | EvKill worker_id => Some (mkSystem (storage st) (delete worker_id (inflight st)))
  | EvDlqRetry now_save job_id reset_attempts =>
      Some (mkSystem (dlq_retry now_save job_id reset_attempts (storage st)).2 (inflight st))
  | EvDelete job_id => Some (mkSystem (delete_job job_id (storage st)) (inflight st))
  | EvConfigSet c => Some (mkSystem (save_config c (storage st)) (inflight st))
  end.

Fixpoint run_events (es : list event) (st : system) : option system :=
  match es with
  | [] => Some st
  | e :: es' => st' ← step e st; run_events es' st'
  end.

End System.

(** ** Inputs of the examples *)

(** No filesystem: every [@path] argument is unreadable. *)
Definition no_files : str -> option str := fun _ => None.

(** 2024-01-01T00:00:00 *)
Definition t2024 : datetime := 63839664000000000.

(** [n] seconds after 2024-01-01T00:00:00. *)
Definition seconds (n : Z) : datetime := t2024 + n * US_PER_SECOND.

(** JSON text written with an apostrophe where the double quote goes. *)
Definition json_text (s : string) : str :=
  map (fun c => if c =? 39 then 34 else c) (py s).

(** Two worker ids. *)
Definition w1 : str := py "w1".
Definition w2 : str := py "w2".

(** A job fails once, is retried when its backoff has elapsed, and succeeds. *)
Definition retry_then_success : list event :=
  [ EvEnqueue (seconds 0) (seconds 0) (json_text "{'id': 'j2', 'command': 'flaky'}");
    EvAcquire w1 (seconds 1);
    EvFinish w1 (seconds 2) (seconds 2) (seconds 2) (Completed 1 [] (py "try again"));
    EvRelease w1;
    EvAcquire w1 (seconds 5);
    EvFinish w1 (seconds 6) (seconds 6) (seconds 6) (Completed 0 (py "done") []);
    EvRelease w1 ].

(** The configuration after [config set backoff-base 1000000]. *)
Definition big_base : Config.t := Config.mk 3 1000000 1%Q 300.

(** Under that configuration a job fails twice; the second failure asks for a
    retry 10^12 seconds ahead, beyond the last [datetime]. *)
Definition retry_overflow : list event :=
  [ EvConfigSet big_base;
    EvEnqueue (seconds 0) (seconds 0) (json_text "{'id': 'j1', 'command': 'false'}");
    EvAcquire w1 (seconds 1);
    EvFinish w1 (seconds 2) (seconds 2) (seconds 2) (Completed 1 [] (py "boom"));
    EvRelease w1;
    EvAcquire w1 (seconds 2000000);
    EvFinish w1 (seconds 2000001) (seconds 2000001) (seconds 2000001)
      (Completed 1 [] (py "boom"));
    EvRelease w1;
    EvRelease w1 ].

(** The job of that run as the worker holds it for its second attempt. *)
Definition failed_once : Job :=
  mkJob (py "j1") (py "false") JobState.PROCESSING 1 3
        (py "2024-01-01T00:00:00Z") (py "2024-01-24T03:33:20Z")
        (Some (py "2024-01-12T13:46:42Z")) (Some (py "boom")).

(** A store with one dead job. *)
Definition dead_job : Job :=
  mkJob (py "j2") (py "sh -c 'exit 1'") JobState.DEAD 2 2
        (py "2024-01-01T00:00:00Z") (py "2024-01-01T00:00:03Z")
        None (Some (py "Exit code: 1")).

Definition dlq_store : Storage := (save_job (seconds 3) dead_job empty_storage).2.

(** A store with one pending job. *)
Definition leased_store : Storage :=
  (save_job (seconds 0)
     (mkJob (py "j1") (py "echo hi") JobState.PENDING 0 3
        (py "2024-01-01T00:00:00Z") (py "2024-01-01T00:00:00Z") None None)
     empty_storage).2.

(** Two jobs are enqueued, [j1] one second before [j2]. *)
Definition two_enqueues : list event :=
  [ EvEnqueue (seconds 0) (seconds 0) (json_text "{'id': 'j1', 'command': 'echo hi'}");
    EvEnqueue (seconds 1) (seconds 1) (json_text "{'id': 'j2', 'command': 'echo there'}") ].

(** A job with [max_retries] 0 dies on its first failure, is put back with
    [dlq retry] without [--reset-attempts], and fails again. *)
Definition retry_without_reset : list event :=
  [ EvEnqueue (seconds 0) (seconds 0)
      (json_text "{'id': 'j3', 'command': 'false', 'max_retries': 0}");
    EvAcquire w1 (seconds 1);
    EvFinish w1 (seconds 2) (seconds 2) (seconds 2) (Completed 1 [] []);
    EvRelease w1;
    EvDlqRetry (seconds 3) (py "j3") false;
    EvAcquire w2 (seconds 4);
    EvFinish w2 (seconds 5) (seconds 5) (seconds 5) (Completed 1 [] []);
    EvRelease w2 ].

(** The same run with [--reset-attempts]. *)
Definition retry_with_reset : list event :=
  [ EvEnqueue (seconds 0) (seconds 0)
      (json_text "{'id': 'j3', 'command': 'false', 'max_retries': 0}");
    EvAcquire w1 (seconds 1);
    EvFinish w1 (seconds 2) (seconds 2) (seconds 2) (Completed 1 [] []);
    EvRelease w1;
    EvDlqRetry (seconds 3) (py "j3") true;
    EvAcquire w2 (seconds 4);
    EvFinish w2 (seconds 5) (seconds 5) (seconds 5) (Completed 1 [] []);
    EvRelease w2 ].

(** A job whose id is the high surrogate U+D83D followed by the low surrogate
    U+DE00. *)
Definition split_pair_job : Job :=
  mkJob [55357; 56832] (py "true") JobState.PENDING 0 3
        (py "2024-01-01T00:00:00Z") (py "2024-01-01T00:00:00Z") None None.

(** ** Predicates of the statements *)

(** The runs that count as a failed attempt: every one but exit status 0. *)
Definition is_failure (run : run_result) : bool :=
  match run with
  | Completed returncode _ _ => negb (returncode =? 0)
  | _ => true
  end.

(** The specification's delay: the product of [k] factors [b]. *)
Fixpoint power_spec (b : Z) (k : nat) : Z :=
  match k with
  | O => 1
  | S k' => b * power_spec b k'
  end.

(** Every record is filed under its own id. *)
Definition store_wf (s : Storage) : Prop :=
  map_Forall (fun k r => id (row_job r) = k) (jobs s).

(** The state the constructor gives a job built from [data]. *)
Definition given_state (data : dict) : str :=
  match dict_get (py "state") data with
  | Some (JStr st) => st
  | _ => JobState.PENDING
  end.

(** What holds for every stored record in the runs considered below. *)
Definition job_inv (j : Job) : Prop :=
  0 <= max_retries j
  /\ attempts j <= max_retries j + 1
  /\ (state j <> JobState.COMPLETED -> state j <> JobState.DEAD ->
      attempts j <= max_retries j).

(** What holds for a job held by a worker, before the increment. *)
Definition held_inv (j : Job) : Prop :=
  0 <= max_retries j /\ attempts j <= max_retries j.

(** The invariant of those runs. *)
Definition system_inv (st : system) : Prop :=
  0 <= Config.max_retries (config (storage st))
  /\ map_Forall (fun _ r => job_inv (row_job r)) (jobs (storage st))
  /\ map_Forall (fun _ ph => match ph with
                             | Holding _ j => held_inv j
                             | _ => True
                             end) (inflight st).

(** Inputs that leave [state] and [attempts] to their defaults and give no
    negative [max_retries]. *)
Definition plain_job_data (d : dict) : bool :=
  match dict_get (py "state") d, dict_get (py "attempts") d with
  | None, None =>
      match dict_get (py "max_retries") d with
      | Some (JInt n) => 0 <=? n
      | _ => true
      end
  | _, _ => false
  end.

(** The events of the runs considered: enqueues of plain inputs, [dlq retry]
    with [--reset-attempts], and no negative default for [max_retries]. *)
Definition within_budget_event (fs : str -> option str) (e : event) : bool :=
  match e with
  | EvEnqueue _ _ job_json =>
      match enqueue_input fs job_json with
      | Ok (DObject d) => plain_job_data d
      | _ => true
      end
  | EvDlqRetry _ _ reset_attempts => reset_attempts
  | EvConfigSet c => 0 <=? Config.max_retries c
  | _ => true
  end.

(** Reading one more decimal digit. *)
Definition digit_step (a c : Z) : Z := a * 10 + (c - 48).

(** What may follow a number for it to be read as that integer. *)
Definition ends_number (rest : str) : Prop :=
  match rest with
  | c :: _ => is_digit c = false /\ c <> 46 /\ c <> 101 /\ c <> 69
  | [] => True
  end.

(** Strings that survive the JSON round trip: code points only, and no high
    surrogate directly before a low surrogate. *)
Definition is_code_point (c : Z) : bool := (0 <=? c) && (c <? 1114112).

Fixpoint no_split_pair (s : str) : bool :=
  match s with
  | c :: s' =>
      match s' with
      | d :: _ => negb (is_high_surrogate c && is_low_surrogate d)
      | [] => true
      end && no_split_pair s'
  | [] => true
  end.

Definition json_safe (s : str) : bool := forallb is_code_point s && no_split_pair s.

(** The text after an escaped high surrogate does not continue with an
    escaped low surrogate. *)
Definition no_low_escape (t : str) : Prop :=
  starts_with_u t = false
  \/ exists u t', t = u_escape u ++ t' /\ 0 <= u < 65536 /\ is_low_surrogate u = false.

(** Values, members and jobs made of such strings and of integers within
    the digit limit. *)
Definition value_safe (v : jvalue) : Prop :=
  match v with
  | JStr s => json_safe s = true
  | JInt n => within_digit_limit n = true
  | JNull => True
  end.

(** The text of the members after the opening quote of the first key. *)
Fixpoint members_body (d : dict) : str :=
  match d with
  | [] => []
  | kv :: d' =>
      encode_chars kv.1 ++ 34 :: 58 :: 32 :: value_text kv.2
      ++ match d' with
         | [] => []
         | _ :: _ => 44 :: 10 :: 32 :: 32 :: 34 :: members_body d'
         end
  end.

Definition member_safe (kv : str * jvalue) : Prop :=
  json_safe kv.1 = true /\ value_safe kv.2.

Definition job_safe (j : Job) : Prop :=
  json_safe (id j) = true /\ json_safe (command j) = true /\ json_safe (state j) = true
  /\ json_safe (created_at j) = true /\ json_safe (updated_at j) = true
  /\ match next_retry_at j with Some s => json_safe s = true | None => True end
  /\ match error_message j with Some s => json_safe s = true | None => True end
  /\ within_digit_limit (attempts j) = true
  /\ within_digit_limit (max_retries j) = true.

(** ** More of models.py: the configuration as a dictionary *)

(** The values of a configuration dictionary. *)
Inductive cvalue :=
  | CInt (n : Z)
  | CFloat (q : Q).

Fixpoint assoc_get {V : Type} (k : str) (d : list (str * V)) : option V :=
  match d with
  | [] => None
  | (k', v) :: d' => if bool_decide (k' = k) then Some v else assoc_get k d'
  end.

(** [d[k] = v] *)
Fixpoint assoc_set {V : Type} (k : str) (v : V) (d : list (str * V)) : list (str * V) :=
  match d with
  | [] => [(k, v)]
  | (k', v') :: d' =>
      if bool_decide (k' = k) then (k, v) :: d' else (k', v') :: assoc_set k v d'
  end.

(** [Config.to_dict] *)
Definition Config_to_dict (c : Config.t) : list (str * cvalue) :=
  [ (py "max_retries", CInt (Config.max_retries c));
    (py "backoff_base", CInt (Config.backoff_base c));
    (py "worker_poll_interval", CFloat (Config.worker_poll_interval c));
    (py "job_timeout", CInt (Config.job_timeout c)) ].

Definition config_field_names : list str :=
  map py ["max_retries"; "backoff_base"; "worker_poll_interval"; "job_timeout"]%string.

Definition ckw_int (k : string) (dflt : Z) (d : list (str * cvalue)) : option Z :=
  match assoc_get (py k) d with
  | None => Some dflt
  | Some (CInt n) => Some n
  | Some (CFloat _) => None
  end.

Definition ckw_float (k : string) (dflt : Q) (d : list (str * cvalue)) : option Q :=
  match assoc_get (py k) d with
  | None => Some dflt
  | Some (CFloat q) => Some q
  | Some (CInt _) => None
  end.

(** [Config.from_dict]: the constructor applied to the entries as keyword
    arguments; a key that is no field is a [TypeError], an absent field takes
    its default. *)
Definition Config_from_dict (data : list (str * cvalue)) : result Config.t :=
  if negb (forallb (fun kv => bool_decide (kv.1 ∈ config_field_names)) data)
  then Raise TypeError
  else
    match ckw_int "max_retries" 3 data, ckw_int "backoff_base" 2 data,
          ckw_float "worker_poll_interval" 1%Q data, ckw_int "job_timeout" 300 data with
    | Some mr, Some bb, Some wpi, Some jt => Ok (Config.mk mr bb wpi jt)
    | _, _, _, _ => Untyped
    end.

(** ** [int(value)] on text

    The outcome of [int] applied to a string: the integer, a [ValueError], or
    a text outside the fragment modelled (a non-ASCII character, which may be
    a digit or a space of another script).  A literal of more than 4300
    digits is a [ValueError]. *)
Inductive int_result :=
  | IntOk (n : Z)
  | ValueError
  | IntUnmodelled.

(** Whitespace of an ASCII literal: space and the characters 9 to 13. *)
Definition is_c_space (c : Z) : bool := (c =? 32) || ((9 <=? c) && (c <=? 13)).

Fixpoint lstrip_c (s : str) : str :=
  match s with
  | c :: s' => if is_c_space c then lstrip_c s' else s
  | [] => []
  end.

Definition strip_c (s : str) : str := rev (lstrip_c (rev (lstrip_c s))).

(** The digits of a literal, with single underscores allowed between digits.
    Returns the value and the number of digits. *)
Fixpoint scan_literal (s : str) (acc : Z) (count : nat) (after_digit : bool)
    : option (Z * nat) :=
  match s with
  | [] => if after_digit then Some (acc, count) else None
  | c :: s' =>
      if is_digit c then scan_literal s' (acc * 10 + (c - 48)) (S count) true
      else if (c =? 95) && after_digit then scan_literal s' acc count false
      else None
  end.

(** [int(value)] *)
Definition py_int (value : str) : int_result :=
  if existsb (fun c => 127 <? c) value then IntUnmodelled
  else
    let t := strip_c value in
    let '(negative, body) :=
      match t with
      | c :: t' => if c =? 45 then (true, t') else if c =? 43 then (false, t') else (false, t)
      | [] => (false, t)
      end in
    match scan_literal body 0 0 false with
    | None => ValueError
    | Some (n, count) =>
        if (MAX_STR_DIGITS <? count)%nat then ValueError
        else IntOk (if negative then - n else n)
    end.

(** ** More of cli.py *)

(** The [config set] command.  [None] where [float(value)] or an unmodelled
    [int(value)] decides.  The confirmation it prints shows the key and the
    integer just parsed, which are within what can be printed. *)
Definition config_set (key value : str) (s : Storage) : option (Z * Storage) :=
  let key_map :=
    [ (py "max-retries", py "max_retries");
      (py "backoff-base", py "backoff_base");
      (py "worker-poll-interval", py "worker_poll_interval");
      (py "job-timeout", py "job_timeout") ] in
  match assoc_get key key_map with
  | None => Some (1, s)
  | Some internal_key =>
      let cfg := get_config s in
      let cfg_dict := Config_to_dict cfg in
      match assoc_get internal_key cfg_dict with
      | Some (CInt _) =>
          match py_int value with
          | IntOk n =>
              match Config_from_dict (assoc_set internal_key (CInt n) cfg_dict) with
              | Ok new_cfg => Some (0, save_config new_cfg s)
              | _ => None
              end
          | ValueError => Some (1, s)
          | IntUnmodelled => None
          end
      | _ => None
      end
  end.

(** [s.lower()] for ASCII text; [None] for text with other characters. *)
Definition lower (s : str) : option str :=
  if existsb (fun c => 127 <? c) s then None
  else Some (map (fun c => if (65 <=? c) && (c <=? 90) then c + 32 else c) s).

Definition VALID_STATES : list str :=
  [JobState.PENDING; JobState.PROCESSING; JobState.COMPLETED; JobState.FAILED;
   JobState.DEAD].

(** The state filter of [list] and [clear]: no filter for an absent or empty
    option, else the lowered state, which must be one of the five. *)
Inductive state_filter :=
  | AllStates
  | OneState (st : str)
  | InvalidState.

Definition parse_state_filter (state : option str) : option state_filter :=
  match state with
  | None | Some [] => Some AllStates
  | Some st =>
      st' ← lower st;
      Some (if bool_decide (st' ∈ VALID_STATES) then OneState st' else InvalidState)
  end.

(** Modelled from the spec: [list_all()], every job of the store.  The spec
    fixes no order; the order of the map's listing stands for it. *)
Definition get_all_jobs (s : Storage) : list Job :=
  map (fun kr => row_job kr.2) (map_to_list (jobs s)).

(** Modelled from the spec: [list_by_state(s)], the jobs in one state. *)
Definition get_jobs_by_state (st : str) (s : Storage) : list Job :=
  filter (fun j => state j = st) (get_all_jobs s).

(** [s[:n]] for a string or a list: a negative [n] counts from the end. *)
Definition slice_to {A : Type} (n : Z) (l : list A) : list A :=
  if n <? 0 then firstn (Z.to_nat (Z.of_nat (length l) + n)) l
  else firstn (Z.to_nat n) l.

(** The shortening of a table cell: text longer than [width] is cut to
    [width - 3] characters and three dots. *)
Definition shorten (width : Z) (s : str) : str :=
  if width <? Z.of_nat (length s) then slice_to (width - 3) s ++ py "..." else s.

Inductive cell :=
  | CellStr (s : str)
  | CellInt (n : Z).

(** One row of the table of [list].  The f-string of the fourth cell
    converts the two counters to text. *)
Definition list_row (job : Job) : result (list cell) :=
  let command := shorten 40 (command job) in
  let error :=
    match error_message job with
    | Some (c :: e) => shorten 30 (c :: e)
    | _ => []
    end in
  a ← format_int (attempts job);
  m ← format_int (max_retries job);
  Ok [ CellStr (id job); CellStr command; CellStr (state job);
       CellStr (a ++ py "/" ++ m);
       CellStr error; CellStr (slice_to 19 (created_at job)) ].

(** The rows of the loop over the jobs. *)
Fixpoint list_rows (jobs : list Job) : result (list (list cell)) :=
  match jobs with
  | [] => Ok []
  | job :: jobs' =>
      row ← list_row job;
      rows ← list_rows jobs';
      Ok (row :: rows)
  end.

Definition cell_encodable (c : cell) : bool :=
  match c with
  | CellStr s => encodable s
  | CellInt _ => true
  end.

(** [click.echo] of the table.  [tabulate] belongs to a library outside the
    repository; what is used of it is that the grid it returns contains the
    text of every cell, so that the table can be written when every cell
    can. *)
Definition echo_table (rows : list (list cell)) : result unit :=
  if forallb (forallb cell_encodable) rows then Ok tt else Raise UnicodeEncodeError.

(** What [list] shows: nothing found, or the table, the number of rows and
    whether the notice about the limit is printed. *)
Inductive listing :=
  | NoJobs
  | Table (rows : list (list cell)) (shown : Z) (limited : bool).

(** The [list] command.  [None] for a state with non-ASCII characters.  The
    rows are built and the table is printed outside any [try] statement: an
    exception there leaves the command and [main] exits with status 1. *)
Definition list_jobs (state : option str) (limit : Z) (s : Storage)
    : option (Z * option listing) :=
  filter_ ← parse_state_filter state;
  match filter_ with
  | InvalidState => Some (1, None)
  | _ =>
      let jobs :=
        match filter_ with
        | OneState st => get_jobs_by_state st s
        | _ => get_all_jobs s
        end in
      match jobs with
      | [] => Some (0, Some NoJobs)
      | _ =>
          let jobs := slice_to limit jobs in
          match (rows ← list_rows jobs; _ ← echo_table rows; Ok rows) with
          | Ok rows =>
              Some (0, Some (Table rows (Z.of_nat (length jobs))
                               (Z.of_nat (length jobs) =? limit)))
          | Raise _ => Some (1, None)
          | Untyped => None
          end
      end
  end.

(** One row of the table of [dlq list]. *)
Definition dlq_row (job : Job) : list cell :=
  [ CellStr (id job); CellStr (shorten 40 (command job)); CellInt (attempts job);
    CellStr (shorten 40 (default [] (error_message job)));
    CellStr (slice_to 19 (updated_at job)) ].

(** The [dlq list] command. *)
Definition dlq_list (s : Storage) : listing :=
  match get_jobs_by_state JobState.DEAD s with
  | [] => NoJobs
  | jobs => Table (map dlq_row jobs) (Z.of_nat (length jobs)) false
  end.

(** [for job in jobs: storage.delete_job(job.id)] *)
Definition delete_jobs (jobs : list Job) (s : Storage) : Storage :=
  fold_left (fun s job => delete_job (id job) s) jobs s.

(** The [dlq clear] command, once confirmed: the number of jobs deleted and
    the store. *)
Definition dlq_clear (s : Storage) : Z * Storage :=
  let jobs := get_jobs_by_state JobState.DEAD s in
  let count := Z.of_nat (length jobs) in
  if count =? 0 then (0, s) else (count, delete_jobs jobs s).

(** The [clear] command, once confirmed: the exit status, the number of jobs
    deleted and the store. *)
Definition clear_jobs (state : option str) (s : Storage) : option (Z * Z * Storage) :=
  filter_ ← parse_state_filter state;
  match filter_ with
  | InvalidState => Some (1, 0, s)
  | _ =>
      let jobs :=
        match filter_ with
        | OneState st => get_jobs_by_state st s
        | _ => get_all_jobs s
        end in
      let count := Z.of_nat (length jobs) in
      if count =? 0 then Some (0, 0, s) else Some (0, count, delete_jobs jobs s)
  end.

(** The [get] command: the exit status and what it prints, a newline and
    the job as JSON, which is ASCII text.  An exception of [to_json] leaves
    the command. *)
Definition get_job_command (job_id : str) (s : Storage) : Z * option str :=
  match get_job job_id s with
  | None => (1, None)
  | Some job =>
      match to_json job with
      | Ok text => (0, Some (10 :: text))
      | _ => (1, None)
      end
  end.

(** ** Predicates of the further statements *)

(** The integer an input object gives under a key, and the default when
    the key is missing. *)
Definition given_int (k : string) (dflt : Z) (data : dict) : Z :=
  match dict_get (py k) data with
  | Some (JInt n) => n
  | _ => dflt
  end.

(** The keys [config set] knows. *)
Definition CONFIG_KEYS : list str :=
  map py ["max-retries"; "backoff-base"; "worker-poll-interval"; "job-timeout"]%string.

(** The confirmation of [enqueue] can be printed. *)
Definition confirmation_prints (job : Job) : bool :=
  encodable (id job) && encodable (command job) && within_digit_limit (max_retries job).

(** Every cell of the job's row in the table of [list] can be built and
    printed. *)
Definition job_listable (job : Job) : bool :=
  encodable (id job) && encodable (command job) && encodable (state job)
  && encodable (default [] (error_message job)) && encodable (created_at job)
  && within_digit_limit (attempts job) && within_digit_limit (max_retries job).

(** The id of the job a busy worker is working on. *)
Definition phase_job_id (ph : worker_phase) : str :=
  match ph with
  | Holding _ job => id job
  | Saved job_id _ | Stopping job_id => job_id
  end.



(** * Properties *)

(** ** The library models on sample values *)

Example isoformat_2024 : iso_z 63839664000000000 = py "2024-01-01T00:00:00Z".
Proof. reflexivity. Qed.

Example isoformat_samples :
  map isoformat
    [0; 315537897599999999; 36378608205000000; 67975503596500028;
     12867820934446812; 5306284095701534; 281230215517515404]
  = map py
    ["0001-01-01T00:00:00"; "9999-12-31T23:59:59.999999"; "1153-10-17T16:56:45";
     "2155-01-22T12:19:56.500028"; "0408-10-07T02:42:14.446812";
     "0169-02-24T07:48:15.701534"; "8912-10-31T08:18:37.515404"]%string.
Proof. vm_compute. reflexivity. Qed.

Example str_of_int_samples :
  map str_of_int [0; 7; 10; -9; 300; 1024; -1157407408]
  = map py ["0"; "7"; "10"; "-9"; "300"; "1024"; "-1157407408"]%string.
Proof. vm_compute. reflexivity. Qed.

Example strip_sample :
  strip (py " " ++ [10; 12288] ++ py "boom: not found" ++ [13; 10])
  = py "boom: not found".
Proof. reflexivity. Qed.

Example from_json_sample :
  (text ← to_json sample_job; from_json 0 text) = Ok sample_job.
Proof. vm_compute. reflexivity. Qed.

Example echo_samples :
  echo (py "Job 'j1'" ++ [233; 128512]) = Ok tt
  /\ echo (py "Job '" ++ [55357] ++ py "'") = Raise UnicodeEncodeError.
Proof. vm_compute. split; reflexivity. Qed.

(** ** Decimal text and the digit limit *)

Lemma digits_fuel_spec f n acc :
  0 <= n < 2 ^ Z.of_nat (S f) ->
  exists pre,
    digits_fuel (S f) n acc = pre ++ acc
    /\ Forall (fun c => is_digit c = true) pre
    /\ fold_left digit_step pre 0 = n
    /\ (n = 0 -> pre = [48])
    /\ (0 < n -> exists c pre', pre = c :: pre' /\ c <> 48).
Proof.
  revert n acc. induction f as [| f IH]; intros n acc Hn.
  - assert (n < 10) as Hlt by (change (2 ^ Z.of_nat 1) with 2 in Hn; lia).
    exists [48 + n mod 10]. cbn [digits_fuel]. apply Z.ltb_lt in Hlt as Hb. rewrite Hb.
    rewrite Z.mod_small by lia.
    split; [reflexivity |]. split.
    { constructor; [| constructor]. unfold is_digit. lia. }
    split; [cbn; unfold digit_step; lia |]. split.
    + intros ->. reflexivity.
    + intros Hpos. exists (48 + n), []. split; [reflexivity | lia].
  - cbn [digits_fuel]. destruct (n <? 10) eqn:Hb.
    + apply Z.ltb_lt in Hb. exists [48 + n mod 10]. rewrite Z.mod_small by lia.
      split; [reflexivity |]. split.
      { constructor; [| constructor]. unfold is_digit. lia. }
      split; [cbn; unfold digit_step; lia |]. split.
      * intros ->. reflexivity.
      * intros Hpos. exists (48 + n), []. split; [reflexivity | lia].
    + apply Z.ltb_ge in Hb.
      assert (0 <= n / 10 < 2 ^ Z.of_nat (S f)) as Hq.
      { rewrite Nat2Z.inj_succ, Z.pow_succ_r in Hn by lia.
        split; [apply Z.div_pos; lia |].
        apply Z.div_lt_upper_bound; lia. }
      destruct (IH (n / 10) ((48 + n mod 10) :: acc) Hq)
        as (pre & Heq & Hd & Hv & _ & Hnz).
      exists (pre ++ [48 + n mod 10]). split.
      { change (digits_fuel (S f) (n / 10) ((48 + n mod 10) :: acc)
                = (pre ++ [48 + n mod 10]) ++ acc).
        rewrite Heq, <- app_assoc. reflexivity. }
      assert (0 <= n mod 10 < 10) as Hm by (apply Z.mod_pos_bound; lia).
      split.
      { apply Forall_app. split; [exact Hd |].
        constructor; [| constructor]. unfold is_digit. lia. }
      split.
      { rewrite fold_left_app, Hv. cbn. unfold digit_step.
        pose proof (Z.div_mod n 10). lia. }
      split; [lia |].
      intros _. destruct Hnz as (c & pre' & -> & Hc).
      { apply Z.div_str_pos. lia. }
      exists c, (pre' ++ [48 + n mod 10]). split; [reflexivity | exact Hc].
Qed.

Lemma digits_spec n :
  0 <= n ->
  Forall (fun c => is_digit c = true) (digits n)
  /\ fold_left digit_step (digits n) 0 = n
  /\ (n = 0 -> digits n = [48])
  /\ (0 < n -> exists c pre', digits n = c :: pre' /\ c <> 48).
Proof.
  intros Hn. unfold digits.
  assert (0 <= n < 2 ^ Z.of_nat (S (Z.to_nat (Z.log2 n)))) as Hb.
  { split; [exact Hn |].
    rewrite Nat2Z.inj_succ, Z2Nat.id by apply Z.log2_nonneg.
    destruct (Z.eq_dec n 0) as [-> | Hne]; [reflexivity |].
    apply Z.log2_spec. lia. }
  destruct (digits_fuel_spec _ n [] Hb) as (pre & Heq & H).
  rewrite Heq, app_nil_r. exact H.
Qed.

Lemma fold_digits_bound pre : forall a,
  0 <= a ->
  Forall (fun c => is_digit c = true) pre ->
  a * 10 ^ Z.of_nat (length pre) <= fold_left digit_step pre a
  < (a + 1) * 10 ^ Z.of_nat (length pre).
Proof.
  induction pre as [| c pre IH]; intros a Ha Hd.
  - cbn. lia.
  - pose proof (Forall_inv Hd) as Hc. cbn beta in Hc.
    unfold is_digit in Hc. apply andb_true_iff in Hc as [H1 H2]. apply Z.leb_le in H1, H2.
    cbn [fold_left length]. rewrite Nat2Z.inj_succ, Z.pow_succ_r by lia.
    assert (0 <= digit_step a c) as Hs by (unfold digit_step; lia).
    specialize (IH (digit_step a c) Hs (Forall_inv_tail Hd)).
    assert (0 < 10 ^ Z.of_nat (length pre)) as Hp by (apply Z.pow_pos_nonneg; lia).
    unfold digit_step in IH |- *. nia.
Qed.

(** The number of digits of [n] is the least [k] with [n < 10^k], and 1 for
    [n = 0]. *)
Lemma digits_length n :
  0 <= n ->
  (1 <= length (digits n))%nat
  /\ n < 10 ^ Z.of_nat (length (digits n))
  /\ (0 < n -> 10 ^ (Z.of_nat (length (digits n)) - 1) <= n).
Proof.
  intros Hn. destruct (digits_spec n Hn) as (Hd & Hv & Hz & Hp).
  destruct (Z.eq_dec n 0) as [-> | Hne].
  - rewrite (Hz eq_refl). cbn. repeat split; lia.
  - destruct Hp as (c & pre & Heq & Hc); [lia |]. rewrite Heq in Hd, Hv |- *.
    pose proof (Forall_inv Hd) as Hdc. cbn beta in Hdc.
    unfold is_digit in Hdc. apply andb_true_iff in Hdc as [H1 H2].
    apply Z.leb_le in H1, H2.
    cbn [fold_left] in Hv.
    assert (0 <= digit_step 0 c) as Hs by (unfold digit_step; lia).
    pose proof (fold_digits_bound pre (digit_step 0 c) Hs (Forall_inv_tail Hd)) as Hb.
    rewrite Hv in Hb. cbn [length]. rewrite Nat2Z.inj_succ.
    replace (Z.succ (Z.of_nat (length pre)) - 1) with (Z.of_nat (length pre)) by lia.
    rewrite Z.pow_succ_r by lia.
    assert (0 < 10 ^ Z.of_nat (length pre)) as Hpos by (apply Z.pow_pos_nonneg; lia).
    unfold digit_step in Hb. split; [lia |]. split; [nia |]. intros _. nia.
Qed.

(** An integer is within the digit limit exactly when it lies strictly
    between [-10^4300] and [10^4300]. *)
Lemma within_digit_limit_spec n :
  within_digit_limit n = true <-> Z.abs n < 10 ^ 4300.
Proof.
  unfold within_digit_limit, MAX_STR_DIGITS.
  destruct (digits_length (Z.abs n)) as (H1 & H2 & H3); [lia |].
  rewrite Nat.leb_le. split.
  - intros Hle. eapply Z.lt_le_trans; [exact H2 |].
    apply Z.pow_le_mono_r; lia.
  - intros Hlt. destruct (le_lt_dec (length (digits (Z.abs n))) 4300) as [Hle | Hgt];
      [exact Hle | exfalso].
    assert (0 < Z.abs n) as Hpos.
    { destruct (Z.eq_dec (Z.abs n) 0) as [E | E]; [| lia].
      rewrite E in Hgt. cbn in Hgt. lia. }
    specialize (H3 Hpos).
    assert (10 ^ 4300 <= 10 ^ (Z.of_nat (length (digits (Z.abs n))) - 1)) as Hm
      by (apply Z.pow_le_mono_r; lia).
    remember (10 ^ 4300) as bound. clear Heqbound. lia.
Qed.

(** 4300 digits pass both conversions, 4301 do not. *)
Example digit_limit_samples :
  within_digit_limit (10 ^ 4300 - 1) = true
  /\ within_digit_limit (- 10 ^ 4300) = false
  /\ format_int (10 ^ 4300) = Raise DigitLimitError
  /\ int_of_literal (10 ^ 4300) = Raise DigitLimitError.
Proof.
  assert (0 < 10 ^ 4300) as Hpos by (apply Z.pow_pos_nonneg; lia).
  pose proof within_digit_limit_spec as Hspec.
  unfold format_int, int_of_literal.
  remember (10 ^ 4300) as bound. clear Heqbound.
  assert (forall n, Z.abs n = bound -> within_digit_limit n = false) as H2.
  { intros n Hn. destruct (within_digit_limit n) eqn:E; [| reflexivity].
    apply Hspec in E. lia. }
  split; [apply Hspec; lia |]. split; [apply H2; lia |].
  rewrite (H2 bound) by lia. split; reflexivity.
Qed.

Lemma digits_encodable l :
  Forall (fun c => is_digit c = true) l -> encodable l = true.
Proof.
  induction 1 as [| c l Hc _ IH]; [reflexivity |].
  cbn [encodable forallb]. fold (encodable l). rewrite IH, andb_true_r.
  unfold is_digit in Hc. apply andb_true_iff in Hc as [H1 H2]. apply Z.leb_le in H1, H2.
  unfold is_surrogate. rewrite (proj2 (Z.leb_gt 55296 c)) by lia. reflexivity.
Qed.

Lemma str_of_int_encodable n : encodable (str_of_int n) = true.
Proof.
  unfold str_of_int. destruct (n <? 0) eqn:E.
  - apply Z.ltb_lt in E. destruct (digits_spec (- n)) as (Hd & _); [lia |].
    cbn [encodable forallb]. fold (encodable (digits (- n))).
    now rewrite (digits_encodable _ Hd).
  - apply Z.ltb_ge in E. destruct (digits_spec n E) as (Hd & _).
    now apply digits_encodable.
Qed.

(** ** Properties of the worker *)

Lemma handle_failure_dead config now job msg :
  max_retries job <= attempts job ->
  _handle_job_failure config now job msg
  = Returned (set_next_retry_at None
               (set_state JobState.DEAD (set_error_message (Some msg) job))).
Proof.
  intros H. unfold _handle_job_failure. cbn [attempts max_retries set_error_message].
  destruct (attempts job >=? max_retries job) eqn:E; [reflexivity | lia].
Qed.

Lemma handle_failure_retry config now job msg t :
  0 <= attempts job < max_retries job ->
  timedelta_seconds (backoff_delay (attempts job) (Config.backoff_base config)) = inr t ->
  0 <= now + t <= DATETIME_MAX ->
  _handle_job_failure config now job msg
  = Returned (set_next_retry_at (Some (iso_z (now + t)))
               (set_state JobState.FAILED (set_error_message (Some msg) job))).
Proof.
  intros H Ht Hr. unfold _handle_job_failure.
  cbn [attempts max_retries set_error_message set_state].
  destruct (attempts job >=? max_retries job) eqn:E; [lia |].
  destruct (attempts job <? 0) eqn:E0; [lia |].
  rewrite Ht. unfold datetime_add.
  destruct ((0 <=? now + t) && (now + t <=? DATETIME_MAX)) eqn:E1; [reflexivity |].
  apply andb_false_iff in E1. lia.
Qed.

Lemma timedelta_seconds_ok n :
  -86399999913600 <= n <= 86399999999999 ->
  timedelta_seconds n = inr (n * US_PER_SECOND).
Proof.
  intros H. unfold timedelta_seconds.
  assert (-999999999 <= n / 86400 <= 999999999) as Hd.
  { Z.div_mod_to_equations. lia. }
  destruct ((-999999999 <=? n / 86400) && (n / 86400 <=? 999999999)) eqn:E; [reflexivity |].
  apply andb_false_iff in E. lia.
Qed.

(** The record a failed attempt leaves, whenever the retry instant
    [now + backoff_base ** attempts] is a [datetime]: dead without
    [next_retry_at] once the incremented [attempts] reaches [max_retries],
    and otherwise failed with [next_retry_at] that instant; in both cases
    [error_message] is the message of the run. *)
Lemma attempt_failure config now now' run job :
  is_failure run = true ->
  let n := attempts job + 1 in
  let msg := failure_message config run in
  (max_retries job <= n ->
   attempt config now now' run job
   = Returned (mkJob (id job) (command job) JobState.DEAD n (max_retries job)
                 (created_at job) (updated_at job) None (Some msg)))
  /\ (0 <= n < max_retries job ->
      let d := backoff_delay n (Config.backoff_base config) in
      -86399999913600 <= d <= 86399999999999 ->
      0 <= now + d * US_PER_SECOND <= DATETIME_MAX ->
      attempt config now now' run job
      = Returned (mkJob (id job) (command job) JobState.FAILED n (max_retries job)
                    (created_at job) (updated_at job)
                    (Some (iso_z (now + d * US_PER_SECOND))) (Some msg))).
Proof.
  intros Hf n msg. split.
  - intros Hn. unfold attempt.
    destruct run as [rc out err | | m]; cbn in Hf;
      [destruct (rc =? 0) eqn:E; [discriminate |] | |];
      rewrite handle_failure_dead by (cbn; lia); reflexivity.
  - intros Hn d Hd Hr. unfold attempt.
    destruct run as [rc out err | | m]; cbn in Hf;
      [destruct (rc =? 0) eqn:E; [discriminate |] | |];
      rewrite (handle_failure_retry _ _ _ _ (d * US_PER_SECOND))
        by (cbn [attempts max_retries set_attempts];
            first [lia | apply timedelta_seconds_ok; exact Hd]);
      reflexivity.
Qed.

(** A successful attempt: completed, no error message, the incremented
    [attempts]; [next_retry_at] is not assigned and keeps its value. *)
Lemma attempt_success config now now' stdout stderr job :
  attempt config now now' (Completed 0 stdout stderr) job
  = Returned (mkJob (id job) (command job) JobState.COMPLETED (attempts job + 1)
                (max_retries job) (created_at job) (updated_at job)
                (next_retry_at job) None).
Proof. reflexivity. Qed.

(** C2, evaluated on the code: the job that succeeds on its second attempt is
    persisted as completed with [attempts] 2 and no error message, but it
    still carries the [next_retry_at] of its first failure; the success branch
    of [_execute_job] never assigns that attribute, while the dead branch of
    the failure handler and [dlq retry] both clear it. *)
Theorem success_keeps_next_retry_at :
  (st ← run_events 5 no_files retry_then_success initial;
   get_job (py "j2") (storage st))
  = Some (mkJob (py "j2") (py "flaky") JobState.COMPLETED 2 3
            (py "2024-01-01T00:00:00Z") (py "2024-01-01T00:00:06Z")
            (Some (py "2024-01-01T00:00:04Z")) None).
Proof. vm_compute. reflexivity. Qed.

(** C1, evaluated on the code: after the second failure [attempts] is 2, below
    [max_retries] 3, so the record should be failed with [next_retry_at] set
    10^12 seconds after the failure.  The addition raises [OverflowError]
    inside the failure handler; the record written by the [finally] clause is
    failed with the [next_retry_at] of the first failure, which is already in
    the past. *)
Theorem retry_overflow_record :
  (st ← run_events 5 no_files retry_overflow initial;
   get_job (py "j1") (storage st))
  = Some (mkJob (py "j1") (py "false") JobState.FAILED 2 3
            (py "2024-01-01T00:00:00Z") (py "2024-01-24T03:33:21Z")
            (Some (py "2024-01-12T13:46:42Z"))
            (Some (py "date value out of range")))
  /\ backoff_delay 2 (Config.backoff_base big_base) = 1000000000000
  /\ datetime_add (seconds 2000001) (1000000000000 * US_PER_SECOND)
     = inl (OverflowError (py "date value out of range")).
Proof. vm_compute. repeat split; reflexivity. Qed.

(** C8, evaluated on the code: the command exits with status 1 and [boom] on
    its standard error, so the recorded message should be [boom].  The
    overflow of the retry instant is caught by [except Exception], whose
    handler overwrites the message with the text of the [OverflowError]. *)
Theorem overflow_replaces_error_message :
  let run := Completed 1 [] (py "boom" ++ [10]) in
  failure_message big_base run = py "boom"
  /\ error_message <$> persisted (attempt big_base (seconds 2000001) (seconds 2000001) run failed_once)
     = Some (Some (py "date value out of range")).
Proof. vm_compute. split; reflexivity. Qed.

(** The messages of failed runs, as they are handed to the failure handler:
    the stripped standard error when there is any, else the exit status; for
    a timeout, the timeout in force. *)
Lemma failure_message_cases config :
  (forall returncode stdout stderr, stderr <> [] ->
     failure_message config (Completed returncode stdout stderr) = strip stderr)
  /\ (forall returncode stdout,
        failure_message config (Completed returncode stdout [])
        = py "Exit code: " ++ str_of_int returncode)
  /\ failure_message config TimeoutExpired
     = py "Job timed out after " ++ str_of_int (Config.job_timeout config) ++ py " seconds".
Proof.
  repeat split.
  intros rc out [| c err] H; [congruence | reflexivity].
Qed.

(** ** Backoff *)

Lemma power_spec_pow b k : power_spec b k = b ^ Z.of_nat k.
Proof.
  induction k as [| k IH].
  - reflexivity.
  - rewrite Nat2Z.inj_succ, Z.pow_succ_r by lia. cbn [power_spec]. now rewrite IH.
Qed.

(** C9: for every exponent [k >= 0] the delay the worker computes is the exact
    integer power [b^k], and for a base above 1 it grows strictly with [k]. *)
Theorem backoff_delay_power (b k : Z) :
  0 <= k ->
  backoff_delay k b = power_spec b (Z.to_nat k)
  /\ (1 < b -> forall k', k < k' -> backoff_delay k b < backoff_delay k' b).
Proof.
  intros Hk. split.
  - rewrite power_spec_pow, Z2Nat.id by lia. reflexivity.
  - intros Hb k' Hlt. unfold backoff_delay. apply Z.pow_lt_mono_r; lia.
Qed.

Lemma backoff_delay_power_witness :
  backoff_delay 3 2 = power_spec 2 (Z.to_nat 3)
  /\ (1 < 2 -> forall k', 3 < k' -> backoff_delay 3 2 < backoff_delay k' 2).
Proof. apply (backoff_delay_power 2 3). lia. Defined.

(** ** Properties of the store *)

Lemma store_wf_empty : store_wf empty_storage.
Proof. apply map_Forall_empty. Qed.

Lemma store_wf_get_job s k job : store_wf s -> get_job k s = Some job -> id job = k.
Proof.
  unfold store_wf, get_job. intros Hwf H.
  destruct (jobs s !! k) as [r |] eqn:E; [| discriminate].
  injection H as <-. exact (Hwf k r E).
Qed.

Lemma save_job_pair now job s : save_job now job s = (true, (save_job now job s).2).
Proof. reflexivity. Qed.

Lemma get_job_save_job now job s :
  get_job (id job) (save_job now job s).2 = Some (set_updated_at (iso_z now) job).
Proof.
  unfold get_job, save_job. cbn. rewrite lookup_insert_eq.
  destruct (jobs s !! id job); reflexivity.
Qed.

Lemma get_job_save_job_ne now job s k :
  k <> id job -> get_job k (save_job now job s).2 = get_job k s.
Proof.
  intros H. unfold get_job, save_job. cbn. rewrite lookup_insert_ne by congruence.
  reflexivity.
Qed.

Lemma store_wf_save_job now job s : store_wf s -> store_wf (save_job now job s).2.
Proof.
  unfold store_wf, save_job. cbn. intros Hwf.
  apply map_Forall_insert_2; [| exact Hwf].
  destruct (jobs s !! id job); reflexivity.
Qed.

Lemma get_job_release_job k k' s : get_job k (release_job k' s) = get_job k s.
Proof.
  unfold get_job, release_job. cbn. rewrite lookup_alter.
  destruct (decide (k' = k)) as [-> |]; [| reflexivity].
  destruct (jobs s !! k); reflexivity.
Qed.



(** ** Properties of the commands *)

Lemma encodable_app a b : encodable (a ++ b) = encodable a && encodable b.
Proof. apply forallb_app. Qed.

Lemma echo_cases text :
  echo text = if encodable text then Ok tt else Raise UnicodeEncodeError.
Proof. reflexivity. Qed.

(** The confirmation of [enqueue] is printed exactly when the id and the
    command can be encoded and [max_retries] can be converted to text. *)
Lemma enqueue_confirmation_cases job :
  match enqueue_confirmation job with
  | Ok _ => confirmation_prints job = true
  | Raise _ => confirmation_prints job = false
  | Untyped => False
  end.
Proof.
  unfold enqueue_confirmation, confirmation_prints, format_int, echo.
  change (encodable (10003 :: py " Job '" ++ id job ++ py "' enqueued successfully"))
    with (encodable ((10003 :: py " Job '") ++ id job ++ py "' enqueued successfully")).
  rewrite !encodable_app.
  change (encodable (10003 :: py " Job '")) with true.
  change (encodable (py "' enqueued successfully")) with true.
  change (encodable (py "  Command: ")) with true.
  rewrite andb_true_r. cbn [andb].
  destruct (encodable (id job)); cbn [mbind result_bind andb]; [| reflexivity].
  destruct (encodable (command job)); cbn [mbind result_bind andb]; [| reflexivity].
  destruct (within_digit_limit (max_retries job)) eqn:Hmr;
    cbn [mbind result_bind andb]; [| reflexivity].
  rewrite encodable_app. change (encodable (py "  Max retries: ")) with true. cbn [andb].
  assert (encodable (str_of_int (max_retries job)) = true) as ->; [| reflexivity].
  apply str_of_int_encodable.
Qed.

(** What [enqueue] returns, by what happens before the job is saved. *)
Lemma enqueue_cases fs now now_save job_json s :
  match enqueue_job fs now job_json s with
  | Untyped => enqueue fs now now_save job_json s = None
  | Raise _ => enqueue fs now now_save job_json s = Some (1, s)
  | Ok job =>
      match get_job (id job) s with
      | Some _ => enqueue fs now now_save job_json s = Some (1, s)
      | None =>
          enqueue fs now now_save job_json s
          = Some (if confirmation_prints job then 0 else 1, (save_job now_save job s).2)
      end
  end.
Proof.
  unfold enqueue. destruct (enqueue_job fs now job_json s) as [job | e |]; try reflexivity.
  destruct (get_job (id job) s); [reflexivity |].
  rewrite save_job_pair.
  pose proof (enqueue_confirmation_cases job) as H.
  destruct (enqueue_confirmation job); [now rewrite H | now rewrite H | contradiction].
Qed.


Lemma dlq_store_wf : store_wf dlq_store.
Proof. apply store_wf_save_job, store_wf_empty. Qed.


Example dlq_retry_sample :
  get_job (py "j2") (dlq_retry (seconds 9) (py "j2") true dlq_store).2
  = Some (mkJob (py "j2") (py "sh -c 'exit 1'") JobState.PENDING 0 2
            (py "2024-01-01T00:00:00Z") (py "2024-01-01T00:00:09Z") None None).
Proof. vm_compute. reflexivity. Qed.

(** C6: when the store already holds a job with the id of the job being
    enqueued, [enqueue] exits with status 1 and the store is the one it
    started from. *)
Theorem enqueue_duplicate_rejected fs now now_save job_json s job :
  enqueue_job fs now job_json s = Ok job ->
  is_Some (get_job (id job) s) ->
  enqueue fs now now_save job_json s = Some (1, s).
Proof.
  intros Hjob [existing Hex]. unfold enqueue. rewrite Hjob, Hex. reflexivity.
Qed.

Lemma enqueue_duplicate_rejected_witness :
  let job_json := json_text "{'id': 'j2', 'command': 'echo again', 'max_retries': 7}" in
  let job := mkJob (py "j2") (py "echo again") JobState.PENDING 0 7
               (py "2024-01-01T00:00:10Z") (py "2024-01-01T00:00:10Z") None None in
  enqueue_job no_files (seconds 10) job_json dlq_store = Ok job
  /\ is_Some (get_job (id job) dlq_store)
  /\ enqueue no_files (seconds 10) (seconds 11) job_json dlq_store = Some (1, dlq_store).
Proof.
  intros job_json job.
  assert (enqueue_job no_files (seconds 10) job_json dlq_store = Ok job) as H1
    by (vm_compute; reflexivity).
  assert (is_Some (get_job (id job) dlq_store)) as H2
    by (vm_compute; eexists; reflexivity).
  split; [exact H1 |]. split; [exact H2 |].
  exact (enqueue_duplicate_rejected no_files (seconds 10) (seconds 11) job_json dlq_store job H1 H2).
Defined.

(** An input that cannot be parsed or built into a job never reaches the
    store either. *)
Lemma enqueue_error_no_write fs now now_save job_json s e :
  enqueue_job fs now job_json s = Raise e ->
  enqueue fs now now_save job_json s = Some (1, s).
Proof. intros H. unfold enqueue. now rewrite H. Qed.

(** The counterexample to C7: the input names a state, and the job is stored
    in that state. *)
Lemma enqueue_stores_given_state :
  let job_json := json_text "{'id': 'a', 'command': 'b', 'state': 'dead'}" in
  get_job (py "a") empty_storage = None
  /\ (r ← enqueue no_files (seconds 0) (seconds 0) job_json empty_storage;
      Some (r.1, state <$> get_job (py "a") r.2))
     = Some (0, Some JobState.DEAD)
  /\ JobState.DEAD <> JobState.PENDING.
Proof. vm_compute. repeat split; try reflexivity. discriminate. Qed.

Lemma dict_get_set_ne k k' v d : k <> k' -> dict_get k (dict_set k' v d) = dict_get k d.
Proof.
  intros Hne. induction d as [| [k0 v0] d IH]; cbn.
  - rewrite bool_decide_eq_false_2 by congruence. reflexivity.
  - destruct (decide (k0 = k')) as [-> | Hk].
    + rewrite bool_decide_eq_true_2 by reflexivity. cbn.
      rewrite !bool_decide_eq_false_2 by congruence. reflexivity.
    + rewrite (bool_decide_eq_false_2 (k0 = k')) by exact Hk. cbn.
      destruct (bool_decide (k0 = k)); [reflexivity | exact IH].
Qed.

Lemma from_dict_state now data job :
  from_dict now data = Ok job -> state job = given_state data.
Proof.
  unfold from_dict, given_state, kw_str.
  destruct (negb _); [discriminate |].
  destruct (dict_get (py "id") data) as [vid |]; [| discriminate].
  destruct (dict_get (py "command") data) as [vcmd |]; [| discriminate].
  destruct vid; try discriminate. destruct vcmd; try discriminate.
  destruct (dict_get (py "state") data) as [[| n | st] |];
    try discriminate;
    destruct (kw_int "attempts" data), (kw_int "max_retries" data),
      (kw_opt_str "created_at" data), (kw_opt_str "updated_at" data),
      (kw_opt_str "next_retry_at" data), (kw_opt_str "error_message" data);
    try discriminate; intros [= <-]; reflexivity.
Qed.

(** C7 as the code has it: for a well-formed input whose id is not in the
    store, [enqueue] puts the job into the store, in the state the input
    names and in state pending when the input names none.  It exits with
    status 0 when it can print its confirmation and with status 1 otherwise;
    the job is stored in both cases. *)
Theorem enqueue_initial_state fs now now_save job_json s job_data job :
  enqueue_input fs job_json = Ok (DObject job_data) ->
  enqueue_job fs now job_json s = Ok job ->
  get_job (id job) s = None ->
  exists code s' job',
    enqueue fs now now_save job_json s = Some (code, s')
    /\ (code = 0 \/ code = 1)
    /\ (code = 0 <-> confirmation_prints job = true)
    /\ get_job (id job) s' = Some job'
    /\ state job' = given_state job_data
    /\ (dict_get (py "state") job_data = None -> state job' = JobState.PENDING).
Proof.
  intros Hin Hjob Hnew.
  exists (if confirmation_prints job then 0 else 1), (save_job now_save job s).2,
    (set_updated_at (iso_z now_save) job).
  assert (state job = given_state job_data) as Hst.
  { unfold enqueue_job in Hjob. rewrite Hin in Hjob. cbn [mbind result_bind] in Hjob.
    apply from_dict_state in Hjob. rewrite Hjob. unfold given_state.
    destruct (dict_get (py "max_retries") job_data); [reflexivity |].
    rewrite dict_get_set_ne by (vm_compute; discriminate). reflexivity. }
  pose proof (enqueue_cases fs now now_save job_json s) as Hc.
  rewrite Hjob, Hnew in Hc.
  split; [exact Hc |].
  split; [destruct (confirmation_prints job); [now left | now right] |].
  split; [destruct (confirmation_prints job); split; congruence |].
  split; [apply get_job_save_job |].
  split; [exact Hst |].
  intros Hnone. cbn [state set_updated_at]. rewrite Hst. unfold given_state.
  now rewrite Hnone.
Qed.

Lemma enqueue_initial_state_witness :
  let job_json := json_text "{'id': 'j1', 'command': 'echo hi'}" in
  let job_data := [(py "id", JStr (py "j1")); (py "command", JStr (py "echo hi"))] in
  let job := mkJob (py "j1") (py "echo hi") JobState.PENDING 0 3
               (py "2024-01-01T00:00:00Z") (py "2024-01-01T00:00:00Z") None None in
  enqueue_input no_files job_json = Ok (DObject job_data)
  /\ enqueue_job no_files (seconds 0) job_json empty_storage = Ok job
  /\ get_job (id job) empty_storage = None
  /\ exists code s' job',
       enqueue no_files (seconds 0) (seconds 0) job_json empty_storage = Some (code, s')
       /\ (code = 0 \/ code = 1)
       /\ (code = 0 <-> confirmation_prints job = true)
       /\ get_job (id job) s' = Some job'
       /\ state job' = given_state job_data
       /\ (dict_get (py "state") job_data = None -> state job' = JobState.PENDING).
Proof.
  intros job_json job_data job.
  assert (enqueue_input no_files job_json = Ok (DObject job_data)) as H1
    by (vm_compute; reflexivity).
  assert (enqueue_job no_files (seconds 0) job_json empty_storage = Ok job) as H2
    by (vm_compute; reflexivity).
  assert (get_job (id job) empty_storage = None) as H3 by (vm_compute; reflexivity).
  split; [exact H1 |]. split; [exact H2 |]. split; [exact H3 |].
  exact (enqueue_initial_state no_files (seconds 0) (seconds 0) job_json empty_storage
           job_data job H1 H2 H3).
Defined.

(** An id that is a lone surrogate, written in the input as the escape
    [\ud83d]: the job is stored, in state pending, and the command exits with
    status 1 because its confirmation cannot be printed. *)
Example enqueue_unprintable_id :
  let job_json := json_text "{'id': '\ud83d', 'command': 'true'}" in
  (r ← enqueue no_files (seconds 0) (seconds 0) job_json empty_storage;
   Some (r.1, state <$> get_job [55357] r.2))
  = Some (1, Some JobState.PENDING).
Proof. vm_compute. reflexivity. Qed.

(** ** Properties of the lease *)

Lemma first_row_In rows r : first_row rows = Some r -> In r rows.
Proof.
  revert r. induction rows as [| r0 rows IH]; intros r H; [discriminate |].
  cbn in H. destruct (first_row rows) as [r' |].
  - injection H as <-. destruct (before r0 r'); [now left | right; now apply IH].
  - injection H as <-. now left.
Qed.

Lemma select_next_spec now s r :
  select_next now s = Some r ->
  eligible now r = true /\ exists k, jobs s !! k = Some r.
Proof.
  unfold select_next. intros H. apply first_row_In, list_elem_of_In in H.
  apply list_elem_of_filter in H as [He Hin]. split; [exact He |].
  apply list_elem_of_In, in_map_iff in Hin as ([k r'] & Heq & Hin). cbn in Heq. subst r'.
  exists k. apply elem_of_map_to_list, list_elem_of_In. exact Hin.
Qed.


Section Lease.

Variable grace : Z.

(** What a successful [acquire_next] does to the store. *)
Lemma acquire_next_Some worker_id now s job s' :
  acquire_next grace worker_id now s = (Some job, s') ->
  exists r,
    select_next now s = Some r
    /\ job = set_updated_at (iso_z now) (set_state JobState.PROCESSING (row_job r))
    /\ s' = mkStorage
              (<[id job := mkRow job (Some worker_id)
                             (Some (now + (Config.job_timeout (config s) + grace) * US_PER_SECOND))]>
                 (jobs s))
              (config s).
Proof.
  unfold acquire_next. destruct (select_next now s) as [r |]; [| discriminate].
  intros [= <- <-]. eauto.
Qed.


End Lease.

(** ** The attempt budget *)

(** The counterexample to C4: after a [dlq retry] without [--reset-attempts]
    and one more failure, the job with [max_retries] 0 has [attempts] 2. *)
Lemma attempts_exceed_budget :
  (st ← run_events 5 no_files retry_without_reset initial;
   job ← get_job (py "j3") (storage st);
   Some (state job, attempts job, max_retries job))
  = Some (JobState.DEAD, 2, 0)
  /\ ~ (2 <= 0 + 1).
Proof. vm_compute. split; [reflexivity | intros H; apply H; reflexivity]. Qed.

Ltac state_neq := let H := fresh in intros H; vm_compute in H; discriminate H.

Lemma handle_failure_inv config now j msg :
  0 <= max_retries j -> attempts j <= max_retries j + 1 ->
  match _handle_job_failure config now j msg with
  | Returned j' | Raised _ j' => job_inv j'
  | Float => True
  end.
Proof.
  intros Hm Ha. unfold _handle_job_failure.
  cbn [attempts max_retries set_error_message set_state].
  destruct (attempts j >=? max_retries j) eqn:E.
  - repeat split; cbn; try lia. intros _ H. now contradiction H.
  - assert (attempts j < max_retries j) as Hlt by lia.
    destruct (attempts j <? 0); [exact I |].
    destruct (timedelta_seconds _) as [e | delta].
    + repeat split; cbn; lia.
    + destruct (datetime_add now delta) as [e | t]; repeat split; cbn; lia.
Qed.

Lemma attempt_inv config now now' run j :
  held_inv j ->
  match attempt config now now' run j with
  | Returned j' | Raised _ j' => job_inv j'
  | Float => True
  end.
Proof.
  intros [Hm Ha]. unfold attempt.
  set (j1 := set_attempts (attempts j + 1) j).
  assert (0 <= max_retries j1) as Hm1 by exact Hm.
  assert (attempts j1 <= max_retries j1 + 1) as Ha1 by (cbn; lia).
  destruct run as [rc out err | | msg].
  - destruct (rc =? 0).
    + repeat split; cbn; try lia. intros H. now contradiction H.
    + pose proof (handle_failure_inv config now j1
                    (failure_message config (Completed rc out err)) Hm1 Ha1) as H.
      destruct (_handle_job_failure config now j1 _) as [j' | e j' |]; try exact H.
      destruct H as (Hm' & Ha' & _).
      exact (handle_failure_inv config now' j' (exn_str e) Hm' Ha').
  - exact (handle_failure_inv config now j1 _ Hm1 Ha1).
  - exact (handle_failure_inv config now j1 _ Hm1 Ha1).
Qed.

Lemma save_job_inv now job s :
  job_inv job ->
  map_Forall (fun _ r => job_inv (row_job r)) (jobs s) ->
  map_Forall (fun _ r => job_inv (row_job r)) (jobs (save_job now job s).2).
Proof.
  intros Hj Hs. unfold save_job. cbn.
  apply map_Forall_insert_2; [| exact Hs].
  destruct (jobs s !! id job); exact Hj.
Qed.

Lemma release_job_inv k s :
  map_Forall (fun _ r => job_inv (row_job r)) (jobs s) ->
  map_Forall (fun _ r => job_inv (row_job r)) (jobs (release_job k s)).
Proof.
  intros Hs k' r. unfold release_job. cbn. rewrite lookup_alter.
  destruct (decide (k = k')) as [-> |]; [| apply Hs].
  destruct (jobs s !! k') as [r' |] eqn:E; cbn; [| discriminate].
  intros [= <-]. exact (Hs k' r' E).
Qed.

Lemma dlq_retry_inv now_save job_id s :
  map_Forall (fun _ r => job_inv (row_job r)) (jobs s) ->
  map_Forall (fun _ r => job_inv (row_job r)) (jobs (dlq_retry now_save job_id true s).2).
Proof.
  intros Hs. unfold dlq_retry.
  destruct (get_job job_id s) as [job |] eqn:Hget; [| exact Hs].
  destruct (negb _); [exact Hs |].
  rewrite save_job_pair. cbn [snd]. apply save_job_inv; [| exact Hs].
  unfold get_job in Hget. destruct (jobs s !! job_id) as [r |] eqn:E; [| discriminate].
  injection Hget as <-. destruct (Hs job_id r E) as (Hm & _).
  repeat split; cbn; lia.
Qed.

Lemma dict_get_set_eq k v d : dict_get k (dict_set k v d) = Some v.
Proof.
  induction d as [| [k0 v0] d IH]; cbn.
  - now rewrite bool_decide_eq_true_2.
  - destruct (decide (k0 = k)) as [-> | Hk].
    + rewrite bool_decide_eq_true_2 by reflexivity. cbn.
      now rewrite bool_decide_eq_true_2.
    + rewrite (bool_decide_eq_false_2 (k0 = k)) by exact Hk. cbn.
      rewrite (bool_decide_eq_false_2 (k0 = k)) by exact Hk. exact IH.
Qed.

(** A job built by [from_dict] is the constructor applied to the typed
    keyword arguments. *)
Lemma from_dict_Ok now data job :
  from_dict now data = Ok job ->
  exists i c st att mr ca ua nr em,
    kw_str "state" data = Some st /\ kw_int "attempts" data = Some att
    /\ kw_int "max_retries" data = Some mr
    /\ job = Job_init now i c st att mr ca ua nr em.
Proof.
  unfold from_dict.
  destruct (negb _); [discriminate |].
  destruct (dict_get (py "id") data) as [vid |]; [| discriminate].
  destruct (dict_get (py "command") data) as [vcmd |]; [| discriminate].
  destruct vid as [| | i]; try discriminate. destruct vcmd as [| | c]; try discriminate.
  destruct (kw_str "state" data) as [st |]; [| discriminate].
  destruct (kw_int "attempts" data) as [att |]; [| discriminate].
  destruct (kw_int "max_retries" data) as [mr |]; [| discriminate].
  destruct (kw_opt_str "created_at" data) as [ca |]; [| discriminate].
  destruct (kw_opt_str "updated_at" data) as [ua |]; [| discriminate].
  destruct (kw_opt_str "next_retry_at" data) as [nr |]; [| discriminate].
  destruct (kw_opt_str "error_message" data) as [em |]; [| discriminate].
  intros [= <-]. exists i, c, st, att, mr, ca, ua, nr, em. auto.
Qed.

Lemma enqueue_job_plain fs now job_json s d job :
  enqueue_input fs job_json = Ok (DObject d) ->
  plain_job_data d = true ->
  0 <= Config.max_retries (config s) ->
  enqueue_job fs now job_json s = Ok job ->
  state job = JobState.PENDING /\ attempts job = 0 /\ 0 <= max_retries job.
Proof.
  intros Hin Hplain Hcfg Hjob. unfold enqueue_job in Hjob. rewrite Hin in Hjob.
  cbn [mbind result_bind] in Hjob.
  apply from_dict_Ok in Hjob as (i & c & st & att & mr & ca & ua & nr & em
                                 & Hst & Hatt & Hmr & ->).
  unfold plain_job_data in Hplain.
  destruct (dict_get (py "state") d) eqn:Es; [discriminate |].
  destruct (dict_get (py "attempts") d) eqn:Ea; [discriminate |].
  unfold kw_str, kw_int in Hst, Hatt, Hmr.
  destruct (dict_get (py "max_retries") d) as [v |] eqn:Em.
  - rewrite Es in Hst. rewrite Ea in Hatt. rewrite Em in Hmr.
    injection Hst as <-. injection Hatt as <-.
    destruct v as [| n |]; try discriminate. injection Hmr as <-.
    repeat split. cbn. lia.
  - rewrite dict_get_set_ne in Hst by (vm_compute; discriminate).
    rewrite dict_get_set_ne in Hatt by (vm_compute; discriminate).
    rewrite dict_get_set_eq in Hmr.
    rewrite Es in Hst. rewrite Ea in Hatt.
    injection Hst as <-. injection Hatt as <-. injection Hmr as <-.
    repeat split. exact Hcfg.
Qed.

Section Budget.

Variable grace : Z.
Variable fs : str -> option str.

Lemma step_inv e st st' :
  within_budget_event fs e = true ->
  system_inv st -> step grace fs e st = Some st' -> system_inv st'.
Proof.
  intros Hev (Hcfg & Hjobs & Hheld) Hstep.
  assert (system_inv st) as Hst by (split; [| split]; assumption).
  destruct e as [now now_save job_json | worker_id now | worker_id now now' now_save run
                | worker_id | worker_id | now_save job_id reset | job_id | c];
    cbn in Hev, Hstep.
  - (* enqueue *)
    pose proof (enqueue_cases fs now now_save job_json (storage st)) as Hc.
    destruct (enqueue_job fs now job_json (storage st)) as [job | e |] eqn:Hjob;
      [| rewrite Hc in Hstep; injection Hstep as <-; exact Hst
       | rewrite Hc in Hstep; discriminate].
    destruct (get_job (id job) (storage st));
      rewrite Hc in Hstep; injection Hstep as <-; [exact Hst |].
    assert (job_inv job) as Hinv.
    { pose proof Hjob as Hjob'. unfold enqueue_job in Hjob'.
      destruct (enqueue_input fs job_json) as [[v | d] | e |] eqn:Hin; try discriminate.
      destruct (enqueue_job_plain _ _ _ _ _ _ Hin Hev Hcfg Hjob) as (Hs & Ha & Hm).
      repeat split; lia. }
    split; [| split]; cbn; [exact Hcfg | | exact Hheld].
    apply (save_job_inv now_save job (storage st) Hinv Hjobs).
  - (* acquire *)
    destruct (inflight st !! worker_id); [injection Hstep as <-; exact Hst |].
    destruct (acquire_next grace worker_id now (storage st)) as [[job |] s'] eqn:Hacq.
    + injection Hstep as <-.
      apply acquire_next_Some in Hacq as (r & Hsel & Hj & Hs').
      apply select_next_spec in Hsel as (Hel & k & Hk).
      destruct (Hjobs k r Hk) as (Hm & Ha & Hb). cbn in Hm, Ha, Hb.
      assert (attempts (row_job r) <= max_retries (row_job r)) as Hle.
      { unfold eligible in Hel. apply andb_true_iff in Hel as [Hel _].
        apply orb_true_iff in Hel as [Hel | Hel]; [apply orb_true_iff in Hel as [Hel | Hel] |].
        - apply bool_decide_eq_true_1 in Hel. apply Hb; rewrite Hel; state_neq.
        - apply andb_true_iff in Hel as [Hel _].
          apply bool_decide_eq_true_1 in Hel. apply Hb; rewrite Hel; state_neq.
        - apply bool_decide_eq_true_1 in Hel. apply Hb; rewrite Hel; state_neq. }
      assert (job_inv job) as Hinv.
      { rewrite Hj. repeat split; cbn; lia. }
      split; [| split]; cbn.
      * rewrite Hs'. exact Hcfg.
      * rewrite Hs'. cbn. apply map_Forall_insert_2; [exact Hinv | exact Hjobs].
      * apply map_Forall_insert_2; [| exact Hheld]. rewrite Hj. split; cbn; lia.
    + unfold acquire_next in Hacq. destruct (select_next now (storage st)); [discriminate |].
      injection Hacq as <-. injection Hstep as <-. exact Hst.
  - (* finish: the attempt and [save_job], or the release by [Worker.start] *)
    destruct (inflight st !! worker_id) as [[config job | job_id raised | job_id] |] eqn:Hw;
      try (injection Hstep as <-; exact Hst).
    destruct (echo (announcement worker_id job));
      [| injection Hstep as <-; split; [| split]; cbn [storage inflight];
         [exact Hcfg | apply release_job_inv; exact Hjobs | apply map_Forall_delete; exact Hheld] ..].
    pose proof (attempt_inv config now now' run job (Hheld worker_id _ Hw)) as Hinv.
    destruct (attempt config now now' run job) as [j' | e j' |]; [| | discriminate];
      injection Hstep as <-;
      (split; [| split]; cbn [storage inflight];
       [exact Hcfg
       | apply save_job_inv; assumption
       | apply map_Forall_insert_2; [exact I | exact Hheld]]).
  - (* release *)
    destruct (inflight st !! worker_id) as [[config job | job_id raised | job_id] |] eqn:Hw;
      try (injection Hstep as <-; exact Hst);
      injection Hstep as <-; (split; [| split]; cbn [storage inflight];
        [exact Hcfg | apply release_job_inv; exact Hjobs |]).
    + destruct raised; [apply map_Forall_insert_2; [exact I | exact Hheld]
                       | apply map_Forall_delete; exact Hheld].
    + apply map_Forall_delete; exact Hheld.
  - (* kill *)
    injection Hstep as <-. split; [| split]; cbn; try assumption.
    apply map_Forall_delete; exact Hheld.
  - (* dlq retry *)
    injection Hstep as <-. subst reset. split; [| split]; cbn; try assumption.
    + unfold dlq_retry. destruct (get_job job_id (storage st)); [| exact Hcfg].
      destruct (negb _); [exact Hcfg |]. rewrite save_job_pair. exact Hcfg.
    + apply dlq_retry_inv. exact Hjobs.
  - (* delete *)
    injection Hstep as <-. split; [| split]; cbn; try assumption.
    apply map_Forall_delete; exact Hjobs.
  - (* config set *)
    injection Hstep as <-. split; [| split]; cbn; try assumption. lia.
Qed.

Lemma run_events_inv es st st' :
  forallb (within_budget_event fs) es = true ->
  system_inv st -> run_events grace fs es st = Some st' -> system_inv st'.
Proof.
  revert st. induction es as [| e es IH]; intros st Hes Hinv Hrun; cbn in Hes, Hrun.
  - injection Hrun as <-. exact Hinv.
  - apply andb_true_iff in Hes as [He Hes].
    destruct (step grace fs e st) as [st1 |] eqn:Hstep; [| discriminate].
    cbn in Hrun. exact (IH st1 Hes (step_inv e st st1 He Hinv Hstep) Hrun).
Qed.

(** C4 as the code has it: in every store reached from the empty one by
    enqueues that leave [state] and [attempts] to their defaults and give no
    negative [max_retries], acquisitions, finished attempts, killed workers,
    [dlq retry] with [--reset-attempts], deletions and configuration changes
    that keep the default [max_retries] non-negative, every record has
    [attempts <= max_retries + 1].  The events interleave in any order, and a
    worker may be killed between any two of its calls of the store. *)
Theorem attempts_within_budget es st :
  forallb (within_budget_event fs) es = true ->
  run_events grace fs es initial = Some st ->
  forall job_id row,
    jobs (storage st) !! job_id = Some row ->
    attempts (row_job row) <= max_retries (row_job row) + 1.
Proof.
  intros Hes Hrun job_id row Hrow.
  assert (system_inv initial) as Hinit.
  { split; [| split]; cbn; [lia | apply map_Forall_empty | apply map_Forall_empty]. }
  destruct (run_events_inv es initial st Hes Hinit Hrun) as (_ & Hjobs & _).
  destruct (Hjobs job_id row Hrow) as (_ & H & _). exact H.
Qed.

End Budget.

Example retry_with_reset_sample :
  (st ← run_events 5 no_files retry_with_reset initial;
   job ← get_job (py "j3") (storage st);
   Some (state job, attempts job, max_retries job))
  = Some (JobState.DEAD, 1, 0).
Proof. vm_compute. reflexivity. Qed.

Lemma attempts_within_budget_witness :
  let st := default initial (run_events 5 no_files retry_with_reset initial) in
  forallb (within_budget_event no_files) retry_with_reset = true
  /\ run_events 5 no_files retry_with_reset initial = Some st
  /\ forall job_id row,
       jobs (storage st) !! job_id = Some row ->
       attempts (row_job row) <= max_retries (row_job row) + 1.
Proof.
  intros st.
  assert (forallb (within_budget_event no_files) retry_with_reset = true) as H1
    by (vm_compute; reflexivity).
  assert (run_events 5 no_files retry_with_reset initial = Some st) as H2
    by (vm_compute; reflexivity).
  split; [exact H1 |]. split; [exact H2 |].
  exact (attempts_within_budget 5 no_files retry_with_reset st H1 H2).
Defined.

(** ** Round trips of the serializations *)

(** [from_dict] undoes [to_dict]: the dictionary has exactly the nine fields,
    each at its type, and the two timestamps are present, so
    [__post_init__] changes nothing. *)
Lemma from_dict_to_dict now j : from_dict now (to_dict j) = Ok j.
Proof.
  destruct j as [i c st att mr ca ua [nr |] [em |]]; vm_compute; reflexivity.
Qed.

(** Decimal printing and scanning. *)

Lemma scan_digits_app pre rest a :
  Forall (fun c => is_digit c = true) pre ->
  match rest with c :: _ => is_digit c = false | [] => True end ->
  scan_digits (pre ++ rest) a = (fold_left digit_step pre a, rest).
Proof.
  intros Hpre Hrest. revert a. induction Hpre as [| c pre Hc _ IH]; intros a.
  - cbn [app fold_left]. destruct rest as [| c rest]; [reflexivity |].
    cbn [scan_digits]. now rewrite Hrest.
  - cbn [app scan_digits fold_left]. rewrite Hc. apply IH.
Qed.

Lemma scan_int_digits n rest :
  0 <= n -> within_digit_limit n = true -> ends_number rest ->
  scan_int (digits n ++ rest) = Ok (n, rest).
Proof.
  intros Hn Hlim Hrest. destruct (digits_spec n Hn) as (Hd & Hv & Hz & Hp).
  assert (match rest with c :: _ => is_digit c = false | [] => True end) as Hnd.
  { destruct rest; [exact I | apply Hrest]. }
  assert (match rest with
          | c :: _ =>
              if (c =? 46) || (c =? 101) || (c =? 69) then Untyped
              else n' ← int_of_literal n; Ok (n', rest)
          | [] => n' ← int_of_literal n; Ok (n', rest)
          end = Ok (n, rest)) as Htail.
  { unfold int_of_literal. rewrite Hlim. cbn [mbind result_bind].
    destruct rest as [| c rest]; [reflexivity |]. destruct Hrest as (_ & H1 & H2 & H3).
    apply Z.eqb_neq in H1, H2, H3. now rewrite H1, H2, H3. }
  unfold scan_int. destruct (Z.eq_dec n 0) as [-> | Hne].
  - rewrite (Hz eq_refl). cbn [app]. change (48 =? 48) with true.
    cbn [mbind result_bind]. exact Htail.
  - destruct Hp as (c & pre' & Heq & Hc); [lia |].
    rewrite Heq in Hd, Hv |- *. cbn [app].
    apply Z.eqb_neq in Hc. rewrite Hc.
    pose proof (Forall_inv Hd) as Hdc. cbn beta in Hdc. rewrite Hdc.
    change (c :: pre' ++ rest) with ((c :: pre') ++ rest).
    rewrite (scan_digits_app (c :: pre') rest 0 Hd Hnd), Hv.
    cbn [mbind result_bind]. exact Htail.
Qed.

Lemma within_digit_limit_opp n : within_digit_limit (- n) = within_digit_limit n.
Proof. unfold within_digit_limit. now rewrite Z.abs_opp. Qed.

Lemma scan_value_int n rest :
  within_digit_limit n = true -> ends_number rest ->
  scan_value (str_of_int n ++ rest) = Ok (JInt n, rest).
Proof.
  intros Hlim Hrest. unfold str_of_int. destruct (n <? 0) eqn:Hneg.
  - apply Z.ltb_lt in Hneg.
    destruct (digits_spec (- n)) as (Hd & _ & _ & Hp); [lia |].
    destruct Hp as (c & pre' & Heq & _); [lia |].
    cbn [app scan_value]. change (45 =? 34) with false. change (45 =? 110) with false.
    change (45 =? 45) with true. cbv iota.
    rewrite scan_int_digits
      by first [lia | exact Hrest | rewrite within_digit_limit_opp; exact Hlim].
    rewrite Heq in Hd |- *. cbn [app]. pose proof (Forall_inv Hd) as Hdc. cbn beta in Hdc.
    rewrite Hdc. cbn [mbind result_bind]. now rewrite Z.opp_involutive.
  - apply Z.ltb_ge in Hneg.
    destruct (digits_spec n Hneg) as (Hd & _ & Hz & Hp).
    assert (exists c pre', digits n = c :: pre' /\ is_digit c = true) as (c & pre' & Heq & Hc).
    { destruct (Z.eq_dec n 0) as [-> | Hne].
      - exists 48, []. split; [now apply Hz | reflexivity].
      - destruct Hp as (c & pre' & Heq & _); [lia |]. exists c, pre'. split; [exact Heq |].
        rewrite Heq in Hd. exact (Forall_inv Hd). }
    pose proof (scan_int_digits n rest Hneg Hlim Hrest) as Hscan.
    rewrite Heq in Hscan |- *. cbn [app] in Hscan |- *. cbn [scan_value].
    unfold is_digit in Hc. apply andb_true_iff in Hc as [Hc1 Hc2].
    apply Z.leb_le in Hc1, Hc2.
    rewrite (proj2 (Z.eqb_neq c 34)), (proj2 (Z.eqb_neq c 110)), (proj2 (Z.eqb_neq c 45)) by lia.
    unfold is_digit at 1.
    rewrite (proj2 (Z.leb_le 48 c)), (proj2 (Z.leb_le c 57)) by lia.
    cbn [andb]. rewrite Hscan. reflexivity.
Qed.

(** Hexadecimal escapes. *)

Lemma hex_val_digit d : 0 <= d < 16 -> hex_val (hex_digit d) = Some d.
Proof.
  intros Hd. unfold hex_digit, hex_val. destruct (d <? 10) eqn:E.
  - apply Z.ltb_lt in E.
    rewrite (proj2 (Z.leb_le 48 (48 + d))), (proj2 (Z.leb_le (48 + d) 57)) by lia.
    cbn [andb]. f_equal. lia.
  - apply Z.ltb_ge in E.
    destruct ((48 <=? 87 + d) && (87 + d <=? 57)) eqn:E1.
    { apply andb_true_iff in E1 as [_ E1]. apply Z.leb_le in E1. lia. }
    rewrite (proj2 (Z.leb_le 97 (87 + d))), (proj2 (Z.leb_le (87 + d) 102)) by lia.
    cbn [andb]. f_equal. lia.
Qed.

Lemma decode_hex4 n rest :
  0 <= n < 65536 -> decode_uXXXX (hex4 n ++ rest) = Some (n, rest).
Proof.
  intros Hn. unfold hex4. cbn [app decode_uXXXX].
  assert (forall k, 0 < k -> 0 <= n / k mod 16 < 16) as Hb
    by (intros k Hk; apply Z.mod_pos_bound; lia).
  rewrite !hex_val_digit by (first [apply Hb; lia | apply Z.mod_pos_bound; lia]).
  f_equal. f_equal. Z.div_mod_to_equations. lia.
Qed.

(** One step of the scanner on each kind of text the encoder writes. *)

Lemma scan_plain f c s acc :
  32 <= c -> c <> 34 -> c <> 92 ->
  scanstring_fuel (S f) (c :: s) acc = scanstring_fuel f s (c :: acc).
Proof.
  intros H1 H2 H3. cbn [scanstring_fuel].
  rewrite (proj2 (Z.eqb_neq c 34)), (proj2 (Z.eqb_neq c 92)) by exact H2 || exact H3.
  now rewrite (proj2 (Z.ltb_ge c 32)) by lia.
Qed.

Lemma scan_short f e c s acc :
  e <> 117 -> BACKSLASH e = Some c ->
  scanstring_fuel (S f) (92 :: e :: s) acc = scanstring_fuel f s (c :: acc).
Proof.
  intros H1 H2. cbn [scanstring_fuel]. change (92 =? 34) with false.
  change (92 =? 92) with true. cbv iota.
  rewrite (proj2 (Z.eqb_neq e 117)) by exact H1. now rewrite H2.
Qed.

Lemma scan_u f n s acc :
  0 <= n < 65536 ->
  is_high_surrogate n && starts_with_u s = false ->
  scanstring_fuel (S f) (u_escape n ++ s) acc = scanstring_fuel f s (n :: acc).
Proof.
  intros Hn Hs. unfold u_escape. cbn [app scanstring_fuel]. change (92 =? 34) with false.
  change (92 =? 92) with true. change (117 =? 117) with true. cbv iota.
  rewrite decode_hex4 by exact Hn. now rewrite Hs.
Qed.

Lemma scan_u_not_low f n n2 s acc :
  0 <= n < 65536 -> 0 <= n2 < 65536 -> is_low_surrogate n2 = false ->
  scanstring_fuel (S f) (u_escape n ++ u_escape n2 ++ s) acc
  = scanstring_fuel f (u_escape n2 ++ s) (n :: acc).
Proof.
  intros Hn Hn2 Hlow. unfold u_escape at 1. cbn [app scanstring_fuel].
  change (92 =? 34) with false. change (92 =? 92) with true.
  change (117 =? 117) with true. cbv iota. rewrite decode_hex4 by exact Hn.
  destruct (is_high_surrogate n && starts_with_u (u_escape n2 ++ s)); [| reflexivity].
  unfold u_escape. cbn [app skipn]. rewrite skipn_O, decode_hex4 by exact Hn2.
  now rewrite Hlow.
Qed.

Lemma scan_u_pair f hi lo s acc :
  is_high_surrogate hi = true -> is_low_surrogate lo = true ->
  scanstring_fuel (S f) (u_escape hi ++ u_escape lo ++ s) acc
  = scanstring_fuel f s (65536 + ((hi - 55296) * 1024 + (lo - 56320)) :: acc).
Proof.
  intros Hhi Hlo.
  assert (0 <= hi < 65536) as Hn.
  { unfold is_high_surrogate in Hhi. apply andb_true_iff in Hhi as [H1 H2].
    apply Z.leb_le in H1, H2. lia. }
  assert (0 <= lo < 65536) as Hn2.
  { unfold is_low_surrogate in Hlo. apply andb_true_iff in Hlo as [H1 H2].
    apply Z.leb_le in H1, H2. lia. }
  unfold u_escape at 1. cbn [app scanstring_fuel].
  change (92 =? 34) with false. change (92 =? 92) with true.
  change (117 =? 117) with true. cbv iota. rewrite decode_hex4 by exact Hn.
  rewrite Hhi. unfold u_escape. cbn [app starts_with_u].
  change (92 =? 92) with true. change (117 =? 117) with true. cbn [andb skipn].
  rewrite ?skipn_O, decode_hex4 by exact Hn2. now rewrite Hlo.
Qed.

Ltac eqb_case c k :=
  let E := fresh "E" in
  destruct (c =? k) eqn:E; [apply Z.eqb_eq in E; subst c | apply Z.eqb_neq in E].

Lemma astral_pair c :
  65536 <= c < 1114112 ->
  let hi := 55296 + (c - 65536) / 1024 in
  let lo := 56320 + (c - 65536) mod 1024 in
  is_high_surrogate hi = true /\ is_low_surrogate lo = true
  /\ 65536 + ((hi - 55296) * 1024 + (lo - 56320)) = c.
Proof.
  intros Hc hi lo. subst hi lo. unfold is_high_surrogate, is_low_surrogate.
  assert (0 <= (c - 65536) / 1024 < 1024) as Hq.
  { split; [apply Z.div_pos; lia | apply Z.div_lt_upper_bound; lia]. }
  assert (0 <= (c - 65536) mod 1024 < 1024) as Hr by (apply Z.mod_pos_bound; lia).
  pose proof (Z.div_mod (c - 65536) 1024).
  repeat split; try (apply andb_true_iff; split; apply Z.leb_le; lia). lia.
Qed.

Lemma encode_char_head d more :
  is_code_point d = true ->
  starts_with_u (encode_char d ++ more) = false
  \/ exists u more',
       encode_char d ++ more = u_escape u ++ more' /\ 0 <= u < 65536
       /\ (is_low_surrogate u = true -> is_low_surrogate d = true).
Proof.
  intros Hd. unfold is_code_point in Hd. apply andb_true_iff in Hd as [Hd0 Hd1].
  apply Z.leb_le in Hd0. apply Z.ltb_lt in Hd1. unfold encode_char.
  eqb_case d 34; [now left |]. eqb_case d 92; [now left |].
  eqb_case d 10; [now left |]. eqb_case d 13; [now left |].
  eqb_case d 9; [now left |]. eqb_case d 12; [now left |].
  eqb_case d 8; [now left |].
  destruct ((32 <=? d) && (d <=? 126)) eqn:Ep.
  - left. cbn [app starts_with_u]. destruct more; [reflexivity |].
    now rewrite (proj2 (Z.eqb_neq d 92)) by assumption.
  - destruct (d <? 65536) eqn:Eb.
    + apply Z.ltb_lt in Eb. right. exists d, more. repeat split; try lia. auto.
    + apply Z.ltb_ge in Eb. right.
      destruct (astral_pair d) as (Hhi & _ & _); [lia |].
      exists (55296 + (d - 65536) / 1024), (u_escape (56320 + (d - 65536) mod 1024) ++ more).
      unfold is_high_surrogate in Hhi. apply andb_true_iff in Hhi as [H1 H2].
      apply Z.leb_le in H1, H2.
      split; [now rewrite <- app_assoc |]. split; [lia |].
      unfold is_low_surrogate at 1. intros H. apply andb_true_iff in H as [H _].
      apply Z.leb_le in H. lia.
Qed.

Lemma encode_char_length c : (1 <= length (encode_char c))%nat.
Proof.
  unfold encode_char.
  repeat match goal with
         | |- context [if ?b then _ else _] => destruct b
         end; cbn; lia.
Qed.

Lemma scan_encode_char f c t acc :
  is_code_point c = true ->
  (is_high_surrogate c = true -> no_low_escape t) ->
  scanstring_fuel (S f) (encode_char c ++ t) acc = scanstring_fuel f t (c :: acc).
Proof.
  intros Hc Hlook. unfold is_code_point in Hc. apply andb_true_iff in Hc as [Hc0 Hc1].
  apply Z.leb_le in Hc0. apply Z.ltb_lt in Hc1. unfold encode_char.
  eqb_case c 34; [now apply scan_short |]. eqb_case c 92; [now apply scan_short |].
  eqb_case c 10; [now apply scan_short |]. eqb_case c 13; [now apply scan_short |].
  eqb_case c 9; [now apply scan_short |]. eqb_case c 12; [now apply scan_short |].
  eqb_case c 8; [now apply scan_short |].
  destruct ((32 <=? c) && (c <=? 126)) eqn:Ep.
  - apply andb_true_iff in Ep as [Ep _]. apply Z.leb_le in Ep.
    cbn [app]. now apply scan_plain.
  - destruct (c <? 65536) eqn:Eb.
    + apply Z.ltb_lt in Eb. destruct (is_high_surrogate c) eqn:Eh.
      * destruct (Hlook eq_refl) as [Hs | (u & t' & -> & Hu & Hlow)].
        -- apply scan_u; [lia |]. now rewrite Eh, Hs.
        -- apply scan_u_not_low; [lia | exact Hu | exact Hlow].
      * apply scan_u; [lia |]. now rewrite Eh.
    + apply Z.ltb_ge in Eb.
      destruct (astral_pair c) as (Hhi & Hlo & Heq); [lia |].
      rewrite <- app_assoc, scan_u_pair by assumption. now rewrite Heq.
Qed.

Lemma scanstring_fuel_encode s : forall acc fuel rest,
  json_safe s = true ->
  (length (encode_chars s) < fuel)%nat ->
  scanstring_fuel fuel (encode_chars s ++ 34 :: rest) acc = Ok (rev acc ++ s, rest).
Proof.
  induction s as [| c s IH]; intros acc fuel rest Hsafe Hfuel.
  - destruct fuel as [| f]; [cbn in Hfuel; lia |]. cbn. now rewrite app_nil_r.
  - unfold json_safe in Hsafe. cbn [forallb no_split_pair] in Hsafe.
    apply andb_true_iff in Hsafe as [Hcp Hns].
    apply andb_true_iff in Hcp as [Hc Hcp]. apply andb_true_iff in Hns as [Hpair Hns].
    assert (json_safe s = true) as Hsafe'.
    { unfold json_safe. now rewrite Hcp, Hns. }
    unfold encode_chars in Hfuel |- *. cbn [flat_map] in Hfuel |- *.
    fold (encode_chars s) in Hfuel |- *.
    rewrite length_app in Hfuel. pose proof (encode_char_length c) as Hlen.
    destruct fuel as [| f]; [lia |].
    rewrite <- app_assoc, scan_encode_char.
    + rewrite IH by (exact Hsafe' || lia). cbn [rev]. now rewrite <- app_assoc.
    + exact Hc.
    + intros Hhigh. destruct s as [| d s'].
      * left. destruct rest; reflexivity.
      * rewrite Hhigh in Hpair. cbn [andb] in Hpair. apply negb_true_iff in Hpair.
        cbn [forallb] in Hcp. apply andb_true_iff in Hcp as [Hd _].
        unfold encode_chars. cbn [flat_map]. rewrite <- app_assoc.
        destruct (encode_char_head d (flat_map encode_char s' ++ 34 :: rest) Hd)
          as [Hs | (u & more' & Heq & Hu & Himp)].
        -- now left.
        -- right. exists u, more'. split; [exact Heq |]. split; [exact Hu |].
           destruct (is_low_surrogate u); [| reflexivity].
           rewrite Himp in Hpair by reflexivity. discriminate.
Qed.

Lemma scanstring_encode s rest :
  json_safe s = true -> scanstring (encode_chars s ++ 34 :: rest) = Ok (s, rest).
Proof.
  intros Hsafe. unfold scanstring.
  rewrite scanstring_fuel_encode by (exact Hsafe || (rewrite length_app; cbn; lia)).
  reflexivity.
Qed.

(** Values and objects. *)

Lemma scan_value_dumps v rest :
  value_safe v -> ends_number rest ->
  scan_value (value_text v ++ rest) = Ok (v, rest).
Proof.
  intros Hv Hrest. destruct v as [| n | s].
  - reflexivity.
  - now apply scan_value_int.
  - cbn [value_text]. unfold encode_string. cbn [app scan_value].
    change (34 =? 34) with true. cbv iota.
    rewrite <- app_assoc. cbn [app]. rewrite scanstring_encode by exact Hv.
    reflexivity.
Qed.

Lemma dumps_value_head v rest : skip_ws (value_text v ++ rest) = value_text v ++ rest.
Proof.
  destruct v as [| n | s]; try reflexivity.
  cbn [value_text]. unfold str_of_int. destruct (n <? 0) eqn:E; [reflexivity |].
  apply Z.ltb_ge in E. destruct (digits_spec n E) as (Hd & _ & Hz & Hp).
  destruct (Z.eq_dec n 0) as [-> | Hne]; [reflexivity |].
  destruct Hp as (c & pre' & Heq & _); [lia |]. rewrite Heq in Hd |- *.
  pose proof (Forall_inv Hd) as Hc. cbn beta in Hc. unfold is_digit in Hc.
  apply andb_true_iff in Hc as [H1 H2]. apply Z.leb_le in H1, H2.
  cbn [app skip_ws]. unfold is_ws.
  now rewrite (proj2 (Z.eqb_neq c 32)), (proj2 (Z.eqb_neq c 9)),
    (proj2 (Z.eqb_neq c 10)), (proj2 (Z.eqb_neq c 13)) by lia.
Qed.

Lemma dumps_members_body d : d <> [] -> members_text d = 34 :: members_body d.
Proof.
  induction d as [| kv d IH]; intros Hne; [congruence |].
  destruct d as [| kv' d'].
  - cbn [members_text members_body]. unfold member_text, encode_string.
    cbn [app]. rewrite <- !app_assoc. cbn [app]. now rewrite app_nil_r.
  - cbn [members_body]. change (members_text (kv :: kv' :: d'))
      with (member_text kv ++ [44; 10; 32; 32] ++ members_text (kv' :: d')).
    rewrite IH by discriminate. unfold member_text, encode_string.
    cbn [app]. rewrite <- !app_assoc. reflexivity.
Qed.

Lemma members_body_length d : (length d <= length (members_body d))%nat.
Proof.
  induction d as [| kv d IH]; [reflexivity |].
  cbn [members_body length]. rewrite length_app. cbn [length]. rewrite length_app.
  destruct d as [| kv' d']; cbn [length] in IH |- *; lia.
Qed.

Lemma skip_ws_space c s : is_ws c = true -> skip_ws (c :: s) = skip_ws s.
Proof. intros H. cbn [skip_ws]. now rewrite H. Qed.

Lemma skip_ws_stop c s : is_ws c = false -> skip_ws (c :: s) = c :: s.
Proof. intros H. cbn [skip_ws]. now rewrite H. Qed.

Ltac skip_spaces :=
  repeat first [rewrite skip_ws_space by reflexivity | rewrite skip_ws_stop by reflexivity].

Lemma scan_members_body d : forall acc fuel rest,
  d <> [] -> Forall member_safe d -> (length d <= fuel)%nat ->
  scan_members fuel (members_body d ++ 10 :: 125 :: rest) acc
  = Ok (fold_left (fun a kv => dict_set kv.1 kv.2 a) d acc, rest).
Proof.
  induction d as [| [k v] d IH]; intros acc fuel rest Hne Hsafe Hfuel; [congruence |].
  destruct fuel as [| f]; [cbn in Hfuel; lia |].
  pose proof (Forall_inv Hsafe) as [Hk Hv]. cbn [fst snd] in Hk, Hv.
  pose proof (Forall_inv_tail Hsafe) as Hsafe'.
  cbn [members_body fst snd scan_members fold_left].
  rewrite <- app_assoc. cbn [app]. rewrite scanstring_encode by exact Hk.
  cbn [mbind result_bind]. skip_spaces. rewrite <- app_assoc, dumps_value_head.
  destruct d as [| kv' d'].
  - cbn [app]. rewrite scan_value_dumps; [| exact Hv | cbn; repeat split; discriminate].
    cbn [mbind result_bind]. skip_spaces. reflexivity.
  - cbn [app]. rewrite scan_value_dumps; [| exact Hv | cbn; repeat split; discriminate].
    cbn [mbind result_bind]. skip_spaces.
    apply IH; [discriminate | exact Hsafe' | cbn [length] in Hfuel |- *; lia].
Qed.

(** [json.loads] undoes the text of [json.dumps(d, indent=2)] for a
    dictionary of safe strings and integers; what comes back is the
    dictionary built from the members in order. *)
Lemma loads_object_text d :
  Forall member_safe d ->
  loads (object_text d) = Ok (DObject (fold_left (fun a kv => dict_set kv.1 kv.2 a) d [])).
Proof.
  intros Hsafe. destruct d as [| kv d]; [reflexivity |].
  unfold object_text. rewrite dumps_members_body by discriminate.
  set (ms := kv :: d) in *. cbn [app]. unfold loads. skip_spaces.
  unfold JSONObject. skip_spaces.
  rewrite (scan_members_body ms [] _ []).
  - reflexivity.
  - discriminate.
  - exact Hsafe.
  - rewrite length_app. pose proof (members_body_length ms). lia.
Qed.

(** The encoder raises exactly when an integer is beyond the digit limit. *)
Lemma dumps_safe d :
  Forall member_safe d -> dumps_indent2 d = Ok (object_text d).
Proof.
  intros Hsafe. unfold dumps_indent2.
  assert (forallb (fun kv : str * jvalue => value_prints kv.2) d = true) as ->;
    [| reflexivity].
  apply forallb_forall. intros kv Hin.
  rewrite Forall_forall in Hsafe. destruct (Hsafe kv (proj2 (list_elem_of_In _ _) Hin)) as [_ Hv].
  destruct kv as [k [| n | v]]; cbn in Hv |- *; [reflexivity | exact Hv | reflexivity].
Qed.

Lemma loads_dumps d :
  Forall member_safe d ->
  (text ← dumps_indent2 d; loads text)
  = Ok (DObject (fold_left (fun a kv => dict_set kv.1 kv.2 a) d [])).
Proof.
  intros Hsafe. rewrite (dumps_safe d Hsafe). cbn [mbind result_bind].
  now apply loads_object_text.
Qed.

Lemma to_dict_safe j : job_safe j -> Forall member_safe (to_dict j).
Proof.
  intros (H1 & H2 & H3 & H4 & H5 & H6 & H7 & H8 & H9). unfold to_dict.
  repeat constructor; cbn [fst snd value_safe]; try assumption; try reflexivity.
  - destruct (next_retry_at j); [exact H6 | exact I].
  - destruct (error_message j); [exact H7 | exact I].
Qed.

Lemma to_json_safe j : job_safe j -> to_json j = Ok (object_text (to_dict j)).
Proof. intros H. apply dumps_safe, to_dict_safe, H. Qed.

(** A job with a counter of 4301 digits: [to_json] raises. *)
Example to_json_digit_limit :
  to_json (set_attempts (10 ^ 4300) sample_job) = Raise DigitLimitError.
Proof.
  unfold to_json, dumps_indent2, to_dict. cbn [forallb snd value_prints attempts set_attempts].
  destruct digit_limit_samples as (_ & H & _).
  rewrite within_digit_limit_opp in H. rewrite H. reflexivity.
Qed.

Lemma to_dict_rebuilt j :
  fold_left (fun a kv => dict_set kv.1 kv.2 a) (to_dict j) [] = to_dict j.
Proof. vm_compute. reflexivity. Qed.

(** The counterexample to C10: the job whose id is a high surrogate followed
    by a low surrogate comes back from JSON with the single character
    U+1F600 as its id. *)
Lemma from_json_merges_surrogates :
  (text ← to_json split_pair_job; from_json t2024 text)
  = Ok (mkJob [128512] (py "true") JobState.PENDING 0 3
          (py "2024-01-01T00:00:00Z") (py "2024-01-01T00:00:00Z") None None)
  /\ (text ← to_json split_pair_job; from_json t2024 text) <> Ok split_pair_job.
Proof. vm_compute. split; [reflexivity | discriminate]. Qed.

(** C10 as the code has it: [from_dict] undoes [to_dict] for every job, and
    [from_json] undoes [to_json] for every job whose strings consist of code
    points and contain no high surrogate directly before a low one and whose
    two counters are within the digit limit of the interpreter, beyond which
    [to_json] raises. *)
Theorem job_round_trips now j :
  from_dict now (to_dict j) = Ok j
  /\ (job_safe j -> (text ← to_json j; from_json now text) = Ok j).
Proof.
  split; [apply from_dict_to_dict |].
  intros Hsafe. rewrite (to_json_safe j Hsafe). cbn [mbind result_bind].
  unfold from_json.
  rewrite loads_object_text by (apply to_dict_safe; exact Hsafe).
  cbn [mbind result_bind]. rewrite to_dict_rebuilt. apply from_dict_to_dict.
Qed.

Lemma job_round_trips_witness :
  job_safe sample_job
  /\ from_dict t2024 (to_dict sample_job) = Ok sample_job
  /\ (job_safe sample_job ->
      (text ← to_json sample_job; from_json t2024 text) = Ok sample_job).
Proof.
  split.
  - vm_compute. repeat split; reflexivity.
  - apply (job_round_trips t2024 sample_job).
Defined.

(** ** More on the worker: what an attempt changes and what it leaves *)

Lemma handle_failure_frame config now job msg job' :
  persisted (_handle_job_failure config now job msg) = Some job' ->
  id job' = id job /\ command job' = command job /\ attempts job' = attempts job
  /\ max_retries job' = max_retries job /\ created_at job' = created_at job
  /\ updated_at job' = updated_at job
  /\ is_Some (error_message job')
  /\ ((state job' = JobState.DEAD /\ max_retries job <= attempts job
       /\ next_retry_at job' = None)
      \/ (state job' = JobState.FAILED /\ attempts job < max_retries job)).
Proof.
  unfold _handle_job_failure. cbn [attempts max_retries set_error_message set_state].
  destruct (attempts job >=? max_retries job) eqn:E.
  - intros [= <-]. cbn. repeat split; eauto. left. repeat split. lia.
  - destruct (attempts job <? 0); [discriminate |].
    destruct (timedelta_seconds _) as [e | delta].
    + intros [= <-]. cbn. repeat split; eauto. right. split; [reflexivity | lia].
    + destruct (datetime_add now delta) as [e | t]; intros [= <-]; cbn;
        (repeat split; eauto; right; split; [reflexivity | lia]).
Qed.

Lemma attempt_fields config now now' run job job' :
  persisted (attempt config now now' run job) = Some job' ->
  id job' = id job /\ command job' = command job
  /\ attempts job' = attempts job + 1
  /\ max_retries job' = max_retries job /\ created_at job' = created_at job.
Proof.
  unfold attempt. set (j1 := set_attempts (attempts job + 1) job).
  assert (forall n msg j', persisted (_handle_job_failure config n j1 msg) = Some j' ->
            id j' = id job /\ command j' = command job
            /\ attempts j' = attempts job + 1
            /\ max_retries j' = max_retries job /\ created_at j' = created_at job) as Hh.
  { intros n msg j' H.
    apply handle_failure_frame in H as (H1 & H2 & H3 & H4 & H5 & _).
    rewrite H1, H2, H3, H4, H5. repeat split. }
  destruct run as [rc out err | | msg]; [| apply Hh | apply Hh].
  destruct (rc =? 0).
  - intros [= <-]. repeat split.
  - destruct (_handle_job_failure config now j1 _) as [j' | e j' |] eqn:E1.
    + intros [= <-]. apply (Hh now (failure_message config (Completed rc out err)) j').
      now rewrite E1.
    + intros H2. apply handle_failure_frame in H2 as (H1 & H2 & H3 & H4 & H5 & _).
      destruct (Hh now (failure_message config (Completed rc out err)) j') as (G1 & G2 & G3 & G4 & G5);
        [now rewrite E1 |].
      rewrite H1, H2, H3, H4, H5. repeat split; assumption.
    + discriminate.
Qed.

(** X1: whatever the subprocess did, and also when the failure handler
    raises, the record an attempt leaves has [attempts] one higher and the
    [id], [command], [max_retries] and [created_at] it started with. *)
Theorem attempt_frame config now now' run job job' :
  persisted (attempt config now now' run job) = Some job' ->
  id job' = id job /\ command job' = command job
  /\ attempts job' = attempts job + 1
  /\ max_retries job' = max_retries job /\ created_at job' = created_at job.
Proof. apply attempt_fields. Qed.

Lemma attempt_frame_witness :
  let job' := mkJob (py "j1") (py "false") JobState.FAILED 2 3
                (py "2024-01-01T00:00:00Z") (py "2024-01-24T03:33:20Z")
                (Some (py "2024-01-12T13:46:42Z")) (Some (py "date value out of range")) in
  persisted (attempt big_base (seconds 2000001) (seconds 2000001)
               (Completed 1 [] (py "boom")) failed_once) = Some job'
  /\ id job' = id failed_once /\ command job' = command failed_once
  /\ attempts job' = attempts failed_once + 1
  /\ max_retries job' = max_retries failed_once
  /\ created_at job' = created_at failed_once.
Proof.
  intros job'.
  assert (persisted (attempt big_base (seconds 2000001) (seconds 2000001)
                       (Completed 1 [] (py "boom")) failed_once) = Some job') as H
    by (vm_compute; reflexivity).
  split; [exact H |].
  exact (attempt_frame big_base (seconds 2000001) (seconds 2000001)
           (Completed 1 [] (py "boom")) failed_once job' H).
Defined.

Lemma attempt_cases config now now' run job job' :
  persisted (attempt config now now' run job) = Some job' ->
  (is_failure run = false /\ state job' = JobState.COMPLETED
   /\ error_message job' = None)
  \/ (is_failure run = true /\ is_Some (error_message job')
      /\ ((state job' = JobState.DEAD /\ max_retries job <= attempts job + 1
           /\ next_retry_at job' = None)
          \/ (state job' = JobState.FAILED /\ attempts job + 1 < max_retries job))).
Proof.
  unfold attempt. set (j1 := set_attempts (attempts job + 1) job).
  assert (forall n msg j', persisted (_handle_job_failure config n j1 msg) = Some j' ->
            is_Some (error_message j')
            /\ ((state j' = JobState.DEAD /\ max_retries job <= attempts job + 1
                 /\ next_retry_at j' = None)
                \/ (state j' = JobState.FAILED /\ attempts job + 1 < max_retries job))) as Hh.
  { intros n msg j' H.
    apply handle_failure_frame in H as (_ & _ & _ & _ & _ & _ & He & Hs).
    split; [exact He | exact Hs]. }
  destruct run as [rc out err | | msg]; cbn [is_failure];
    [| intros H; right; split; [reflexivity | exact (Hh _ _ _ H)] ..].
  destruct (rc =? 0).
  - intros [= <-]. left. repeat split.
  - cbn [negb]. intros H. right. split; [reflexivity |].
    destruct (_handle_job_failure config now j1 _) as [j' | e j' |] eqn:E1.
    + injection H as <-. apply (Hh now (failure_message config (Completed rc out err))).
      now rewrite E1.
    + destruct (handle_failure_frame _ _ _ _ _ (eq_trans (f_equal persisted E1) eq_refl))
        as (_ & _ & G3 & G4 & _ & _ & _ & _).
      apply handle_failure_frame in H as (_ & _ & H3 & H4 & _ & _ & He & Hs).
      split; [exact He |]. rewrite G3, G4 in Hs. exact Hs.
    + discriminate.
Qed.

(** X2: an attempt never leaves the job pending or processing.  Exit status 0
    gives a completed record without error message; every other run gives a
    record with an error message that is dead, without [next_retry_at], when
    the incremented [attempts] has reached [max_retries], and failed
    otherwise, also when the failure handler raises. *)
Theorem attempt_outcome config now now' run job job' :
  persisted (attempt config now now' run job) = Some job' ->
  (is_failure run = false /\ state job' = JobState.COMPLETED
   /\ error_message job' = None)
  \/ (is_failure run = true /\ is_Some (error_message job')
      /\ ((state job' = JobState.DEAD /\ max_retries job <= attempts job + 1
           /\ next_retry_at job' = None)
          \/ (state job' = JobState.FAILED /\ attempts job + 1 < max_retries job))).
Proof. apply attempt_cases. Qed.

Lemma attempt_outcome_witness :
  let job' := mkJob (py "j1") (py "false") JobState.DEAD 2 2
                (py "2024-01-01T00:00:00Z") (py "2024-01-01T00:00:03Z")
                None (Some (py "Job timed out after 300 seconds")) in
  let job := set_attempts 1 (set_state JobState.PROCESSING job') in
  persisted (attempt Config.default (seconds 9) (seconds 9) TimeoutExpired job) = Some job'
  /\ ((is_failure TimeoutExpired = false /\ state job' = JobState.COMPLETED
       /\ error_message job' = None)
      \/ (is_failure TimeoutExpired = true /\ is_Some (error_message job')
          /\ ((state job' = JobState.DEAD /\ max_retries job <= attempts job + 1
               /\ next_retry_at job' = None)
              \/ (state job' = JobState.FAILED /\ attempts job + 1 < max_retries job)))).
Proof.
  intros job' job.
  assert (persisted (attempt Config.default (seconds 9) (seconds 9) TimeoutExpired job)
          = Some job') as H by (vm_compute; reflexivity).
  split; [exact H |].
  exact (attempt_outcome Config.default (seconds 9) (seconds 9) TimeoutExpired job job' H).
Defined.

Lemma persist_lookup now job s :
  jobs (persist now job s) !! id job
  = Some (mkRow (set_updated_at (iso_z now) job) None None)
  /\ (forall k, k <> id job -> jobs (persist now job s) !! k = jobs s !! k)
  /\ config (persist now job s) = config s.
Proof.
  unfold persist, release_job, save_job. cbn [fst snd jobs config id set_updated_at].
  repeat split.
  - rewrite lookup_alter, decide_True by reflexivity. rewrite lookup_insert_eq.
    destruct (jobs s !! id job); reflexivity.
  - intros k Hk. rewrite lookup_alter_ne, lookup_insert_ne by congruence. reflexivity.
Qed.

Lemma execute_job_cases worker_id cfg now now' now_save run job s r :
  _execute_job worker_id cfg now now' now_save run job s = Some r ->
  (encodable (announcement worker_id job) = false /\ r = NotStarted)
  \/ (encodable (announcement worker_id job) = true
      /\ exists job' s',
           persisted (attempt cfg now now' run job) = Some job'
           /\ (r = Finished s' \/ exists e, r = Reraised e s')
           /\ jobs s' !! id job
              = Some (mkRow (set_updated_at (iso_z now_save) job') None None)
           /\ (forall k, k <> id job -> jobs s' !! k = jobs s !! k)
           /\ config s' = config s).
Proof.
  unfold _execute_job, echo.
  destruct (encodable (announcement worker_id job)); [| intros [= <-]; now left].
  intros H. right. split; [reflexivity |].
  assert (exists job', persisted (attempt cfg now now' run job) = Some job'
                       /\ (r = Finished (persist now_save job' s)
                           \/ exists e, r = Reraised e (persist now_save job' s)))
    as (job' & Hp & Hr).
  { destruct (attempt cfg now now' run job) as [j | x j |];
      [injection H as <- | injection H as <- | discriminate]; eauto. }
  exists job', (persist now_save job' s). split; [exact Hp |]. split; [exact Hr |].
  destruct (attempt_fields _ _ _ _ _ _ Hp) as (Hid & _).
  rewrite <- Hid. apply persist_lookup.
Qed.

(** X3: [_execute_job] prints its announcement before the [try] statement.
    When the id or the command of the job cannot be printed, the method
    raises there and the store is not touched: the attempt is not counted and
    nothing is saved.  In every other case the [finally] clause runs,
    whatever the attempt did and also when the failure handler raises: the
    store then holds the record of the attempt under the job's id, even if
    the record was deleted meanwhile, that record carries no lease, and every
    other record and the configuration are as before. *)
Theorem execute_job_persists worker_id cfg now now' now_save run job s r :
  _execute_job worker_id cfg now now' now_save run job s = Some r ->
  (encodable (announcement worker_id job) = false /\ r = NotStarted)
  \/ (encodable (announcement worker_id job) = true
      /\ exists job' s',
           persisted (attempt cfg now now' run job) = Some job'
           /\ (r = Finished s' \/ exists e, r = Reraised e s')
           /\ jobs s' !! id job
              = Some (mkRow (set_updated_at (iso_z now_save) job') None None)
           /\ (forall k, k <> id job -> jobs s' !! k = jobs s !! k)
           /\ config s' = config s).
Proof. apply execute_job_cases. Qed.

Lemma execute_job_persists_witness :
  let s := delete_job (py "j1") leased_store in
  let r := default NotStarted
             (_execute_job w1 big_base (seconds 2000001) (seconds 2000001) (seconds 2000001)
                (Completed 1 [] (py "boom")) failed_once s) in
  _execute_job w1 big_base (seconds 2000001) (seconds 2000001) (seconds 2000001)
    (Completed 1 [] (py "boom")) failed_once s = Some r
  /\ ((encodable (announcement w1 failed_once) = false /\ r = NotStarted)
      \/ (encodable (announcement w1 failed_once) = true
          /\ exists job' s',
               persisted (attempt big_base (seconds 2000001) (seconds 2000001)
                            (Completed 1 [] (py "boom")) failed_once) = Some job'
               /\ (r = Finished s' \/ exists e, r = Reraised e s')
               /\ jobs s' !! id failed_once
                  = Some (mkRow (set_updated_at (iso_z (seconds 2000001)) job') None None)
               /\ (forall k, k <> id failed_once -> jobs s' !! k = jobs s !! k)
               /\ config s' = config s)).
Proof.
  intros s r.
  assert (_execute_job w1 big_base (seconds 2000001) (seconds 2000001) (seconds 2000001)
            (Completed 1 [] (py "boom")) failed_once s = Some r) as H
    by (vm_compute; reflexivity).
  split; [exact H |].
  exact (execute_job_persists w1 big_base (seconds 2000001) (seconds 2000001)
           (seconds 2000001) (Completed 1 [] (py "boom")) failed_once s r H).
Defined.

(** A job whose command holds a lone surrogate: the worker raises at the
    announcement, and the store keeps the record as [acquire_next] left
    it. *)
Example execute_job_unprintable :
  let job := set_state JobState.PROCESSING
               (mkJob (py "j1") [55357] JobState.PENDING 0 3
                  (py "2024-01-01T00:00:00Z") (py "2024-01-01T00:00:00Z") None None) in
  _execute_job w1 Config.default (seconds 2) (seconds 2) (seconds 3)
    (Completed 0 [] []) job leased_store = Some NotStarted.
Proof. vm_compute. reflexivity. Qed.

(** ** More on the commands that write jobs *)

Lemma enqueue_store fs now now_save job_json s code s' :
  enqueue fs now now_save job_json s = Some (code, s') ->
  (code = 1 /\ s' = s)
  \/ (exists job,
        enqueue_job fs now job_json s = Ok job
        /\ jobs s !! id job = None
        /\ jobs s' !! id job
           = Some (mkRow (set_updated_at (iso_z now_save) job) None None)
        /\ (forall k, k <> id job -> jobs s' !! k = jobs s !! k)
        /\ config s' = config s
        /\ ((code = 0 /\ confirmation_prints job = true)
            \/ (code = 1 /\ confirmation_prints job = false))).
Proof.
  pose proof (enqueue_cases fs now now_save job_json s) as Hc.
  destruct (enqueue_job fs now job_json s) as [job | e |] eqn:Hjob;
    [| rewrite Hc; intros [= <- <-]; now left | rewrite Hc; discriminate].
  destruct (get_job (id job) s) eqn:Hget; rewrite Hc; intros [= <- <-]; [now left |].
  right. exists job. unfold get_job in Hget.
  destruct (jobs s !! id job) as [r |] eqn:Hrow; [discriminate |].
  split; [reflexivity |]. split; [reflexivity |].
  unfold save_job. cbn [snd jobs config].
  split; [apply lookup_insert_eq |].
  split; [intros k Hk; apply lookup_insert_ne; congruence |].
  split; [reflexivity |].
  destruct (confirmation_prints job); [left | right]; now split.
Qed.

(** X4: [enqueue] exits with status 0 or 1 and writes at most one record.
    Either it exits with status 1 and has written nothing, or it has added
    exactly one record, the job it built, under an id that was not in the
    store, without a lease, every other record and the configuration being as
    before; in that case the status is 0 when the confirmation could be
    printed and 1 when it could not, the job staying in the store. *)
Theorem enqueue_frame fs now now_save job_json s code s' :
  enqueue fs now now_save job_json s = Some (code, s') ->
  (code = 1 /\ s' = s)
  \/ (exists job,
        enqueue_job fs now job_json s = Ok job
        /\ jobs s !! id job = None
        /\ jobs s' !! id job
           = Some (mkRow (set_updated_at (iso_z now_save) job) None None)
        /\ (forall k, k <> id job -> jobs s' !! k = jobs s !! k)
        /\ config s' = config s
        /\ ((code = 0 /\ confirmation_prints job = true)
            \/ (code = 1 /\ confirmation_prints job = false))).
Proof. apply enqueue_store. Qed.

Lemma enqueue_frame_witness :
  let job_json := json_text "{'id': '\ud83d', 'command': 'echo hi'}" in
  let r := default (0, empty_storage)
             (enqueue no_files (seconds 0) (seconds 1) job_json dlq_store) in
  enqueue no_files (seconds 0) (seconds 1) job_json dlq_store = Some (r.1, r.2)
  /\ ((r.1 = 1 /\ r.2 = dlq_store)
      \/ (exists job,
            enqueue_job no_files (seconds 0) job_json dlq_store = Ok job
            /\ jobs dlq_store !! id job = None
            /\ jobs r.2 !! id job
               = Some (mkRow (set_updated_at (iso_z (seconds 1)) job) None None)
            /\ (forall k, k <> id job -> jobs r.2 !! k = jobs dlq_store !! k)
            /\ config r.2 = config dlq_store
            /\ ((r.1 = 0 /\ confirmation_prints job = true)
                \/ (r.1 = 1 /\ confirmation_prints job = false)))).
Proof.
  intros job_json r.
  assert (enqueue no_files (seconds 0) (seconds 1) job_json dlq_store = Some (r.1, r.2)) as H
    by (vm_compute; reflexivity).
  split; [exact H |].
  exact (enqueue_frame no_files (seconds 0) (seconds 1) job_json dlq_store r.1 r.2 H).
Defined.

Lemma enqueue_job_fields fs now job_json s job_data job :
  enqueue_input fs job_json = Ok (DObject job_data) ->
  enqueue_job fs now job_json s = Ok job ->
  max_retries job = given_int "max_retries" (Config.max_retries (config s)) job_data
  /\ attempts job = given_int "attempts" 0 job_data.
Proof.
  intros Hin Hjob. unfold enqueue_job in Hjob. rewrite Hin in Hjob.
  cbn [mbind result_bind] in Hjob.
  apply from_dict_Ok in Hjob as (i & c & st & att & mr & ca & ua & nr & em
                                 & _ & Hatt & Hmr & ->).
  unfold kw_int in Hatt, Hmr. unfold given_int. cbn [max_retries attempts Job_init].
  destruct (dict_get (py "max_retries") job_data) as [v |] eqn:Em.
  - rewrite Em in Hmr.
    destruct v as [| n |]; try discriminate. injection Hmr as <-.
    destruct (dict_get (py "attempts") job_data) as [[| a |] |];
      try discriminate; injection Hatt as <-; split; reflexivity.
  - rewrite dict_get_set_eq in Hmr. injection Hmr as <-.
    rewrite dict_get_set_ne in Hatt by (vm_compute; discriminate).
    destruct (dict_get (py "attempts") job_data) as [[| a |] |];
      try discriminate; injection Hatt as <-; split; reflexivity.
Qed.


(** X5: the job [enqueue] builds takes [max_retries] from the input when the
    input has the key and from the stored configuration otherwise, never from
    the default of the dataclass; [attempts] is the input's or 0. *)
Theorem enqueue_job_defaults fs now job_json s job_data job :
  enqueue_input fs job_json = Ok (DObject job_data) ->
  enqueue_job fs now job_json s = Ok job ->
  max_retries job = given_int "max_retries" (Config.max_retries (config s)) job_data
  /\ attempts job = given_int "attempts" 0 job_data.
Proof. apply enqueue_job_fields. Qed.

Lemma enqueue_job_defaults_witness :
  let job_json := json_text "{'id': 'j9', 'command': 'echo hi'}" in
  let job_data := [(py "id", JStr (py "j9")); (py "command", JStr (py "echo hi"))] in
  let s := save_config (Config.mk 7 2 1%Q 300) empty_storage in
  let job := mkJob (py "j9") (py "echo hi") JobState.PENDING 0 7
               (py "2024-01-01T00:00:00Z") (py "2024-01-01T00:00:00Z") None None in
  enqueue_input no_files job_json = Ok (DObject job_data)
  /\ enqueue_job no_files (seconds 0) job_json s = Ok job
  /\ max_retries job = given_int "max_retries" (Config.max_retries (config s)) job_data
  /\ attempts job = given_int "attempts" 0 job_data.
Proof.
  intros job_json job_data s job.
  assert (enqueue_input no_files job_json = Ok (DObject job_data)) as H1
    by (vm_compute; reflexivity).
  assert (enqueue_job no_files (seconds 0) job_json s = Ok job) as H2
    by (vm_compute; reflexivity).
  split; [exact H1 |]. split; [exact H2 |].
  exact (enqueue_job_defaults no_files (seconds 0) job_json s job_data job H1 H2).
Defined.

Lemma dict_set_keeps k v d k0 v0 :
  In (k0, v0) d -> k0 <> k -> In (k0, v0) (dict_set k v d).
Proof.
  intros Hin Hne. induction d as [| [k1 v1] d IH]; [contradiction |].
  cbn [dict_set]. destruct (bool_decide (k1 = k)) eqn:E.
  - apply bool_decide_eq_true_1 in E. destruct Hin as [[= -> ->] | Hin]; [congruence |].
    now right.
  - destruct Hin as [Heq | Hin]; [now left | right; now apply IH].
Qed.

Lemma dict_get_In k d : dict_get k d = None -> forall v, ~ In (k, v) d.
Proof.
  induction d as [| [k1 v1] d IH]; intros H v; [intros [] |].
  cbn [dict_get] in H. destruct (bool_decide (k1 = k)) eqn:E; [discriminate |].
  apply bool_decide_eq_false_1 in E. intros [[= -> _] | Hin]; [congruence |].
  exact (IH H v Hin).
Qed.

(** X6: an input object without [id], without [command], or with a key that
    is no field of [Job] makes [enqueue] exit with status 1 and write
    nothing. *)
Theorem enqueue_rejects_bad_keys fs now now_save job_json s job_data :
  enqueue_input fs job_json = Ok (DObject job_data) ->
  dict_get (py "id") job_data = None
  \/ dict_get (py "command") job_data = None
  \/ (exists k v, In (k, v) job_data /\ k ∉ field_names) ->
  enqueue fs now now_save job_json s = Some (1, s).
Proof.
  intros Hin Hbad. apply (enqueue_error_no_write _ _ _ _ _ TypeError).
  unfold enqueue_job. rewrite Hin. cbn [mbind result_bind].
  set (data := match dict_get (py "max_retries") job_data with
               | Some _ => job_data
               | None => dict_set (py "max_retries")
                           (JInt (Config.max_retries (get_config s))) job_data
               end).
  assert (forall k, k <> py "max_retries" -> dict_get k data = dict_get k job_data) as Hget.
  { intros k Hk. subst data. destruct (dict_get (py "max_retries") job_data); [reflexivity |].
    now apply dict_get_set_ne. }
  unfold from_dict.
  destruct (negb (forallb (fun kv => bool_decide (kv.1 ∈ field_names)) data)) eqn:Hall;
    [reflexivity |].
  apply negb_false_iff in Hall. rewrite forallb_forall in Hall.
  destruct Hbad as [Hid | [Hcmd | (k & v & Hin' & Hk)]].
  - rewrite Hget by (vm_compute; discriminate). now rewrite Hid.
  - rewrite (Hget (py "command")) by (vm_compute; discriminate). rewrite Hcmd.
    now destruct (dict_get (py "id") data).
  - exfalso. assert (In (k, v) data) as Hd.
    { subst data. destruct (dict_get (py "max_retries") job_data); [exact Hin' |].
      apply dict_set_keeps; [exact Hin' |]. intros ->. apply Hk.
      vm_compute. repeat first [apply list_elem_of_here | apply list_elem_of_further]. }
    apply Hall in Hd. cbn in Hd. apply bool_decide_eq_true_1 in Hd. contradiction.
Qed.

Lemma enqueue_rejects_bad_keys_witness :
  let job_json := json_text "{'id': 'j9', 'command': 'echo hi', 'priority': 5}" in
  let job_data := [(py "id", JStr (py "j9")); (py "command", JStr (py "echo hi"));
                   (py "priority", JInt 5)] in
  enqueue_input no_files job_json = Ok (DObject job_data)
  /\ (dict_get (py "id") job_data = None
      \/ dict_get (py "command") job_data = None
      \/ (exists k v, In (k, v) job_data /\ k ∉ field_names))
  /\ enqueue no_files (seconds 0) (seconds 1) job_json dlq_store = Some (1, dlq_store).
Proof.
  intros job_json job_data.
  assert (enqueue_input no_files job_json = Ok (DObject job_data)) as H1
    by (vm_compute; reflexivity).
  assert (dict_get (py "id") job_data = None
          \/ dict_get (py "command") job_data = None
          \/ (exists k v, In (k, v) job_data /\ k ∉ field_names)) as H2.
  { right. right. exists (py "priority"), (JInt 5). split.
    - right. right. now left.
    - apply (bool_decide_unpack _). vm_compute. exact I. }
  split; [exact H1 |]. split; [exact H2 |].
  exact (enqueue_rejects_bad_keys no_files (seconds 0) (seconds 1) job_json dlq_store
           job_data H1 H2).
Defined.

(** X7: [dlq retry] cannot be repeated.  After it has succeeded for an id, a
    second [dlq retry] for the same id, with or without [--reset-attempts],
    exits with status 1 and changes nothing; and the first one changed no
    other record and not the configuration. *)
Theorem dlq_retry_once t1 t2 job_id reset1 reset2 s :
  store_wf s ->
  (dlq_retry t1 job_id reset1 s).1 = 0 ->
  let s1 := (dlq_retry t1 job_id reset1 s).2 in
  dlq_retry t2 job_id reset2 s1 = (1, s1)
  /\ (forall k, k <> job_id -> jobs s1 !! k = jobs s !! k)
  /\ config s1 = config s.
Proof.
  intros Hwf H0 s1. subst s1. unfold dlq_retry in H0 |- *.
  destruct (get_job job_id s) as [job |] eqn:Hget; [| discriminate].
  pose proof (store_wf_get_job _ _ _ Hwf Hget) as Hid.
  destruct (negb (bool_decide (state job = JobState.DEAD))); [discriminate |].
  rewrite save_job_pair. cbn [fst snd].
  set (job1 := if reset1 then _ else _).
  assert (id job1 = job_id /\ state job1 = JobState.PENDING) as [Hid1 Hst1]
    by (subst job1; destruct reset1; split; exact Hid || reflexivity).
  split; [| split].
  - rewrite <- Hid1 at 1. rewrite get_job_save_job. cbn [state set_updated_at].
    rewrite Hst1. rewrite bool_decide_eq_false_2 by state_neq. reflexivity.
  - intros k Hk. unfold save_job. cbn [snd jobs].
    apply lookup_insert_ne. congruence.
  - reflexivity.
Qed.

Lemma dlq_retry_once_witness :
  store_wf dlq_store
  /\ (dlq_retry (seconds 9) (py "j2") false dlq_store).1 = 0
  /\ let s1 := (dlq_retry (seconds 9) (py "j2") false dlq_store).2 in
     dlq_retry (seconds 10) (py "j2") true s1 = (1, s1)
     /\ (forall k, k <> py "j2" -> jobs s1 !! k = jobs dlq_store !! k)
     /\ config s1 = config dlq_store.
Proof.
  assert (store_wf dlq_store) as H1
    by (unfold store_wf; apply (bool_decide_unpack _); vm_compute; exact I).
  assert ((dlq_retry (seconds 9) (py "j2") false dlq_store).1 = 0) as H2
    by (vm_compute; reflexivity).
  split; [exact H1 |]. split; [exact H2 |].
  exact (dlq_retry_once (seconds 9) (seconds 10) (py "j2") false true dlq_store H1 H2).
Defined.

(** X8: what [get] prints can be given to [enqueue].  For a stored job whose
    strings survive JSON, whose counters are within the digit limit and whose
    id and command can be printed, [get] exits with status 0 and prints a
    newline and the job as JSON; [enqueue] of that text into a store without
    the id exits with status 0 and stores the same job, with all its fields,
    state and [attempts] included; only [updated_at] is that of the new
    write. *)
Theorem get_output_enqueues fs now now_save job_id s job s2 :
  get_job job_id s = Some job ->
  job_safe job ->
  confirmation_prints job = true ->
  get_job (id job) s2 = None ->
  exists text,
    get_job_command job_id s = (0, Some text)
    /\ enqueue fs now now_save text s2 = Some (0, (save_job now_save job s2).2)
    /\ get_job (id job) (save_job now_save job s2).2
       = Some (set_updated_at (iso_z now_save) job).
Proof.
  intros Hget Hsafe Hprints Hnew. exists (10 :: object_text (to_dict job)).
  split; [unfold get_job_command; now rewrite Hget, (to_json_safe job Hsafe) |].
  split; [| apply get_job_save_job].
  assert (enqueue_job fs now (10 :: object_text (to_dict job)) s2 = Ok job) as Hjob.
  { unfold enqueue_job, enqueue_input. cbn [mbind result_bind].
    assert (loads (10 :: object_text (to_dict job)) = Ok (DObject (to_dict job))) as ->.
    { unfold loads. rewrite skip_ws_space by reflexivity.
      pose proof (loads_object_text (to_dict job) (to_dict_safe job Hsafe)) as H.
      unfold loads in H. rewrite to_dict_rebuilt in H. exact H. }
    cbn [mbind result_bind].
    assert (dict_get (py "max_retries") (to_dict job) = Some (JInt (max_retries job))) as ->
      by (vm_compute; reflexivity).
    apply from_dict_to_dict. }
  pose proof (enqueue_cases fs now now_save (10 :: object_text (to_dict job)) s2) as Hc.
  rewrite Hjob, Hnew, Hprints in Hc. exact Hc.
Qed.

Lemma get_output_enqueues_witness :
  get_job (py "j2") dlq_store = Some (set_updated_at (py "2024-01-01T00:00:03Z") dead_job)
  /\ job_safe (set_updated_at (py "2024-01-01T00:00:03Z") dead_job)
  /\ confirmation_prints (set_updated_at (py "2024-01-01T00:00:03Z") dead_job) = true
  /\ get_job (id dead_job) empty_storage = None
  /\ exists text,
       get_job_command (py "j2") dlq_store = (0, Some text)
       /\ enqueue no_files (seconds 20) (seconds 21) text empty_storage
          = Some (0, (save_job (seconds 21)
                        (set_updated_at (py "2024-01-01T00:00:03Z") dead_job)
                        empty_storage).2)
       /\ get_job (id dead_job)
            (save_job (seconds 21) (set_updated_at (py "2024-01-01T00:00:03Z") dead_job)
               empty_storage).2
          = Some (set_updated_at (iso_z (seconds 21))
                    (set_updated_at (py "2024-01-01T00:00:03Z") dead_job)).
Proof.
  assert (get_job (py "j2") dlq_store
          = Some (set_updated_at (py "2024-01-01T00:00:03Z") dead_job)) as H1
    by (vm_compute; reflexivity).
  assert (job_safe (set_updated_at (py "2024-01-01T00:00:03Z") dead_job)) as H2
    by (vm_compute; repeat split; reflexivity).
  assert (confirmation_prints (set_updated_at (py "2024-01-01T00:00:03Z") dead_job) = true)
    as H3 by (vm_compute; reflexivity).
  assert (get_job (id dead_job) empty_storage = None) as H4 by (vm_compute; reflexivity).
  split; [exact H1 |]. split; [exact H2 |]. split; [exact H3 |]. split; [exact H4 |].
  exact (get_output_enqueues no_files (seconds 20) (seconds 21) (py "j2") dlq_store
           (set_updated_at (py "2024-01-01T00:00:03Z") dead_job) empty_storage H1 H2 H3 H4).
Defined.

(** A stored job with a counter beyond the digit limit: [get] exits with
    status 1. *)
Example get_job_digit_limit :
  get_job_command (py "j1")
    (save_job (seconds 0) (set_attempts (10 ^ 4300) sample_job) empty_storage).2
  = (1, None).
Proof.
  unfold get_job_command.
  change (py "j1") with (id (set_attempts (10 ^ 4300) sample_job)).
  rewrite get_job_save_job.
  change (to_json (set_updated_at (iso_z (seconds 0)) (set_attempts (10 ^ 4300) sample_job)))
    with (dumps_indent2
            (to_dict (set_updated_at (iso_z (seconds 0)) (set_attempts (10 ^ 4300) sample_job)))).
  unfold dumps_indent2, to_dict.
  cbn [forallb snd value_prints attempts set_attempts set_updated_at].
  destruct digit_limit_samples as (_ & H & _).
  rewrite within_digit_limit_opp in H. rewrite H. reflexivity.
Qed.

(** ** [int] of a printed integer, and [config set] *)

Lemma scan_literal_digits pre : forall acc count,
  Forall (fun c => is_digit c = true) pre ->
  scan_literal pre acc count true
  = Some (fold_left digit_step pre acc, (count + length pre)%nat).
Proof.
  induction pre as [| c pre IH]; intros acc count Hd.
  - cbn. now rewrite Nat.add_0_r.
  - pose proof (Forall_inv Hd) as Hc. cbn beta in Hc.
    cbn [scan_literal fold_left length]. rewrite Hc.
    rewrite IH by exact (Forall_inv_tail Hd). f_equal. f_equal. lia.
Qed.

Lemma lstrip_c_id s :
  Forall (fun c => is_c_space c = false) s -> lstrip_c s = s.
Proof.
  intros H. destruct H as [| c s Hc _]; [reflexivity |]. cbn. now rewrite Hc.
Qed.

Lemma strip_c_id s :
  Forall (fun c => is_c_space c = false) s -> strip_c s = s.
Proof.
  intros H. unfold strip_c. rewrite (lstrip_c_id s H).
  rewrite lstrip_c_id by (apply Forall_rev; exact H). apply rev_involutive.
Qed.

Lemma digit_facts c :
  is_digit c = true ->
  is_c_space c = false /\ (127 <? c) = false /\ (c =? 45) = false /\ (c =? 43) = false.
Proof.
  unfold is_digit, is_c_space. intros H. apply andb_true_iff in H as [H1 H2].
  apply Z.leb_le in H1, H2.
  rewrite (proj2 (Z.eqb_neq c 32)), (proj2 (Z.eqb_neq c 45)), (proj2 (Z.eqb_neq c 43)) by lia.
  rewrite (proj2 (Z.ltb_ge 127 c)) by lia.
  rewrite (proj2 (Z.leb_gt c 13)) by lia. now rewrite andb_false_r.
Qed.

(** [int(str(n)) = n], as long as [n] is within the digit limit. *)
Lemma py_int_str_of_int n :
  (length (digits (Z.abs n)) <= 4300)%nat -> py_int (str_of_int n) = IntOk n.
Proof.
  intros Hlen.
  destruct (digits_spec (Z.abs n)) as (Hd & Hv & _ & _); [lia |].
  assert (forall l, Forall (fun c => is_digit c = true) l ->
            Forall (fun c => is_c_space c = false) l
            /\ existsb (fun c => 127 <? c) l = false) as Hfacts.
  { induction 1 as [| c l Hc _ [IH1 IH2]]; [split; [constructor | reflexivity] |].
    destruct (digit_facts c Hc) as (F1 & F2 & _). split; [now constructor |].
    cbn. now rewrite F2, IH2. }
  destruct (Hfacts _ Hd) as [Hsp Hascii].
  assert (scan_literal (digits (Z.abs n)) 0 0 false
          = Some (Z.abs n, length (digits (Z.abs n)))) as Hscan.
  { destruct (digits (Z.abs n)) as [| c pre] eqn:E.
    - cbn in Hv. destruct (digits_spec (Z.abs n)) as (_ & _ & Hz & Hp); [lia |].
      destruct (Z.eq_dec (Z.abs n) 0) as [H0 | H0].
      + rewrite (Hz H0) in E. discriminate.
      + destruct Hp as (c & pre' & Heq & _); [lia |]. congruence.
    - pose proof (Forall_inv Hd) as Hc. cbn beta in Hc.
      cbn [scan_literal]. rewrite Hc. rewrite scan_literal_digits by exact (Forall_inv_tail Hd).
      cbn [fold_left] in Hv. change (0 * 10 + (c - 48)) with (digit_step 0 c).
      rewrite Hv. reflexivity. }
  assert ((MAX_STR_DIGITS <? length (digits (Z.abs n)))%nat = false) as Hcount
    by (apply Nat.ltb_ge; exact Hlen).
  unfold py_int, str_of_int. destruct (n <? 0) eqn:Hneg.
  - apply Z.ltb_lt in Hneg.
    rewrite (Z.abs_neq n) in Hd, Hsp, Hascii, Hscan, Hcount by lia.
    cbn [existsb]. change (127 <? 45) with false. cbn [orb]. rewrite Hascii.
    rewrite strip_c_id by (constructor; [reflexivity | exact Hsp]).
    change (45 =? 45) with true. cbv iota. rewrite Hscan, Hcount. f_equal. lia.
  - apply Z.ltb_ge in Hneg.
    rewrite (Z.abs_eq n) in Hd, Hsp, Hascii, Hscan, Hcount by lia.
    rewrite Hascii, strip_c_id by exact Hsp.
    destruct (digits n) as [| c pre] eqn:E; [discriminate |].
    destruct (digit_facts c (Forall_inv Hd)) as (_ & _ & F3 & F4).
    rewrite F3, F4, Hscan. cbn [length] in Hcount |- *. now rewrite Hcount.
Qed.

Example py_int_samples :
  map py_int (map py [" 1_0 "; "+7"; "-0"; "007"; "1__0"; "_1"; "1_"; "+ 7"; "";
                      "0x10"; "1e3"; "1.0"; "++7"; "-_7"]%string
              ++ [[28; 53]; [55; 10]; [1635]])
  = [IntOk 10; IntOk 7; IntOk 0; IntOk 7; ValueError; ValueError; ValueError;
     ValueError; ValueError; ValueError; ValueError; ValueError; ValueError;
     ValueError; ValueError; IntOk 7; IntUnmodelled].
Proof. vm_compute. reflexivity. Qed.

Lemma config_set_int_fields n s :
  (length (digits (Z.abs n)) <= 4300)%nat ->
  let c := config s in
  config_set (py "max-retries") (str_of_int n) s
  = Some (0, mkStorage (jobs s)
                (Config.mk n (Config.backoff_base c) (Config.worker_poll_interval c)
                   (Config.job_timeout c)))
  /\ config_set (py "backoff-base") (str_of_int n) s
     = Some (0, mkStorage (jobs s)
                   (Config.mk (Config.max_retries c) n (Config.worker_poll_interval c)
                      (Config.job_timeout c)))
  /\ config_set (py "job-timeout") (str_of_int n) s
     = Some (0, mkStorage (jobs s)
                   (Config.mk (Config.max_retries c) (Config.backoff_base c)
                      (Config.worker_poll_interval c) n)).
Proof.
  intros Hlen c. unfold config_set. rewrite (py_int_str_of_int n Hlen).
  repeat split.
Qed.

(** X9: [config set] validates nothing but the form of the number.  For each
    of the three integer keys and every integer [n], negative ones included,
    the command given the decimal text of [n] exits with status 0 and stores
    [n] in that field; the other fields and all jobs are as before. *)
Theorem config_set_stores_int n s :
  (length (digits (Z.abs n)) <= 4300)%nat ->
  let c := config s in
  config_set (py "max-retries") (str_of_int n) s
  = Some (0, mkStorage (jobs s)
                (Config.mk n (Config.backoff_base c) (Config.worker_poll_interval c)
                   (Config.job_timeout c)))
  /\ config_set (py "backoff-base") (str_of_int n) s
     = Some (0, mkStorage (jobs s)
                   (Config.mk (Config.max_retries c) n (Config.worker_poll_interval c)
                      (Config.job_timeout c)))
  /\ config_set (py "job-timeout") (str_of_int n) s
     = Some (0, mkStorage (jobs s)
                   (Config.mk (Config.max_retries c) (Config.backoff_base c)
                      (Config.worker_poll_interval c) n)).
Proof. apply config_set_int_fields. Qed.

Lemma config_set_stores_int_witness :
  (length (digits (Z.abs (-1))) <= 4300)%nat
  /\ let c := config dlq_store in
     config_set (py "max-retries") (str_of_int (-1)) dlq_store
     = Some (0, mkStorage (jobs dlq_store)
                   (Config.mk (-1) (Config.backoff_base c) (Config.worker_poll_interval c)
                      (Config.job_timeout c)))
     /\ config_set (py "backoff-base") (str_of_int (-1)) dlq_store
        = Some (0, mkStorage (jobs dlq_store)
                      (Config.mk (Config.max_retries c) (-1) (Config.worker_poll_interval c)
                         (Config.job_timeout c)))
     /\ config_set (py "job-timeout") (str_of_int (-1)) dlq_store
        = Some (0, mkStorage (jobs dlq_store)
                      (Config.mk (Config.max_retries c) (Config.backoff_base c)
                         (Config.worker_poll_interval c) (-1))).
Proof.
  assert ((length (digits (Z.abs (-1))) <= 4300)%nat) as H by (vm_compute; lia).
  split; [exact H |]. exact (config_set_stores_int (-1) dlq_store H).
Defined.

Lemma assoc_get_None {V} k (d : list (str * V)) :
  assoc_get k d = None <-> k ∉ map fst d.
Proof.
  induction d as [| [k1 v1] d IH]; cbn [assoc_get map fst].
  - split; [intros _ H; inversion H | reflexivity].
  - destruct (bool_decide (k1 = k)) eqn:E.
    + apply bool_decide_eq_true_1 in E. subst k1. split; [discriminate |].
      intros H. exfalso. apply H. apply list_elem_of_here.
    + apply bool_decide_eq_false_1 in E. rewrite IH. split.
      * intros H Hin. apply elem_of_cons in Hin as [-> | Hin]; [congruence | auto].
      * intros H Hin. apply H. now apply list_elem_of_further.
Qed.

(** X10: whenever [config set] returns, no job has changed and the exit
    status is 0 or 1.  Status 1 means exactly that the key is none of the
    four known keys or that the value is no integer literal, and then the
    configuration is unchanged as well. *)
Theorem config_set_errors key value s code s' :
  config_set key value s = Some (code, s') ->
  jobs s' = jobs s
  /\ (code = 0 \/ code = 1)
  /\ (code = 1 <-> key ∉ CONFIG_KEYS \/ (key ∈ CONFIG_KEYS /\ py_int value = ValueError))
  /\ (code = 1 -> s' = s).
Proof.
  unfold config_set.
  set (key_map := [(py "max-retries", py "max_retries"); _; _; _]).
  change CONFIG_KEYS with (map fst key_map).
  destruct (assoc_get key key_map) as [internal_key |] eqn:Hkey.
  - assert (key ∈ map fst key_map) as Hin.
    { destruct (decide (key ∈ map fst key_map)) as [H | H]; [exact H |].
      apply assoc_get_None in H. congruence. }
    destruct (assoc_get internal_key (Config_to_dict (get_config s))) as [[m | q] |];
      try discriminate.
    destruct (py_int value) as [n | |] eqn:Hint; try discriminate.
    + destruct (Config_from_dict _) as [new_cfg | |]; try discriminate.
      intros [= <- <-]. split; [reflexivity |]. split; [now left |].
      split; [| discriminate].
      split; [discriminate | intros [H | [_ H]]; [contradiction | discriminate]].
    + intros [= <- <-]. split; [reflexivity |]. split; [now right |].
      split; [| reflexivity]. split; [intros _; right; now split | reflexivity].
  - apply assoc_get_None in Hkey. intros [= <- <-].
    split; [reflexivity |]. split; [now right |].
    split; [| reflexivity]. split; [intros _; now left | reflexivity].
Qed.

Lemma config_set_errors_witness :
  config_set (py "max-retries") (py "three") dlq_store = Some (1, dlq_store)
  /\ jobs dlq_store = jobs dlq_store
  /\ (1 = 0 \/ 1 = 1)
  /\ (1 = 1 <-> py "max-retries" ∉ CONFIG_KEYS
                \/ (py "max-retries" ∈ CONFIG_KEYS /\ py_int (py "three") = ValueError))
  /\ (1 = 1 -> dlq_store = dlq_store).
Proof.
  assert (config_set (py "max-retries") (py "three") dlq_store = Some (1, dlq_store)) as H
    by (vm_compute; reflexivity).
  split; [exact H |].
  exact (config_set_errors (py "max-retries") (py "three") dlq_store 1 dlq_store H).
Defined.

(** X11: a changed default applies to the next [enqueue] and to nothing
    stored.  After [config set max-retries n], a job enqueued without
    [max_retries] gets [max_retries = n], while the jobs already in the store
    are untouched. *)
Theorem config_set_then_enqueue n s fs now job_json job_data job :
  (length (digits (Z.abs n)) <= 4300)%nat ->
  enqueue_input fs job_json = Ok (DObject job_data) ->
  dict_get (py "max_retries") job_data = None ->
  exists s1,
    config_set (py "max-retries") (str_of_int n) s = Some (0, s1)
    /\ jobs s1 = jobs s
    /\ (enqueue_job fs now job_json s1 = Ok job -> max_retries job = n).
Proof.
  intros Hlen Hin Hnone.
  destruct (config_set_int_fields n s Hlen) as (H1 & _).
  eexists. split; [exact H1 |]. split; [reflexivity |].
  intros Hjob. destruct (enqueue_job_fields _ _ _ _ _ _ Hin Hjob) as [Hmr _].
  rewrite Hmr. unfold given_int. now rewrite Hnone.
Qed.

Lemma config_set_then_enqueue_witness :
  let job_json := json_text "{'id': 'j9', 'command': 'echo hi'}" in
  let job_data := [(py "id", JStr (py "j9")); (py "command", JStr (py "echo hi"))] in
  let job := mkJob (py "j9") (py "echo hi") JobState.PENDING 0 0
               (py "2024-01-01T00:00:00Z") (py "2024-01-01T00:00:00Z") None None in
  (length (digits (Z.abs 0)) <= 4300)%nat
  /\ enqueue_input no_files job_json = Ok (DObject job_data)
  /\ dict_get (py "max_retries") job_data = None
  /\ exists s1,
       config_set (py "max-retries") (str_of_int 0) dlq_store = Some (0, s1)
       /\ jobs s1 = jobs dlq_store
       /\ (enqueue_job no_files (seconds 0) job_json s1 = Ok job -> max_retries job = 0).
Proof.
  intros job_json job_data job.
  assert ((length (digits (Z.abs 0)) <= 4300)%nat) as H1 by (vm_compute; lia).
  assert (enqueue_input no_files job_json = Ok (DObject job_data)) as H2
    by (vm_compute; reflexivity).
  assert (dict_get (py "max_retries") job_data = None) as H3 by (vm_compute; reflexivity).
  split; [exact H1 |]. split; [exact H2 |]. split; [exact H3 |].
  exact (config_set_then_enqueue 0 dlq_store no_files (seconds 0) job_json job_data job
           H1 H2 H3).
Defined.

(** ** The tables of [list] and [dlq list] *)

Lemma slice_to_length {A} (n : Z) (l : list A) :
  Z.of_nat (length (slice_to n l))
  = if n <? 0 then Z.max 0 (Z.of_nat (length l) + n) else Z.min n (Z.of_nat (length l)).
Proof.
  unfold slice_to. destruct (n <? 0) eqn:E; rewrite length_firstn.
  - apply Z.ltb_lt in E. lia.
  - apply Z.ltb_ge in E. lia.
Qed.

Lemma shorten_cases width s :
  3 <= width ->
  (Z.of_nat (length s) <= width /\ shorten width s = s)
  \/ (width < Z.of_nat (length s)
      /\ shorten width s = firstn (Z.to_nat (width - 3)) s ++ py "..."
      /\ Z.of_nat (length (shorten width s)) = width).
Proof.
  intros Hw. unfold shorten. destruct (width <? Z.of_nat (length s)) eqn:E.
  - apply Z.ltb_lt in E. right. split; [exact E |].
    unfold slice_to. rewrite (proj2 (Z.ltb_ge (width - 3) 0)) by lia.
    split; [reflexivity |]. rewrite length_app, length_firstn.
    change (length (py "...")) with 3%nat. lia.
  - apply Z.ltb_ge in E. now left.
Qed.

Lemma shorten_length width s :
  3 <= width -> Z.of_nat (length (shorten width s)) <= width.
Proof.
  intros Hw. destruct (shorten_cases width s Hw) as [[H1 H2] | (H1 & H2 & H3)].
  - now rewrite H2.
  - lia.
Qed.

Lemma shorten_short width s :
  Z.of_nat (length s) <= width -> shorten width s = s.
Proof.
  intros H. unfold shorten. now rewrite (proj2 (Z.ltb_ge width (Z.of_nat (length s)))).
Qed.

Lemma shorten_long width s :
  3 <= width -> width < Z.of_nat (length s) ->
  shorten width s = firstn (Z.to_nat (width - 3)) s ++ py "...".
Proof.
  intros Hw H. destruct (shorten_cases width s Hw) as [[H1 H2] | (H1 & H2 & H3)];
    [lia | exact H2].
Qed.

(** X12: a row of the table of [list] is built unless one of the job's two
    counters is beyond the digit limit, in which case the f-string raises.
    The row never shows more than 40 characters of a command, 30 of an error
    message and 19 of a timestamp.  A command of at most 40 characters and
    an error of at most 30 are shown as they are; longer ones are cut to 37
    and 27 characters followed by three dots. *)
Theorem list_row_cells job :
  exists c e t,
    list_row job
    = (if within_digit_limit (attempts job) && within_digit_limit (max_retries job)
       then Ok [ CellStr (id job); CellStr c; CellStr (state job);
                 CellStr (str_of_int (attempts job) ++ py "/"
                          ++ str_of_int (max_retries job));
                 CellStr e; CellStr t ]
       else Raise DigitLimitError)
    /\ (length c <= 40)%nat /\ (length e <= 30)%nat /\ (length t <= 19)%nat
    /\ ((length (command job) <= 40)%nat -> c = command job)
    /\ ((40 < length (command job))%nat -> c = firstn 37 (command job) ++ py "...")
    /\ (forall m, error_message job = Some m -> (length m <= 30)%nat -> e = m)
    /\ (forall m, error_message job = Some m -> (30 < length m)%nat ->
          e = firstn 27 m ++ py "...")
    /\ (error_message job = None -> e = [])
    /\ t = firstn 19 (created_at job).
Proof.
  eexists _, _, _. split.
  { unfold list_row, format_int.
    destruct (within_digit_limit (attempts job)); cbn [mbind result_bind andb];
      [| reflexivity].
    destruct (within_digit_limit (max_retries job)); cbn [mbind result_bind];
      reflexivity. }
  assert (match error_message job with
          | Some (c :: e) => shorten 30 (c :: e)
          | _ => []
          end = match error_message job with Some x => shorten 30 x | None => [] end) as ->
    by (destruct (error_message job) as [[| c e] |]; reflexivity).
  split; [pose proof (shorten_length 40 (command job)); lia |].
  split.
  { destruct (error_message job) as [m |]; [| cbn; lia].
    pose proof (shorten_length 30 m). lia. }
  split; [unfold slice_to; cbn [Z.ltb Z.compare]; rewrite length_firstn; lia |].
  split; [intros H; apply shorten_short; lia |].
  split; [intros H; apply (shorten_long 40); lia |].
  split; [intros m -> H; apply shorten_short; lia |].
  split; [intros m -> H; apply (shorten_long 30); lia |].
  split; [now intros -> | reflexivity].
Qed.

Lemma get_all_jobs_length s : length (get_all_jobs s) = size (jobs s).
Proof. unfold get_all_jobs. rewrite length_map. apply length_map_to_list. Qed.

Lemma get_all_jobs_spec s j :
  In j (get_all_jobs s) <-> exists k row, jobs s !! k = Some row /\ row_job row = j.
Proof.
  unfold get_all_jobs. rewrite in_map_iff. split.
  - intros ([k row] & Hj & Hin). exists k, row. split; [| exact Hj].
    apply elem_of_map_to_list, list_elem_of_In. exact Hin.
  - intros (k & row & Hrow & Hj). exists (k, row). split; [exact Hj |].
    apply list_elem_of_In, elem_of_map_to_list. exact Hrow.
Qed.

Lemma In_firstn {A} (x : A) n l : In x (firstn n l) -> In x l.
Proof.
  intros H. rewrite <- (firstn_skipn n l). apply in_or_app. now left.
Qed.

Lemma encodable_firstn n l : encodable l = true -> encodable (firstn n l) = true.
Proof.
  unfold encodable. rewrite !forallb_forall. intros H c Hin.
  apply H. eapply In_firstn; exact Hin.
Qed.

Lemma encodable_slice_to n l : encodable l = true -> encodable (slice_to n l) = true.
Proof. intros H. unfold slice_to. destruct (n <? 0); now apply encodable_firstn. Qed.

Lemma encodable_shorten width l : encodable l = true -> encodable (shorten width l) = true.
Proof.
  intros H. unfold shorten. destruct (width <? Z.of_nat (length l)); [| exact H].
  rewrite encodable_app, encodable_slice_to by exact H. reflexivity.
Qed.

(** The row of a listable job is built and can be printed. *)
Lemma list_row_listable job :
  job_listable job = true ->
  exists row, list_row job = Ok row /\ forallb cell_encodable row = true.
Proof.
  unfold job_listable. intros H.
  repeat (apply andb_true_iff in H as [H ?]).
  unfold list_row, format_int.
  match goal with Ha : within_digit_limit (attempts job) = true |- _ => rewrite Ha end.
  match goal with Hm : within_digit_limit (max_retries job) = true |- _ => rewrite Hm end.
  cbn [mbind result_bind]. eexists. split; [reflexivity |].
  cbn [forallb cell_encodable].
  rewrite H, encodable_shorten, !encodable_app, !str_of_int_encodable, encodable_slice_to
    by assumption.
  match goal with Hs : encodable (state job) = true |- _ => rewrite Hs end.
  cbn [andb]. change (encodable (py "/")) with true. cbn [andb].
  rewrite andb_true_r.
  destruct (error_message job) as [[| c e] |]; try reflexivity.
  apply encodable_shorten. assumption.
Qed.

Lemma list_rows_listable jobs :
  Forall (fun job => job_listable job = true) jobs ->
  exists rows,
    list_rows jobs = Ok rows /\ length rows = length jobs
    /\ forallb (forallb cell_encodable) rows = true.
Proof.
  induction 1 as [| job jobs Hj _ (rows & Hrows & Hlen & Henc)].
  - exists []. repeat split.
  - destruct (list_row_listable job Hj) as (row & Hrow & Hr).
    exists (row :: rows). cbn [list_rows]. rewrite Hrow, Hrows. cbn [mbind result_bind].
    split; [reflexivity |]. split; [cbn; now rewrite Hlen |].
    cbn [forallb]. now rewrite Hr, Henc.
Qed.

(** X13: [list] without a state filter on a store of [n > 0] jobs whose rows
    can all be built and printed exits with status 0 and shows [min limit n]
    rows for a limit of 0 or more, and all but the last [-limit] jobs for a
    negative limit.  The notice that the listing was limited is printed
    exactly when [0 <= limit <= n], so also when the store holds exactly
    [limit] jobs and nothing was left out. *)
Theorem list_jobs_limit limit s :
  jobs s <> ∅ ->
  map_Forall (fun _ row => job_listable (row_job row) = true) (jobs s) ->
  let n := Z.of_nat (size (jobs s)) in
  exists rows shown limited,
    list_jobs None limit s = Some (0, Some (Table rows shown limited))
    /\ Z.of_nat (length rows) = shown
    /\ shown = (if limit <? 0 then Z.max 0 (n + limit) else Z.min limit n)
    /\ (limited = true <-> 0 <= limit <= n).
Proof.
  intros Hne Hall n. unfold list_jobs. cbn [parse_state_filter mbind option_bind].
  assert (Forall (fun job => job_listable job = true) (slice_to limit (get_all_jobs s)))
    as Hshown.
  { apply Forall_forall. intros job Hin. apply list_elem_of_In in Hin.
    assert (In job (get_all_jobs s)) as Hin'.
    { unfold slice_to in Hin. destruct (limit <? 0); eapply In_firstn; exact Hin. }
    apply get_all_jobs_spec in Hin' as (k & row & Hrow & <-). exact (Hall k row Hrow). }
  destruct (list_rows_listable _ Hshown) as (rows & Hrows & Hlen & Henc).
  destruct (get_all_jobs s) as [| j l] eqn:E.
  - exfalso. apply Hne. apply map_size_empty_iff.
    rewrite <- get_all_jobs_length, E. reflexivity.
  - assert (Z.of_nat (length (j :: l)) = n) as Hn
      by (rewrite <- E, get_all_jobs_length; reflexivity).
    rewrite Hrows. cbn [mbind result_bind]. unfold echo_table. rewrite Henc.
    cbn [mbind result_bind].
    eexists _, _, _. split; [reflexivity |].
    rewrite Hlen. split; [reflexivity |].
    rewrite slice_to_length, Hn. split; [reflexivity |].
    rewrite Z.eqb_eq. destruct (limit <? 0) eqn:El.
    + apply Z.ltb_lt in El. lia.
    + apply Z.ltb_ge in El. lia.
Qed.

Lemma list_jobs_limit_witness :
  jobs dlq_store <> ∅
  /\ map_Forall (fun _ row => job_listable (row_job row) = true) (jobs dlq_store)
  /\ let n := Z.of_nat (size (jobs dlq_store)) in
     exists rows shown limited,
       list_jobs None 1 dlq_store = Some (0, Some (Table rows shown limited))
       /\ Z.of_nat (length rows) = shown
       /\ shown = (if 1 <? 0 then Z.max 0 (n + 1) else Z.min 1 n)
       /\ (limited = true <-> 0 <= 1 <= n).
Proof.
  assert (jobs dlq_store <> ∅) as H.
  { intros E. apply (f_equal (fun m => m !! py "j2")) in E. vm_compute in E. discriminate E. }
  assert (map_Forall (fun _ row => job_listable (row_job row) = true) (jobs dlq_store)) as H2
    by (apply (bool_decide_unpack _); vm_compute; exact I).
  split; [exact H |]. split; [exact H2 |]. exact (list_jobs_limit 1 dlq_store H H2).
Defined.

(** A stored job whose id is a lone surrogate makes [list] exit with status
    1: the table cannot be printed. *)
Example list_unprintable :
  list_jobs None 50
    (save_job (seconds 0)
       (mkJob [55357] (py "true") JobState.PENDING 0 3
          (py "2024-01-01T00:00:00Z") (py "2024-01-01T00:00:00Z") None None)
       empty_storage).2
  = Some (1, None).
Proof. vm_compute. reflexivity. Qed.

Lemma lower_valid st st' :
  lower st = Some st' -> st' ∈ VALID_STATES ->
  lower st' = Some st' /\ st <> [] /\ st' <> [].
Proof.
  intros Hl Hin. split; [| split].
  - unfold VALID_STATES in Hin.
    repeat (apply elem_of_cons in Hin as [-> | Hin]; [vm_compute; reflexivity |]).
    inversion Hin.
  - intros ->. vm_compute in Hl. injection Hl as <-.
    apply (bool_decide_pack _) in Hin. vm_compute in Hin. exact Hin.
  - intros ->. apply (bool_decide_pack _) in Hin. vm_compute in Hin. exact Hin.
Qed.

(** X14: the state filter of [list] and [clear] ignores case.  A state whose
    lower-case form is one of the five states selects the same jobs as that
    lower-case form; any other non-empty ASCII state makes both commands
    exit with status 1, [clear] deleting nothing. *)
Theorem state_filter_ignores_case st st' limit s :
  lower st = Some st' ->
  (st' ∈ VALID_STATES ->
   list_jobs (Some st) limit s = list_jobs (Some st') limit s
   /\ clear_jobs (Some st) s = clear_jobs (Some st') s)
  /\ (st <> [] -> st' ∉ VALID_STATES ->
      list_jobs (Some st) limit s = Some (1, None)
      /\ clear_jobs (Some st) s = Some (1, 0, s)).
Proof.
  intros Hl. split.
  - intros Hin. destruct (lower_valid st st' Hl Hin) as (Hl' & Hne & Hne').
    assert (parse_state_filter (Some st) = parse_state_filter (Some st')) as Hp.
    { unfold parse_state_filter. destruct st as [| c st]; [congruence |].
      destruct st' as [| c' st'0]; [congruence |]. rewrite Hl, Hl'. reflexivity. }
    unfold list_jobs, clear_jobs. rewrite Hp. split; reflexivity.
  - intros Hne Hnin.
    assert (parse_state_filter (Some st) = Some InvalidState) as Hp.
    { unfold parse_state_filter. destruct st as [| c st]; [congruence |].
      rewrite Hl. cbn [mbind option_bind]. now rewrite bool_decide_eq_false_2. }
    unfold list_jobs, clear_jobs. rewrite Hp. split; reflexivity.
Qed.

Lemma state_filter_ignores_case_witness :
  lower (py "Dead") = Some (py "dead")
  /\ (py "dead" ∈ VALID_STATES ->
      list_jobs (Some (py "Dead")) 50 dlq_store = list_jobs (Some (py "dead")) 50 dlq_store
      /\ clear_jobs (Some (py "Dead")) dlq_store = clear_jobs (Some (py "dead")) dlq_store)
  /\ (py "Dead" <> [] -> py "dead" ∉ VALID_STATES ->
      list_jobs (Some (py "Dead")) 50 dlq_store = Some (1, None)
      /\ clear_jobs (Some (py "Dead")) dlq_store = Some (1, 0, dlq_store)).
Proof.
  assert (lower (py "Dead") = Some (py "dead")) as H by (vm_compute; reflexivity).
  split; [exact H |].
  exact (state_filter_ignores_case (py "Dead") (py "dead") 50 dlq_store H).
Defined.

(** ** Clearing *)

Lemma delete_jobs_config l : forall s, config (delete_jobs l s) = config s.
Proof.
  induction l as [| j l IH]; intros s; [reflexivity |].
  cbn [delete_jobs fold_left]. fold (delete_jobs l (delete_job (id j) s)).
  now rewrite IH.
Qed.

Lemma delete_jobs_lookup l : forall s k,
  jobs (delete_jobs l s) !! k
  = if bool_decide (k ∈ map id l) then None else jobs s !! k.
Proof.
  induction l as [| j l IH]; intros s k.
  - cbn. rewrite bool_decide_eq_false_2; [reflexivity | intros H; inversion H].
  - cbn [delete_jobs fold_left map]. fold (delete_jobs l (delete_job (id j) s)).
    rewrite IH. unfold delete_job. cbn [jobs].
    destruct (decide (k = id j)) as [-> | Hne].
    + rewrite lookup_delete_eq.
      rewrite (bool_decide_eq_true_2 (id j ∈ id j :: map id l)) by apply list_elem_of_here.
      now destruct (bool_decide (id j ∈ map id l)).
    + rewrite lookup_delete_ne by congruence.
      destruct (bool_decide (k ∈ map id l)) eqn:E.
      * apply bool_decide_eq_true_1 in E.
        now rewrite bool_decide_eq_true_2 by (now apply list_elem_of_further).
      * apply bool_decide_eq_false_1 in E. rewrite bool_decide_eq_false_2; [reflexivity |].
        intros H. apply elem_of_cons in H as [H | H]; [congruence | contradiction].
Qed.

(** The records left when the jobs of one state are deleted. *)
Lemma delete_state_lookup st s k :
  store_wf s ->
  jobs (delete_jobs (get_jobs_by_state st s) s) !! k
  = match jobs s !! k with
    | Some row => if bool_decide (state (row_job row) = st) then None else Some row
    | None => None
    end.
Proof.
  intros Hwf. rewrite delete_jobs_lookup.
  destruct (jobs s !! k) as [row |] eqn:Hrow.
  - pose proof (Hwf k row Hrow) as Hid. cbn in Hid.
    destruct (decide (state (row_job row) = st)) as [Hst | Hst].
    + rewrite (bool_decide_eq_true_2 (state (row_job row) = st)) by exact Hst.
      rewrite bool_decide_eq_true_2; [reflexivity |].
      rewrite <- Hid. apply list_elem_of_In, in_map.
      apply list_elem_of_In. unfold get_jobs_by_state. apply list_elem_of_filter.
      split; [exact Hst |]. apply list_elem_of_In, get_all_jobs_spec. eauto.
    + rewrite (bool_decide_eq_false_2 (state (row_job row) = st)) by exact Hst.
      rewrite bool_decide_eq_false_2; [reflexivity |].
      intros Hin. apply list_elem_of_In, in_map_iff in Hin as (j & Hj & Hin).
      apply list_elem_of_In in Hin. unfold get_jobs_by_state in Hin.
      apply list_elem_of_filter in Hin as [Hjs Hin].
      apply list_elem_of_In, get_all_jobs_spec in Hin as (k' & row' & Hrow' & <-).
      pose proof (Hwf k' row' Hrow') as Hid'. cbn in Hid'.
      assert (k' = k) as -> by congruence. congruence.
  - destruct (bool_decide _); reflexivity.
Qed.

Lemma delete_all_lookup s k :
  store_wf s -> jobs (delete_jobs (get_all_jobs s) s) !! k = None.
Proof.
  intros Hwf. rewrite delete_jobs_lookup.
  destruct (jobs s !! k) as [row |] eqn:Hrow; [| now destruct (bool_decide _)].
  rewrite bool_decide_eq_true_2; [reflexivity |].
  pose proof (Hwf k row Hrow) as Hid. cbn in Hid. rewrite <- Hid.
  apply list_elem_of_In, in_map, get_all_jobs_spec. eauto.
Qed.

Lemma length_zero_nil {A} (l : list A) : (Z.of_nat (length l) =? 0) = true -> l = [].
Proof. intros H. apply Z.eqb_eq in H. destruct l; [reflexivity | cbn in H; lia]. Qed.

(** X15: [dlq clear] deletes exactly the dead jobs.  Every record that was
    dead is gone, every other record and the configuration are as before,
    the number it reports is the number of dead jobs, and afterwards
    [dlq list] finds nothing. *)
Theorem dlq_clear_spec s :
  store_wf s ->
  let r := dlq_clear s in
  r.1 = Z.of_nat (length (get_jobs_by_state JobState.DEAD s))
  /\ (forall k,
        jobs r.2 !! k
        = match jobs s !! k with
          | Some row =>
              if bool_decide (state (row_job row) = JobState.DEAD) then None else Some row
          | None => None
          end)
  /\ config r.2 = config s
  /\ dlq_list r.2 = NoJobs.
Proof.
  intros Hwf r.
  assert (r.2 = delete_jobs (get_jobs_by_state JobState.DEAD s) s
          /\ r.1 = Z.of_nat (length (get_jobs_by_state JobState.DEAD s))) as [H2 H1].
  { subst r. unfold dlq_clear.
    destruct (Z.of_nat (length (get_jobs_by_state JobState.DEAD s)) =? 0) eqn:E.
    - rewrite (length_zero_nil _ E). split; reflexivity.
    - split; reflexivity. }
  assert (forall k,
            jobs r.2 !! k
            = match jobs s !! k with
              | Some row =>
                  if bool_decide (state (row_job row) = JobState.DEAD) then None else Some row
              | None => None
              end) as Hlook
    by (intros k; rewrite H2; now apply delete_state_lookup).
  split; [exact H1 |]. split; [exact Hlook |].
  split; [rewrite H2; apply delete_jobs_config |].
  unfold dlq_list.
  destruct (get_jobs_by_state JobState.DEAD r.2) as [| j l] eqn:E; [reflexivity |].
  exfalso. assert (In j (get_jobs_by_state JobState.DEAD r.2)) as Hin by (rewrite E; now left).
  apply list_elem_of_In in Hin. unfold get_jobs_by_state in Hin.
  apply list_elem_of_filter in Hin as [Hst Hin].
  apply list_elem_of_In, get_all_jobs_spec in Hin as (k & row & Hrow & <-).
  rewrite Hlook in Hrow. destruct (jobs s !! k) as [row0 |]; [| discriminate].
  destruct (bool_decide (state (row_job row0) = JobState.DEAD)) eqn:Eb; [discriminate |].
  apply bool_decide_eq_false_1 in Eb. congruence.
Qed.

Lemma dlq_clear_spec_witness :
  store_wf dlq_store
  /\ let r := dlq_clear dlq_store in
     r.1 = Z.of_nat (length (get_jobs_by_state JobState.DEAD dlq_store))
     /\ (forall k,
           jobs r.2 !! k
           = match jobs dlq_store !! k with
             | Some row =>
                 if bool_decide (state (row_job row) = JobState.DEAD) then None else Some row
             | None => None
             end)
     /\ config r.2 = config dlq_store
     /\ dlq_list r.2 = NoJobs.
Proof.
  assert (store_wf dlq_store) as H
    by (unfold store_wf; apply (bool_decide_unpack _); vm_compute; exact I).
  split; [exact H |]. exact (dlq_clear_spec dlq_store H).
Defined.

(** X16: [clear] with a state that is not one of the five exits with status
    1 and deletes nothing.  Without a state, and also for the empty state
    [--state ""], it deletes every job.  With a valid state it deletes
    exactly the jobs in that state.  The configuration is never touched, and
    the number reported is the number of jobs selected. *)
Theorem clear_jobs_spec state_opt s flt :
  store_wf s ->
  parse_state_filter state_opt = Some flt ->
  exists code count s',
    clear_jobs state_opt s = Some (code, count, s')
    /\ config s' = config s
    /\ match flt with
       | InvalidState => code = 1 /\ count = 0 /\ s' = s
       | AllStates =>
           code = 0 /\ count = Z.of_nat (size (jobs s)) /\ jobs s' = ∅
       | OneState st =>
           code = 0 /\ count = Z.of_nat (length (get_jobs_by_state st s))
           /\ forall k,
                jobs s' !! k
                = match jobs s !! k with
                  | Some row =>
                      if bool_decide (state (row_job row) = st) then None else Some row
                  | None => None
                  end
       end.
Proof.
  intros Hwf Hp. unfold clear_jobs. rewrite Hp. cbn [mbind option_bind].
  destruct flt as [| st |].
  - destruct (Z.of_nat (length (get_all_jobs s)) =? 0) eqn:E.
    + pose proof (length_zero_nil _ E) as Hnil.
      assert (size (jobs s) = 0%nat) as Hsz by (rewrite <- get_all_jobs_length, Hnil; reflexivity).
      eexists _, _, _. split; [reflexivity |]. split; [reflexivity |].
      split; [reflexivity |]. split; [now rewrite Hsz |].
      now apply map_size_empty_iff.
    + eexists _, _, _. split; [reflexivity |]. split; [apply delete_jobs_config |].
      split; [reflexivity |]. split; [now rewrite get_all_jobs_length |].
      apply map_eq. intros k. rewrite lookup_empty. now apply delete_all_lookup.
  - destruct (Z.of_nat (length (get_jobs_by_state st s)) =? 0) eqn:E.
    + pose proof (length_zero_nil _ E) as Hnil.
      eexists _, _, _. split; [reflexivity |]. split; [reflexivity |].
      split; [reflexivity |]. split; [now rewrite Hnil |].
      intros k. rewrite <- (delete_state_lookup st s k Hwf), Hnil. reflexivity.
    + eexists _, _, _. split; [reflexivity |]. split; [apply delete_jobs_config |].
      split; [reflexivity |]. split; [reflexivity |].
      intros k. now apply delete_state_lookup.
  - eexists _, _, _. repeat split.
Qed.

Lemma clear_jobs_spec_witness :
  store_wf dlq_store
  /\ parse_state_filter (Some []) = Some AllStates
  /\ exists code count s',
       clear_jobs (Some []) dlq_store = Some (code, count, s')
       /\ config s' = config dlq_store
       /\ code = 0 /\ count = Z.of_nat (size (jobs dlq_store)) /\ jobs s' = ∅.
Proof.
  assert (store_wf dlq_store) as H
    by (unfold store_wf; apply (bool_decide_unpack _); vm_compute; exact I).
  assert (parse_state_filter (Some []) = Some AllStates) as H2 by reflexivity.
  split; [exact H |]. split; [exact H2 |].
  exact (clear_jobs_spec (Some []) dlq_store AllStates H H2).
Defined.

(** ** The lease while other processes run *)


Section Exclusion.

Variable grace : Z.
Variable fs : str -> option str.




Section Held.

Variable w : str.
Variable j1 : Job.
Variable expires : Z.







End Held.



End Exclusion.


(** Two workers poll one after the other: the first receives the older job,
    the second the other one. *)
Example second_worker_gets_other_job :
  (st ← run_events 5 no_files
          (two_enqueues ++ [EvAcquire w1 (seconds 2); EvAcquire w2 (seconds 3)]) initial;
   Some (phase_job_id <$> inflight st !! w1, phase_job_id <$> inflight st !! w2))
  = Some (Some (py "j1"), Some (py "j2")).
Proof. vm_compute. reflexivity. Qed.

(** The first worker is killed.  Its lease, granted at second 2 for 300 + 5
    seconds, is live at second 306, when a call returns the other job, and
    over at second 307, when a call returns the job of the dead worker. *)
Example expired_lease_is_reclaimed :
  (st ← run_events 5 no_files (two_enqueues ++ [EvAcquire w1 (seconds 2); EvKill w1]) initial;
   Some (id <$> (acquire_next 5 w2 (seconds 306) (storage st)).1,
         id <$> (acquire_next 5 w2 (seconds 307) (storage st)).1))
  = Some (Some (py "j2"), Some (py "j1")).
Proof. vm_compute. reflexivity. Qed.

(** Why the last part of the theorem asks that no other worker is still
    working on the job.  A slow worker [w1] loses its lease at second 307 to
    [w2]; when [w1] ends its attempt, its [release_job] clears the lease of
    [w2], and the failed job, due again at second 402, is handed to a third
    worker while [w2] is still running it. *)
Example stale_worker_clears_lease :
  (st ← run_events 5 no_files
          [ EvEnqueue (seconds 0) (seconds 0) (json_text "{'id': 'j1', 'command': 'echo hi'}");
            EvAcquire w1 (seconds 2);
            EvAcquire w2 (seconds 307);
            EvFinish w1 (seconds 400) (seconds 400) (seconds 400) (Completed 1 [] []);
            EvRelease w1;
            EvAcquire (py "w3") (seconds 403) ] initial;
   Some (phase_job_id <$> inflight st !! w2, phase_job_id <$> inflight st !! py "w3"))
  = Some (Some (py "j1"), Some (py "j1")).
Proof. vm_compute. reflexivity. Qed.
